(** * FinReg Navigator: a shallow embedding of the ingestion-and-retrieval core

    The development follows the Python sources module by module:

    - [Py]              the few Python primitives the code relies on
                        (exceptions, truthiness, [str] methods, [dict.get]);
    - [Retriever]       [src/rag/retriever.py];
    - [IntentAgent], [RetrievalAgent], [WebAgent], [FinalAgent]
                        [src/agents/*.py];
    - [QueryGraph]      [src/graph/query_graph.py];
    - [Router]          [src/core/router.py];
    - [DocumentChunker] [src/ingest/document_chunker.py];
    - [TextCleaner]     [src/ingest/text_cleaner.py].

    External libraries (the LLM client, ChromaDB, the sentence embedder, the
    DDGS web search, LangChain's splitter, [json.loads]) are collaborators:
    they are taken as parameters and every theorem holds for all of their
    behaviours.

    Conventions.  A Python [str] is a [string] whose characters are code
    points below 256.  A Python [float] is a binary64 [float] of the kernel,
    with the same arithmetic and comparisons.  A [dict] with a fixed set of
    optional keys is a record of [option] fields. *)

From Stdlib Require Import Ascii ZArith Floats Uint63.
From stdpp Require Import base tactics option list gmap strings pretty.

Set Warnings "-inexact-float".

Local Open Scope string_scope.
Local Open Scope list_scope.

(* ===================================================================== *)
(** * Python primitives *)
(* ===================================================================== *)

Module Py.

(** Exceptions raised by the modelled code.  [OtherError] stands for any
    exception coming out of a collaborator. *)
Inductive exn :=
| ValueError (msg : string)
| KeyError (key : string)
| IndexError (msg : string)
| FileNotFoundError (msg : string)
| AttributeError (msg : string)
| TypeError (msg : string)
| OverflowError (msg : string)
| OtherError (msg : string).

(** [str(e)] *)
Definition exn_str (e : exn) : string :=
  match e with
  | ValueError m | IndexError m | FileNotFoundError m
  | AttributeError m | TypeError m | OverflowError m | OtherError m => m
  | KeyError k => "'" +:+ k +:+ "'"
  end.

(** A computation that returns or raises. *)
Inductive result (A : Type) :=
| Ok (a : A)
| Raise (e : exn).
Arguments Ok {A} a.
Arguments Raise {A} e.

Definition bind {A B} (m : result A) (k : A -> result B) : result B :=
  match m with
  | Ok a => k a
  | Raise e => Raise e
  end.

#[global] Instance result_ret : MRet result := fun A a => Ok a.
#[global] Instance result_bind : MBind result := fun A B k m => bind m k.

Definition is_ok {A} (m : result A) : bool :=
  match m with Ok _ => true | Raise _ => false end.

(** Truthiness of [str] and of [Optional[str]]. *)
Definition str_truthy (s : string) : bool :=
  match s with EmptyString => false | String _ _ => true end.

Definition opt_str_truthy (o : option string) : bool :=
  match o with None => false | Some s => str_truthy s end.

Definition list_truthy {A} (l : list A) : bool :=
  match l with [] => false | _ :: _ => true end.


(** ** [str] methods

    The functions work on the list of characters of a string. *)

Definition chars (s : string) : list ascii := String.list_ascii_of_string s.
Definition str (l : list ascii) : string := String.string_of_list_ascii l.

(** [len(s)] *)
Definition len (s : string) : nat := length (chars s).

(** [c.isspace()] for a code point below 256: TAB..CR, FS..US, space,
    NEL (0x85) and NBSP (0xA0). *)
Definition isspace (c : ascii) : bool :=
  let n := nat_of_ascii c in
  ((9 <=? n) && (n <=? 13) || (28 <=? n) && (n <=? 32)
   || (n =? 133) || (n =? 160))%nat.

(** [c] is one of [0-9]: what [\d] matches below code point 256. *)
Definition isdigit (c : ascii) : bool :=
  let n := nat_of_ascii c in ((48 <=? n) && (n <=? 57))%nat.

Fixpoint drop_space (l : list ascii) : list ascii :=
  match l with
  | [] => []
  | c :: l' => if isspace c then drop_space l' else l
  end.

(** [l.rstrip()]: a character stays when it is not a space or when
    something stays after it. *)
Fixpoint rstrip_chars (l : list ascii) : list ascii :=
  match l with
  | [] => []
  | c :: l' =>
      match rstrip_chars l' with
      | [] => if isspace c then [] else [c]
      | r => c :: r
      end
  end.

(** [s.strip()] *)
Definition strip_chars (l : list ascii) : list ascii :=
  rstrip_chars (drop_space l).

Definition strip (s : string) : string := str (strip_chars (chars s)).

(** [c.lower()] on ASCII letters and on the Latin-1 capitals. *)
Definition lower_char (c : ascii) : ascii :=
  let n := nat_of_ascii c in
  if ((65 <=? n) && (n <=? 90) || (192 <=? n) && (n <=? 222) && negb (n =? 215))%nat
  then ascii_of_nat (n + 32) else c.

Definition lower (s : string) : string := str (map lower_char (chars s)).

(** [l.startswith(p)] *)
Fixpoint starts_with (p l : list ascii) : bool :=
  match p, l with
  | [], _ => true
  | a :: p', b :: l' => Ascii.eqb a b && starts_with p' l'
  | _ :: _, [] => false
  end.

(** [s.endswith(p)] *)
Definition endswith (s p : string) : bool :=
  starts_with (rev (chars p)) (rev (chars s)).

(** The lowest index at which [sub] occurs in [l]. *)
Fixpoint index_of (sub l : list ascii) : option nat :=
  match l with
  | [] => if starts_with sub [] then Some 0%nat else None
  | _ :: l' => if starts_with sub l then Some 0%nat else S <$> index_of sub l'
  end.

(** [sub in s] *)
Definition contains (s sub : string) : bool :=
  bool_decide (is_Some (index_of (chars sub) (chars s))).

(** [s.find(sub, start)] for [start >= 0]: the lowest index not below
    [start] at which [sub] occurs, or [-1]. *)
Definition find (s sub : string) (start : nat) : Z :=
  if (len s <? start)%nat then (-1)%Z
  else match index_of (chars sub) (drop start (chars s)) with
       | Some i => Z.of_nat (start + i)
       | None => (-1)%Z
       end.

(** [s.split(sep)] for a one-character separator. *)
Fixpoint split_chars (sep : ascii) (l : list ascii) : list (list ascii) :=
  match l with
  | [] => [[]]
  | c :: l' =>
      if Ascii.eqb c sep then [] :: split_chars sep l'
      else match split_chars sep l' with
           | [] => [[c]]
           | w :: ws => (c :: w) :: ws
           end
  end.

Definition newline : ascii := ascii_of_nat 10.

(** The strings ["\n"] and the double quote. *)
Definition nl : string := String newline "".
Definition dq : string := String (ascii_of_nat 34) "".

(** [s.split('\n')] *)
Definition split_lines (s : string) : list string :=
  map str (split_chars newline (chars s)).

(** [sep.join(l)] *)
Fixpoint join (sep : string) (l : list string) : string :=
  match l with
  | [] => ""
  | [x] => x
  | x :: rest => x +:+ sep +:+ join sep rest
  end.

(** [len(s.split())]: the number of maximal runs of non-space characters. *)
Fixpoint count_words (in_word : bool) (l : list ascii) : nat :=
  match l with
  | [] => 0
  | c :: l' =>
      if isspace c then count_words false l'
      else if in_word then count_words true l'
      else S (count_words true l')
  end.

Definition word_count (s : string) : nat := count_words false (chars s).

(** [int(x)] for a float: truncation towards zero; it raises on
    infinities and NaN. *)
Definition int_of_float (x : float) : result Z :=
  match Prim2SF x with
  | S754_zero _ => Ok 0%Z
  | S754_finite s m e =>
      let magnitude := (if 0 <=? e then Zpos m * 2 ^ e else Zpos m / 2 ^ (- e))%Z in
      Ok (if s then (- magnitude)%Z else magnitude)
  | S754_infinity _ => Raise (OverflowError "cannot convert float infinity to integer")
  | S754_nan => Raise (ValueError "cannot convert float NaN to integer")
  end.

(** [float(n)] for a length [n] (exact below 2^53). *)
Definition float_of_nat (n : nat) : float :=
  PrimFloat.of_uint63 (Uint63.of_Z (Z.of_nat n)).

(** [seq[i]] with Python's negative indices; [IndexError] out of range. *)
Definition py_index {A} (l : list A) (i : Z) : result A :=
  let n := Z.of_nat (length l) in
  let j := (if i <? 0 then n + i else i)%Z in
  if (j <? 0)%Z then Raise (IndexError "list index out of range")
  else match l !! Z.to_nat j with
       | Some x => Ok x
       | None => Raise (IndexError "list index out of range")
       end.

(** Values produced by [json.loads]. A [JObj] lists the items of the
    resulting [dict]. *)
#[warnings="-register-all"]
Inductive json :=
| JNull
| JBool (b : bool)
| JNum (x : float)
| JStr (s : string)
| JArr (l : list json)
| JObj (items : list (string * json)).

(** [d.get(key)] on the items of a dict. *)
Fixpoint assoc_get {V} (items : list (string * V)) (key : string) : option V :=
  match items with
  | [] => None
  | (k, v) :: rest => if String.eqb k key then Some v else assoc_get rest key
  end.

(** [v == s] for a JSON value [v] and a [str] [s]: only a string can be
    equal to a string. *)
Definition json_eq_str (v : json) (s : string) : bool :=
  match v with
  | JStr s' => String.eqb s' s
  | _ => false
  end.

(** [v in l] for a list of [str]. *)
Definition json_in (v : json) (l : list string) : bool :=
  existsb (json_eq_str v) l.

End Py.

Export Py.


(* ===================================================================== *)
(** * src/rag/retriever.py *)
(* ===================================================================== *)

Module Retriever.

(** A metadata value of a stored chunk (ChromaDB metadata is a flat dict). *)
Inductive meta_value :=
| MNone
| MStr (s : string)
| MInt (z : Z)
| MNum (x : float).

Abbreviation metadata := (gmap string meta_value).

(** A query embedding: a vector of floats. *)
Definition embedding := list float.

(** The answer of [collection.query] for the single query embedding that
    [_search] sends: the inner lists [results[key][0]] for the three keys
    requested through [include]. *)
Record query_result := {
  documents : list string;
  metadatas : list metadata;
  distances : list float;
}.

(** A ChromaDB collection, as far as the retriever uses it. *)
Record collection := {
  col_name : string;
  col_count : nat;
  col_query : embedding -> nat -> query_result;
}.

(** The persistent client: the collections it holds, by name.
    [get_collection] raises when the name is absent. *)
Abbreviation client := (gmap string collection).

Definition get_collection (c : client) (name : string) : result collection :=
  match c !! name with
  | Some col => Ok col
  | None => Raise (ValueError ("Collection " +:+ name +:+ " does not exist."))
  end.

(** A retrieval hit: the dict [{"text": d, "metadata": m, "distance": dist}]. *)
Record hit := {
  text : string;
  hit_metadata : metadata;
  distance : float;
}.

(** The values a hit dict holds, and [hit.get(key)]: the dict has the keys
    ["text"], ["metadata"] and ["distance"] and no other. *)
Inductive hit_value :=
| HText (s : string)
| HMeta (m : metadata)
| HDist (x : float).

Definition hit_get (h : hit) (key : string) : option hit_value :=
  if String.eqb key "text" then Some (HText (text h))
  else if String.eqb key "metadata" then Some (HMeta (hit_metadata h))
  else if String.eqb key "distance" then Some (HDist (distance h))
  else None.

(** The four buckets [search] returns. *)
Record output := {
  uploaded_text : list hit;
  regulatory_text : list hit;
  uploaded_images : list hit;
  regulatory_images : list hit;
}.

(** [sum(len(v) for v in output.values())] *)
Definition total_hits (o : output) : nat :=
  length (uploaded_text o) + length (regulatory_text o)
  + length (uploaded_images o) + length (regulatory_images o).

Record t := {
  mode : json;
  upload_id : option string;
  the_client : client;
  embedder : string -> embedding;
  text_collections : list (string * collection);
  image_collections : list (string * collection);
}.

(** The inner loop of [_load_regulatory_collections]: the first name that
    resolves to a collection with at least one document. *)
Fixpoint first_populated (c : client) (names : list string) : option collection :=
  match names with
  | [] => None
  | name :: rest =>
      match get_collection c name with
      | Ok col => if (0 <? col_count col)%nat then Some col else first_populated c rest
      | Raise _ => first_populated c rest
      end
  end.

Definition _load_regulatory_collections (self : t) : t :=
  let self :=
    match first_populated (the_client self)
            ["finreg_regulatory_text_store"; "finreg_text_store"] with
    | Some col =>
        {| mode := mode self; upload_id := upload_id self;
           the_client := the_client self; embedder := embedder self;
           text_collections := text_collections self ++ [("regulatory", col)];
           image_collections := image_collections self |}
    | None => self
    end in
  match first_populated (the_client self)
          ["finreg_regulatory_image_store"; "finreg_image_store"] with
  | Some col =>
      {| mode := mode self; upload_id := upload_id self;
         the_client := the_client self; embedder := embedder self;
         text_collections := text_collections self;
         image_collections := image_collections self ++ [("regulatory", col)] |}
  | None => self
  end.

Definition _load_uploaded_collections (self : t) (upload_id' : string) : t :=
  let text_name := "finreg_uploaded_text_" +:+ upload_id' in
  let image_name := "finreg_uploaded_image_" +:+ upload_id' in
  let self :=
    match get_collection (the_client self) text_name with
    | Ok up_text =>
        {| mode := mode self; upload_id := upload_id self;
           the_client := the_client self; embedder := embedder self;
           text_collections := text_collections self ++ [("uploaded", up_text)];
           image_collections := image_collections self |}
    | Raise _ => self
    end in
  match get_collection (the_client self) image_name with
  | Ok up_image =>
      {| mode := mode self; upload_id := upload_id self;
         the_client := the_client self; embedder := embedder self;
         text_collections := text_collections self;
         image_collections := image_collections self ++ [("uploaded", up_image)] |}
  | Raise _ => self
  end.

(** [Retriever.__init__] *)
Definition init (c : client) (emb : string -> embedding)
    (mode' : json) (upload_id' : option string) : result t :=
  let self := {| mode := mode'; upload_id := upload_id'; the_client := c;
                 embedder := emb; text_collections := [];
                 image_collections := [] |} in
  let self :=
    if json_in mode' ["regulatory_only"; "compare"]
    then _load_regulatory_collections self else self in
  if json_in mode' ["uploaded_only"; "compare"] then
    match upload_id' with
    | Some u =>
        if str_truthy u then Ok (_load_uploaded_collections self u)
        else Raise (ValueError "upload_id required for uploaded mode")
    | None => Raise (ValueError "upload_id required for uploaded mode")
    end
  else Ok self.

Definition SIMILARITY_THRESHOLD : float := 0.7%float.

(** [zip(docs, metas, distances)]: stops at the shortest of the three. *)
Fixpoint zip3 {A B C} (l1 : list A) (l2 : list B) (l3 : list C) : list (A * B * C) :=
  match l1, l2, l3 with
  | a :: l1, b :: l2, c :: l3 => (a, b, c) :: zip3 l1 l2 l3
  | _, _, _ => []
  end.

(** The loop body of [_search]: one step of [filtered.append]. *)
Definition search_step (filtered : list hit) (x : string * metadata * float) : list hit :=
  let '(d, m, dist) := x in
  if PrimFloat.leb dist SIMILARITY_THRESHOLD
  then filtered ++ [{| text := d; hit_metadata := m; distance := dist |}]
  else filtered.

Definition _search (col : collection) (query_embedding : embedding) (k : nat) : list hit :=
  let results := col_query col query_embedding k in
  let docs := documents results in
  let metas := metadatas results in
  let dists := distances results in
  fold_left search_step (zip3 docs metas dists) [].

(** One iteration of the two loops of [search] over the loaded collections. *)
Definition extend_text (qe : embedding) (k : nat) (o : output)
    (lc : string * collection) : output :=
  let hits := _search lc.2 qe k in
  if String.eqb lc.1 "uploaded"
  then {| uploaded_text := uploaded_text o ++ hits;
          regulatory_text := regulatory_text o;
          uploaded_images := uploaded_images o;
          regulatory_images := regulatory_images o |}
  else {| uploaded_text := uploaded_text o;
          regulatory_text := regulatory_text o ++ hits;
          uploaded_images := uploaded_images o;
          regulatory_images := regulatory_images o |}.

Definition extend_images (qe : embedding) (k : nat) (o : output)
    (lc : string * collection) : output :=
  let hits := _search lc.2 qe k in
  if String.eqb lc.1 "uploaded"
  then {| uploaded_text := uploaded_text o;
          regulatory_text := regulatory_text o;
          uploaded_images := uploaded_images o ++ hits;
          regulatory_images := regulatory_images o |}
  else {| uploaded_text := uploaded_text o;
          regulatory_text := regulatory_text o;
          uploaded_images := uploaded_images o;
          regulatory_images := regulatory_images o ++ hits |}.

Definition empty_output : output :=
  {| uploaded_text := []; regulatory_text := [];
     uploaded_images := []; regulatory_images := [] |}.

Definition search (self : t) (query : string) : output :=
  let k := if json_eq_str (mode self) "compare" then 5%nat else 3%nat in
  let query_embedding := embedder self query in
  let output := empty_output in
  let output := fold_left (extend_text query_embedding k) (text_collections self) output in
  fold_left (extend_images query_embedding k) (image_collections self) output.

End Retriever.

(* ===================================================================== *)
(** * The state threaded through the query graph *)
(* ===================================================================== *)

Module State.

(** A search result as [WebAgent] stores it. *)
Record web_result := {
  title : string;
  url : string;
  snippet : string;
}.

(** [GraphState]: a [TypedDict] with [total=False], so every key may be
    absent; [verbose] is read by [FinalAgent] although the class does not
    declare it. *)
Record t := {
  query : option string;
  upload_id : option string;
  mode : option json;
  need_web : option bool;
  uploaded_text : option (list Retriever.hit);
  regulatory_text : option (list Retriever.hit);
  uploaded_images : option (list Retriever.hit);
  regulatory_images : option (list Retriever.hit);
  retrieval_results : option Retriever.output;
  web_results : option (list web_result);
  answer : option string;
  images : option (list Retriever.hit_value);
  progress : option (list string);
  verbose : option bool;
}.

(** The dict [{"query": q}] or [{"query": q, "upload_id": u}] that
    [Router.handle_input] passes to the graph. *)
Definition initial (q : string) (u : option string) : t :=
  {| query := Some q; upload_id := u; mode := None; need_web := None;
     uploaded_text := None; regulatory_text := None; uploaded_images := None;
     regulatory_images := None; retrieval_results := None; web_results := None;
     answer := None; images := None; progress := None; verbose := None |}.

(** [state[key] = v] for the keys the agents assign. *)
Definition set_mode (v : json) (s : t) : t :=
  {| query := query s; upload_id := upload_id s; mode := Some v;
     need_web := need_web s; uploaded_text := uploaded_text s;
     regulatory_text := regulatory_text s; uploaded_images := uploaded_images s;
     regulatory_images := regulatory_images s;
     retrieval_results := retrieval_results s; web_results := web_results s;
     answer := answer s; images := images s; progress := progress s;
     verbose := verbose s |}.

Definition set_need_web (v : bool) (s : t) : t :=
  {| query := query s; upload_id := upload_id s; mode := mode s;
     need_web := Some v; uploaded_text := uploaded_text s;
     regulatory_text := regulatory_text s; uploaded_images := uploaded_images s;
     regulatory_images := regulatory_images s;
     retrieval_results := retrieval_results s; web_results := web_results s;
     answer := answer s; images := images s; progress := progress s;
     verbose := verbose s |}.

Definition set_progress (v : list string) (s : t) : t :=
  {| query := query s; upload_id := upload_id s; mode := mode s;
     need_web := need_web s; uploaded_text := uploaded_text s;
     regulatory_text := regulatory_text s; uploaded_images := uploaded_images s;
     regulatory_images := regulatory_images s;
     retrieval_results := retrieval_results s; web_results := web_results s;
     answer := answer s; images := images s; progress := Some v;
     verbose := verbose s |}.

Definition set_web_results (v : list web_result) (s : t) : t :=
  {| query := query s; upload_id := upload_id s; mode := mode s;
     need_web := need_web s; uploaded_text := uploaded_text s;
     regulatory_text := regulatory_text s; uploaded_images := uploaded_images s;
     regulatory_images := regulatory_images s;
     retrieval_results := retrieval_results s; web_results := Some v;
     answer := answer s; images := images s; progress := progress s;
     verbose := verbose s |}.

(** The five assignments [RetrievalAgent.run] makes from the search output. *)
Definition set_retrieval (r : Retriever.output) (s : t) : t :=
  {| query := query s; upload_id := upload_id s; mode := mode s;
     need_web := need_web s;
     uploaded_text := Some (Retriever.uploaded_text r);
     regulatory_text := Some (Retriever.regulatory_text r);
     uploaded_images := Some (Retriever.uploaded_images r);
     regulatory_images := Some (Retriever.regulatory_images r);
     retrieval_results := Some r; web_results := web_results s;
     answer := answer s; images := images s; progress := progress s;
     verbose := verbose s |}.

(** [{**state, "answer": a, "images": i}] *)
Definition with_answer (a : string) (i : list Retriever.hit_value) (s : t) : t :=
  {| query := query s; upload_id := upload_id s; mode := mode s;
     need_web := need_web s; uploaded_text := uploaded_text s;
     regulatory_text := regulatory_text s; uploaded_images := uploaded_images s;
     regulatory_images := regulatory_images s;
     retrieval_results := retrieval_results s; web_results := web_results s;
     answer := Some a; images := Some i; progress := progress s;
     verbose := verbose s |}.

(** [state.setdefault("progress", [])] followed by
    [state["progress"].append(msg)]. *)
Definition log (msg : string) (s : t) : t :=
  set_progress (default [] (progress s) ++ [msg]) s.

(** [state.setdefault("web_results", [])] *)
Definition setdefault_web_results (s : t) : t :=
  match web_results s with
  | Some _ => s
  | None => set_web_results [] s
  end.

(** [state.setdefault("progress", [])] *)
Definition setdefault_progress (s : t) : t :=
  match progress s with
  | Some _ => s
  | None => set_progress [] s
  end.

(** [state[key]]: [KeyError] when the key is absent. *)
Definition getitem {A} (key : string) (field : option A) : result A :=
  match field with
  | Some v => Ok v
  | None => Raise (KeyError key)
  end.

End State.

(* ===================================================================== *)
(** * The collaborators of the query graph *)
(* ===================================================================== *)

(** One result of [DDGS.text]: a dict whose keys may be missing. *)
Record ddgs_result := {
  href : option string;
  ddgs_title : option string;
  body : option string;
}.

Record collaborators := {
  (** [OllamaClient.chat]: it catches every exception of the client
      library and answers ["LLM_ERROR"], so it always returns a string. *)
  llm_chat : list (string * string) -> string;
  (** [json.loads] *)
  json_loads : string -> result json;
  (** [prompts.yaml]: the intent prompts, the template already applied to
      [query] and [has_upload], and the prompt of the final answer. *)
  intent_system_prompt : string;
  intent_user_prompt : option string -> bool -> string;
  final_answer_prompt : string;
  (** [chromadb.PersistentClient] and [SentenceTransformer.encode] *)
  chroma : Retriever.client;
  encode : string -> Retriever.embedding;
  (** [DDGS().text(query, max_results=n)]: a list of results, or an
      exception. *)
  ddgs_text : string -> nat -> result (list ddgs_result);
}.

(* ===================================================================== *)
(** * src/agents/intent.py *)
(* ===================================================================== *)

Module IntentAgent.

(** [re.sub(r"```json|```", "", response)]: scanning from the left, a
    fence with its [json] tag is removed where there is one, a bare fence
    otherwise.  [skip] counts the characters of a match still to drop. *)
Fixpoint remove_fences (skip : nat) (l : list ascii) : list ascii :=
  match l with
  | [] => []
  | c :: l' =>
      match skip with
      | S n => remove_fences n l'
      | O =>
          if starts_with (chars "```json") l then remove_fences 6 l'
          else if starts_with (chars "```") l then remove_fences 2 l'
          else c :: remove_fences 0 l'
      end
  end.

(** [re.sub(r"<think>.*?</think>", "", s, flags=re.DOTALL)]: an opening
    tag is removed together with everything up to the first closing tag
    after it; an opening tag that is never closed stays. *)
Fixpoint remove_think (skip : nat) (l : list ascii) : list ascii :=
  match l with
  | [] => []
  | c :: l' =>
      match skip with
      | S n => remove_think n l'
      | O =>
          if starts_with (chars "<think>") l then
            match index_of (chars "</think>") (drop 7 l) with
            | Some j => remove_think (6 + j + 8) l'
            | None => c :: remove_think 0 l'
            end
          else c :: remove_think 0 l'
      end
  end.

Definition clean_response (response : string) : string :=
  let clean_res := strip (str (remove_fences 0 (chars response))) in
  strip (str (remove_think 0 (chars clean_res))).

(** The [try] block: [json.loads] may raise, and [result.get] raises
    [AttributeError] when the parsed value is not a dict; either way the
    default mode stays. *)
Definition parse_mode (C : collaborators) (clean_res : string) : json :=
  let mode := JStr "regulatory_only" in
  match json_loads C clean_res with
  | Ok (JObj items) => default (JStr "regulatory_only") (assoc_get items "mode")
  | Ok _ => mode
  | Raise _ => mode
  end.

Definition allowed_modes (has_upload : bool) : list string :=
  let allowed_modes := ["regulatory_only"; "web"] in
  if has_upload then ["regulatory_only"; "uploaded_only"; "compare"]
  else allowed_modes.

Definition run (C : collaborators) (state : State.t) : State.t :=
  let query := State.query state in
  let upload_id := State.upload_id state in
  let has_upload := opt_str_truthy upload_id in
  let state := State.log "🧭 Determining query intent..." state in
  let user_prompt := intent_user_prompt C query has_upload in
  let messages := [("system", intent_system_prompt C); ("user", user_prompt)] in
  let response := llm_chat C messages in
  let clean_res := clean_response response in
  let mode := parse_mode C clean_res in
  let allowed := allowed_modes has_upload in
  let state := if json_eq_str mode "web" then State.set_need_web true state else state in
  let mode := if negb (json_in mode allowed) then JStr "regulatory_only" else mode in
  State.set_mode mode state.

(** The reply of the classification call after cleaning, and the
    classified mode: what the [try] block leaves in [mode], before the
    allowed modes are enforced. *)
Definition cleaned_reply (C : collaborators) (state : State.t) : string :=
  let has_upload := opt_str_truthy (State.upload_id state) in
  let user_prompt := intent_user_prompt C (State.query state) has_upload in
  clean_response
    (llm_chat C [("system", intent_system_prompt C); ("user", user_prompt)]).

Definition classified_mode (C : collaborators) (state : State.t) : json :=
  parse_mode C (cleaned_reply C state).

End IntentAgent.

(* ===================================================================== *)
(** * src/agents/retrieval_agent.py *)
(* ===================================================================== *)

Module RetrievalAgent.

(** The retriever the agent builds from the state. *)
Definition retriever_of (C : collaborators) (state : State.t) : result Retriever.t :=
  let mode := default (JStr "regulatory_only") (State.mode state) in
  let upload_id := State.upload_id state in
  Retriever.init (chroma C) (encode C) mode upload_id.

Definition run (C : collaborators) (state : State.t) : result State.t :=
  let query := State.query state in
  let state := State.log "🔎 Searching knowledge base..." state in
  retriever ← retriever_of C state;
  (* [search] slices [query[:80]]: a missing query is a [TypeError] *)
  q ← match query with
      | Some q => Ok q
      | None => Raise (TypeError "'NoneType' object is not subscriptable")
      end;
  let results := Retriever.search retriever q in
  let state := State.set_retrieval results state in
  let total_hits := Retriever.total_hits results in
  if (total_hits =? 0)%nat then
    let state := State.set_need_web true state in
    Ok (State.log "⚠️  Nothing in KB — trying web search..." state)
  else
    let state := State.set_need_web false state in
    let reg := (length (Retriever.regulatory_text results)
                + length (Retriever.regulatory_images results))%nat in
    let upl := (length (Retriever.uploaded_text results)
                + length (Retriever.uploaded_images results))%nat in
    Ok (State.log ("✅ Found " +:+ pretty reg +:+ " regulatory chunk(s), "
                   +:+ pretty upl +:+ " uploaded chunk(s).") state).

End RetrievalAgent.

(* ===================================================================== *)
(** * src/agents/web_agent.py *)
(* ===================================================================== *)

Module WebAgent.

(** [s[:800]] *)
Definition first_800 (s : string) : string := str (take 800 (chars s)).

(** The body of the loop over the search results. *)
Definition collect_step (acc : list State.web_result * gset string)
    (r : ddgs_result) : list State.web_result * gset string :=
  let '(results, seen_urls) := acc in
  match href r with
  | None => acc
  | Some url =>
      if negb (str_truthy url) || bool_decide (url ∈ seen_urls) then acc
      else (results ++ [{| State.title := default "" (ddgs_title r);
                           State.url := url;
                           State.snippet := first_800 (default "" (body r)) |}],
            {[url]} ∪ seen_urls)
  end.

Definition collect (rs : list ddgs_result) : list State.web_result :=
  (fold_left collect_step rs ([], ∅)).1.

Definition run (max_results : nat) (C : collaborators) (state : State.t)
    : result State.t :=
  let state := State.setdefault_progress state in
  let state := State.setdefault_web_results state in
  if negb (default false (State.need_web state)) then Ok state
  else
    query ← State.getitem "query" (State.query state);
    let state := State.log "🌐 Searching web as fallback..." state in
    let results := [] in
    let '(results, state) :=
      match ddgs_text C query max_results with
      | Ok rs =>
          let results := collect rs in
          (results,
           State.log (if list_truthy results
                      then "🌐 Web returned " +:+ pretty (length results) +:+ " result(s)."
                      else "🌐 Web search returned no results.") state)
      | Raise e =>
          (results, State.log ("🌐 Web search failed: " +:+ exn_str e) state)
      end in
    Ok (State.set_web_results results state).

End WebAgent.

(* ===================================================================== *)
(** * src/agents/final_agent.py *)
(* ===================================================================== *)

Module FinalAgent.

Definition fmt_blocks (blocks : list Retriever.hit) (label : string) : string :=
  if negb (list_truthy blocks) then ""
  else join (nl +:+ nl)
         (map (fun b => "[" +:+ label +:+ "]" +:+ nl +:+ Retriever.text b) blocks).

Definition fmt_web (results : list State.web_result) : string :=
  if negb (list_truthy results) then ""
  else join (nl +:+ nl)
         (map (fun r => "[WEB]" +:+ nl +:+ "Title: " +:+ State.title r +:+ nl
                        +:+ "URL: " +:+ State.url r +:+ nl
                        +:+ "Snippet: " +:+ State.snippet r) results).

(** One [if text: sections.append(...)] *)
Definition add_section (header body : string) (sections : list string) : list string :=
  if str_truthy body then sections ++ [header +:+ nl +:+ body] else sections.

(** [str(b)] for a bool and for the mode. *)
Definition bool_str (b : bool) : string := if b then "True" else "False".

Definition mode_str (m : json) : string :=
  match m with
  | JStr s => s
  | _ => "<json>"
  end.

(** Truthiness of what [hit.get] returns. *)
Definition hit_value_truthy (v : Retriever.hit_value) : bool :=
  match v with
  | Retriever.HText s => str_truthy s
  | Retriever.HMeta m => negb (bool_decide (m = ∅))
  | Retriever.HDist x => negb (PrimFloat.eqb x 0%float)
  end.

(** [[i.get("image_path") for i in hits if i.get("image_path")]]: the
    lookup is made on the hit dict itself. *)
Definition image_paths_of (hits : list Retriever.hit) : list Retriever.hit_value :=
  omap (fun i =>
          match Retriever.hit_get i "image_path" with
          | Some v => if hit_value_truthy v then Some v else None
          | None => None
          end) hits.

Definition run (C : collaborators) (state : State.t) : result State.t :=
  query ← State.getitem "query" (State.query state);
  let mode := default (JStr "regulatory_only") (State.mode state) in
  let verbose := default false (State.verbose state) in
  let regulatory_text := default [] (State.regulatory_text state) in
  let uploaded_text := default [] (State.uploaded_text state) in
  let regulatory_images := default [] (State.regulatory_images state) in
  let uploaded_images := default [] (State.uploaded_images state) in
  let web_results := default [] (State.web_results state) in
  let state := State.log "🤖 Generating answer..." state in
  let sections := [] in
  let sections := add_section "--- Regulatory Knowledge Base ---"
                    (fmt_blocks regulatory_text "REGULATORY_KB") sections in
  let sections := add_section "--- Uploaded Document ---"
                    (fmt_blocks uploaded_text "UPLOADED_DOC") sections in
  let sections := add_section "--- Regulatory Images ---"
                    (fmt_blocks regulatory_images "REGULATORY_IMAGE") sections in
  let sections := add_section "--- Uploaded Images ---"
                    (fmt_blocks uploaded_images "UPLOADED_IMAGE") sections in
  let sections := add_section "--- Web Search Results ---"
                    (fmt_web web_results) sections in
  let context_body :=
    if list_truthy sections then join (nl +:+ nl) sections
    else "No context available." in
  let context :=
    "User Question: " +:+ query +:+ nl +:+ nl
    +:+ "Execution Mode: " +:+ mode_str mode +:+ nl
    +:+ "Verbose: " +:+ bool_str verbose +:+ nl +:+ nl
    +:+ context_body in
  let response := llm_chat C [("system", final_answer_prompt C); ("user", context)] in
  let state := State.log "✅ Answer ready." state in
  let image_paths := image_paths_of uploaded_images ++ image_paths_of regulatory_images in
  Ok (State.with_answer response (filter (fun p => hit_value_truthy p = true) image_paths) state).

End FinalAgent.

(* ===================================================================== *)
(** * src/graph/query_graph.py *)
(* ===================================================================== *)

Module QueryGraph.

Inductive node := Intent | Retrieve | Web | Final.

#[global] Instance node_eq_dec : EqDecision node.
Proof. solve_decision. Defined.

Definition _route_after_retrieval (state : State.t) : string :=
  if default false (State.need_web state) then "web" else "final".

(** [builder.add_node]: the agent behind each node. *)
Definition run_node (C : collaborators) (n : node) (state : State.t) : result State.t :=
  match n with
  | Intent => Ok (IntentAgent.run C state)
  | Retrieve => RetrievalAgent.run C state
  | Web => WebAgent.run 3 C state
  | Final => FinalAgent.run C state
  end.

(** The edges: [None] is [END]. *)
Definition next_node (n : node) (state : State.t) : option node :=
  match n with
  | Intent => Some Retrieve
  | Retrieve =>
      if String.eqb (_route_after_retrieval state) "web" then Some Web
      else Some Final
  | Web => Some Final
  | Final => None
  end.

(** Running the compiled graph from a node: the nodes visited and the final
    state.  [limit] is LangGraph's recursion limit. *)
Fixpoint walk (limit : nat) (C : collaborators) (n : node) (state : State.t)
    : result (list node * State.t) :=
  match limit with
  | O => Raise (OtherError "GraphRecursionError")
  | S limit' =>
      state' ← run_node C n state;
      match next_node n state' with
      | None => Ok ([n], state')
      | Some n' =>
          r ← walk limit' C n' state';
          Ok (n :: r.1, r.2)
      end
  end.

Definition recursion_limit : nat := 25.

(** [graph.invoke(state)], with the path taken. *)
Definition invoke_path (C : collaborators) (state : State.t)
    : result (list node * State.t) :=
  walk recursion_limit C Intent state.

Definition invoke (C : collaborators) (state : State.t) : result State.t :=
  r ← invoke_path C state; Ok r.2.

End QueryGraph.

(* ===================================================================== *)
(** * src/core/router.py *)
(* ===================================================================== *)

Module Router.

(** What the router touches outside the process: the session folders
    [uploads/<id>] and [temp/<id>] (a folder stands for its whole subtree and
    records the names of the files saved in it), and the collections of the
    ChromaDB store. *)
Record world := {
  folders : gmap string (list string);
  chroma_db : Retriever.client;
}.

(** The router runs in a state made of the world and of a ghost log: the
    upload ids [_cleanup] was called with, oldest first.  Collaborators see
    the world only. *)
Definition M (A : Type) : Type := world * list string -> result A * (world * list string).

Definition ret {A} (a : A) : M A := fun s => (Ok a, s).

Definition raise {A} (e : exn) : M A := fun s => (Raise e, s).

Definition seq {A B} (m : M A) (k : A -> M B) : M B :=
  fun s =>
    match m s with
    | (Ok a, s') => k a s'
    | (Raise e, s') => (Raise e, s')
    end.

(** [try: body finally: fin]: [fin] runs whether [body] returns or raises;
    afterwards the outcome of [body] stands, unless [fin] raised itself. *)
Definition try_finally {A} (body : M A) (fin : M unit) : M A :=
  fun s =>
    let '(r, s1) := body s in
    match fin s1 with
    | (Ok _, s2) => (r, s2)
    | (Raise e, s2) => (Raise e, s2)
    end.

(** A collaborator acts on the world and leaves the ghost log alone. *)
Definition lift {A} (f : world -> result A * world) : M A :=
  fun s => let '(r, w) := f s.1 in (r, (w, s.2)).

Definition uploads_dir (upload_id : string) : string := "uploads/" +:+ upload_id.
Definition temp_dir (upload_id : string) : string := "temp/" +:+ upload_id.

Definition text_collection_name (upload_id : string) : string :=
  "finreg_uploaded_text_" +:+ upload_id.
Definition image_collection_name (upload_id : string) : string :=
  "finreg_uploaded_image_" +:+ upload_id.

(** What [handle_input] returns: the final graph state, or a message. *)
Inductive response :=
| GraphResult (state : State.t)
| Message (message : string) (upload_id : option string).

Record t := {
  (** [self.graph.invoke]: any behaviour, it may raise. *)
  graph_invoke : State.t -> world -> result State.t;
  (** The body of [_run_ingestion] after the temp folders exist: extraction,
      cleaning, chunking, description and embedding of the PDFs and images of
      the session.  Any behaviour, it may raise half-way. *)
  ingest_files : string -> list string -> list string -> world -> result unit * world;
  (** [datetime.now().strftime("%Y%m%d_%H%M%S")] *)
  timestamp : string;
}.

(** [Path(name).suffix.lower()] *)
Fixpoint last_dot (l : list ascii) (i : nat) (found : option nat) : option nat :=
  match l with
  | [] => found
  | c :: l' => last_dot l' (S i) (if Ascii.eqb c "."%char then Some i else found)
  end.

Definition suffix_lower (name : string) : string :=
  match last_dot (chars name) 0 None with
  | Some i =>
      if ((0 <? i) && (i <? len name - 1))%nat
      then lower (str (drop i (chars name))) else ""
  | None => ""
  end.

Definition PDF_TYPES : list string := [".pdf"].
Definition IMAGE_TYPES : list string := [".png"; ".jpg"; ".jpeg"].

Definition is_pdf (f : string) : bool := bool_decide (suffix_lower f ∈ PDF_TYPES).
Definition is_image (f : string) : bool := bool_decide (suffix_lower f ∈ IMAGE_TYPES).

(** [dest.write_bytes]: the file is created, or replaced. *)
Definition write_file (name : string) (names : list string) : list string :=
  if bool_decide (name ∈ names) then names else names ++ [name].

Definition save_uploaded_files (files : list (string * string)) (upload_id : string)
    : M unit :=
  lift (fun w =>
    let dest_dir := uploads_dir upload_id in
    let present := default [] (folders w !! dest_dir) in
    let present := fold_left (fun acc f => write_file f.1 acc) files present in
    (Ok tt, {| folders := <[dest_dir := present]> (folders w);
               chroma_db := chroma_db w |})).

(** [d.mkdir(parents=True, exist_ok=True)] for the base folder and its
    subfolders. *)
Definition _make_temp_dirs (upload_id : string) : M unit :=
  lift (fun w =>
    let base := temp_dir upload_id in
    (Ok tt, {| folders := <[base := default [] (folders w !! base)]> (folders w);
               chroma_db := chroma_db w |})).

(** [if folder.exists(): shutil.rmtree(folder)] *)
Definition remove_folder (folder : string) (w : world) : world :=
  match folders w !! folder with
  | Some _ => {| folders := delete folder (folders w); chroma_db := chroma_db w |}
  | None => w
  end.

(** [client.delete_collection(name)] raises when the collection is absent. *)
Definition delete_collection (name : string) (db : Retriever.client)
    : result Retriever.client :=
  match db !! name with
  | Some _ => Ok (delete name db)
  | None => Raise (ValueError ("Collection " +:+ name +:+ " does not exist."))
  end.

(** [try: client.delete_collection(name) except Exception: pass] *)
Definition try_delete_collection (name : string) (w : world) : world :=
  match delete_collection name (chroma_db w) with
  | Ok db => {| folders := folders w; chroma_db := db |}
  | Raise _ => w
  end.

(** [_cleanup].  The outer [try] of the source guards the construction of
    the client, which is taken to succeed here as it is in [Retriever]. *)
Definition _cleanup (upload_id : string) : M unit :=
  fun s =>
    let w := s.1 in
    let w := fold_left (fun w folder => remove_folder folder w)
               [uploads_dir upload_id; temp_dir upload_id] w in
    let w := fold_left (fun w name => try_delete_collection name w)
               [text_collection_name upload_id; image_collection_name upload_id] w in
    (Ok tt, (w, s.2 ++ [upload_id])).

Definition _run_ingestion (self : t) (upload_id : string) : M unit :=
  seq (fun s => (Ok (folders s.1 !! uploads_dir upload_id), s)) (fun session_dir =>
  match session_dir with
  | None =>
      raise (FileNotFoundError ("Upload dir not found for " +:+ upload_id
               +:+ ". Call save_uploaded_files() first."))
  | Some all_files =>
      let pdfs := filter (fun f => is_pdf f = true) all_files in
      let images := filter (fun f => is_image f = true) all_files in
      if negb (list_truthy pdfs) && negb (list_truthy images) then
        raise (ValueError "No supported files (PDF or image) found in upload dir.")
      else
        seq (_make_temp_dirs upload_id) (fun _ =>
        lift (ingest_files self upload_id pdfs images))
  end).

Definition invoke_graph (self : t) (query : string) (upload_id : option string)
    : M response :=
  lift (fun w =>
    match graph_invoke self (State.initial query upload_id) w with
    | Ok st => (Ok (GraphResult st), w)
    | Raise e => (Raise e, w)
    end).

Definition handle_input (self : t) (query : option string)
    (files : option (list (string * string))) (upload_id : option string)
    : M response :=
  let files_given := match files with Some l => list_truthy l | None => false end in
  let upload_id :=
    if files_given && negb (opt_str_truthy upload_id)
    then Some (timestamp self) else upload_id in
  (* the id as a string; only read where the source has checked it *)
  let uid := default "" upload_id in
  if files_given then
    seq (save_uploaded_files (default [] files) uid) (fun _ =>
    match query with
    | Some q =>
        if str_truthy q then
          try_finally
            (seq (_run_ingestion self uid) (fun _ => invoke_graph self q upload_id))
            (_cleanup uid)
        else
          seq (_run_ingestion self uid) (fun _ =>
          ret (Message "Files ingested. Send your query with this upload_id." upload_id))
    | None =>
        seq (_run_ingestion self uid) (fun _ =>
        ret (Message "Files ingested. Send your query with this upload_id." upload_id))
    end)
  else
    match query with
    | Some q =>
        if str_truthy q then
          if opt_str_truthy upload_id then
            try_finally (invoke_graph self q upload_id) (_cleanup uid)
          else
            (* the source passes [{"query": query}] *)
            invoke_graph self q None
        else ret (Message "No input provided." None)
    | None => ret (Message "No input provided." None)
    end.

(** The router of the application: its graph is the query graph, reading
    the store of the current world. *)
Definition with_chroma (C : collaborators) (db : Retriever.client) : collaborators :=
  {| llm_chat := llm_chat C; json_loads := json_loads C;
     intent_system_prompt := intent_system_prompt C;
     intent_user_prompt := intent_user_prompt C;
     final_answer_prompt := final_answer_prompt C;
     chroma := db; encode := encode C; ddgs_text := ddgs_text C |}.

Definition graph_of (C : collaborators) (state : State.t) (w : world) : result State.t :=
  QueryGraph.invoke (with_chroma C (chroma_db w)) state.

End Router.

(* ===================================================================== *)
(** * src/ingest/document_chunker.py *)
(* ===================================================================== *)

Module DocumentChunker.

(** A page of the cleaned JSON: [page.get('metadata', {}).get('page')] and
    [page.get('text')]; either may be missing. *)
Record page := {
  page_number : option json;
  page_text : option string;
}.

(** The cleaned JSON document, as far as the chunker reads it. *)
Record cleaned_json := {
  pdf_name : option string;
  total_pages : option Z;
  pages : option (list page);
}.

Record chunk_metadata := {
  m_pdf_name : string;
  start_page : json;
  end_page : json;
  chunk_index : nat;
  m_type : string;
}.

Record chunk := {
  id : string;
  text : string;
  char_count : nat;
  word_count : nat;
  metadata : chunk_metadata;
}.

Record chunked_json := {
  c_pdf_name : string;
  source_file : string;
  chunking_date : string;
  c_total_pages : Z;
  total_chunks : nat;
  c_chunk_size : nat;
  c_chunk_overlap : nat;
  chunks : list chunk;
}.

Record t := {
  chunk_size : nat;
  chunk_overlap : nat;
  output_dir : string;
  (** [RecursiveCharacterTextSplitter.split_text], configured with the
      chunk size, the overlap and the separators. *)
  split_text : string -> list string;
  (** [datetime.now().isoformat()] *)
  now_isoformat : string;
}.

(** The files the chunker has written, by path. *)
Abbreviation files := (gmap string chunked_json).

(** Step 1: the full text and the page of each of its characters. *)
Definition add_page (acc : string * list json) (p : page) : string * list json :=
  let '(full_text, char_to_page_map) := acc in
  let page_num := default (JStr "?") (page_number p) in
  let page_text := default "" (page_text p) in
  if negb (str_truthy (strip page_text)) then acc
  else
    let page_content := page_text +:+ nl +:+ nl in
    (full_text +:+ page_content,
     char_to_page_map ++ replicate (len page_content) page_num).

Definition build_full_text (doc : cleaned_json) : string * list json :=
  fold_left add_page (default [] (pages doc)) ("", []).

(** Step 3: the variables of the loop, and its body. *)
Record loop_state := {
  all_chunks : list chunk;
  chunk_counter : nat;
  current_search_start : nat;
}.

Definition chunk_step (pdf_name' full_text : string) (char_to_page_map : list json)
    (st : loop_state) (chunk_text : string) : result loop_state :=
  if (len (strip chunk_text) <? 15)%nat then Ok st
  else
    let start_char := find full_text chunk_text (current_search_start st) in
    let start_char :=
      if (start_char =? -1)%Z then find full_text chunk_text 0 else start_char in
    if (start_char =? -1)%Z then Ok st
    else
      let end_char := (start_char + Z.of_nat (len chunk_text))%Z in
      start_page' ← py_index char_to_page_map start_char;
      end_page' ← py_index char_to_page_map
                    (Z.min (end_char - 1) (Z.of_nat (length char_to_page_map) - 1));
      let chunk_data :=
        {| id := pdf_name' +:+ "_" +:+ pretty (chunk_counter st);
           text := chunk_text;
           char_count := len chunk_text;
           word_count := Py.word_count chunk_text;
           metadata := {| m_pdf_name := pdf_name';
                          start_page := start_page';
                          end_page := end_page';
                          chunk_index := chunk_counter st;
                          m_type := "text" |} |} in
      Ok {| all_chunks := all_chunks st ++ [chunk_data];
            chunk_counter := S (chunk_counter st);
            current_search_start := Z.to_nat end_char |}.

Fixpoint chunk_loop (pdf_name' full_text : string) (char_to_page_map : list json)
    (chunks' : list string) (st : loop_state) : result loop_state :=
  match chunks' with
  | [] => Ok st
  | chunk_text :: rest =>
      st' ← chunk_step pdf_name' full_text char_to_page_map st chunk_text;
      chunk_loop pdf_name' full_text char_to_page_map rest st'
  end.

(** [chunk_document], from the loaded JSON on: what it returns or raises,
    and the files after it. *)
Definition chunk_document (self : t) (cleaned_json_path : string)
    (doc : cleaned_json) (output_path : option string) (fs : files)
    : result chunked_json * files :=
  let pdf_name' := default "unknown" (pdf_name doc) in
  let total_pages' := default 0%Z (total_pages doc) in
  let '(full_text, char_to_page_map) := build_full_text doc in
  if negb (str_truthy (strip full_text)) then
    (Raise (ValueError "No content found to chunk."), fs)
  else
    let chunks' := split_text self full_text in
    match chunk_loop pdf_name' full_text char_to_page_map chunks'
            {| all_chunks := []; chunk_counter := 0; current_search_start := 0 |} with
    | Raise e => (Raise e, fs)
    | Ok st =>
        let chunked :=
          {| c_pdf_name := pdf_name';
             source_file := cleaned_json_path;
             chunking_date := now_isoformat self;
             c_total_pages := total_pages';
             total_chunks := length (all_chunks st);
             c_chunk_size := chunk_size self;
             c_chunk_overlap := chunk_overlap self;
             chunks := all_chunks st |} in
        let output_path :=
          match output_path with
          | None => output_dir self +:+ "/" +:+ pdf_name' +:+ "_chunks.json"
          | Some path => path
          end in
        (Ok chunked, <[output_path := chunked]> fs)
    end.

End DocumentChunker.

(* ===================================================================== *)
(** * Regular expressions, as far as [text_cleaner.py] uses [re] *)
(* ===================================================================== *)

Module Re.

Inductive re :=
| Void
| Eps
| Cls (p : ascii -> bool)
| Cat (r1 r2 : re)
| Alt (r1 r2 : re)
| Star (r : re).

(** [r+], [r?], [r{n}], a literal, and a literal under [re.IGNORECASE]. *)
Definition Plus (r : re) : re := Cat r (Star r).
Definition Opt (r : re) : re := Alt r Eps.

Fixpoint Rep (n : nat) (r : re) : re :=
  match n with
  | O => Eps
  | S n' => Cat r (Rep n' r)
  end.

Definition Chr (c : ascii) : re := Cls (Ascii.eqb c).

Definition ChrI (c : ascii) : re :=
  Cls (fun x => Ascii.eqb (lower_char x) (lower_char c)).

Fixpoint Lit (l : list ascii) : re :=
  match l with
  | [] => Eps
  | c :: l' => Cat (Chr c) (Lit l')
  end.

Fixpoint LitI (l : list ascii) : re :=
  match l with
  | [] => Eps
  | c :: l' => Cat (ChrI c) (LitI l')
  end.

(** [r1|r2|...] *)
Fixpoint Alts (rs : list re) : re :=
  match rs with
  | [] => Void
  | [r] => r
  | r :: rs' => Alt r (Alts rs')
  end.

(** [\d], [\s] and a sequence [r1 r2 ...]. *)
Definition digit : re := Cls isdigit.
Definition space : re := Cls isspace.

Fixpoint Seq (rs : list re) : re :=
  match rs with
  | [] => Eps
  | [r] => r
  | r :: rs' => Cat r (Seq rs')
  end.

(** The words of a regular expression. *)
Inductive lang : re -> list ascii -> Prop :=
| lang_eps : lang Eps []
| lang_cls p c : p c = true -> lang (Cls p) [c]
| lang_cat r1 r2 l1 l2 : lang r1 l1 -> lang r2 l2 -> lang (Cat r1 r2) (l1 ++ l2)
| lang_alt_l r1 r2 l : lang r1 l -> lang (Alt r1 r2) l
| lang_alt_r r1 r2 l : lang r2 l -> lang (Alt r1 r2) l
| lang_star_nil r : lang (Star r) []
| lang_star_app r l1 l2 : lang r l1 -> lang (Star r) l2 -> lang (Star r) (l1 ++ l2).

(** Matching by derivatives. *)
Fixpoint nullable (r : re) : bool :=
  match r with
  | Void => false
  | Eps => true
  | Cls _ => false
  | Cat r1 r2 => nullable r1 && nullable r2
  | Alt r1 r2 => nullable r1 || nullable r2
  | Star _ => true
  end.

Fixpoint deriv (c : ascii) (r : re) : re :=
  match r with
  | Void => Void
  | Eps => Void
  | Cls p => if p c then Eps else Void
  | Cat r1 r2 =>
      if nullable r1 then Alt (Cat (deriv c r1) r2) (deriv c r2)
      else Cat (deriv c r1) r2
  | Alt r1 r2 => Alt (deriv c r1) (deriv c r2)
  | Star r1 => Cat (deriv c r1) (Star r1)
  end.

(** The whole of [l] is a word of [r]. *)
Fixpoint matches (r : re) (l : list ascii) : bool :=
  match l with
  | [] => nullable r
  | c :: l' => matches (deriv c r) l'
  end.

(** [re.match(r, l)]: some prefix of [l] is a word of [r]. *)
Fixpoint match_prefix (r : re) (l : list ascii) : bool :=
  nullable r ||
  match l with
  | [] => false
  | c :: l' => match_prefix (deriv c r) l'
  end.

(** [re.search(r, l)]: a word of [r] occurs in [l]. *)
Fixpoint search (r : re) (l : list ascii) : bool :=
  match_prefix r l ||
  match l with
  | [] => false
  | _ :: l' => search r l'
  end.

(** [\w] for a code point below 256: letters, digits, the underscore, and
    the alphanumeric characters of Latin-1. *)
Definition is_word (c : ascii) : bool :=
  let n := nat_of_ascii c in
  ((48 <=? n) && (n <=? 57) || (65 <=? n) && (n <=? 90) || (n =? 95)
   || (97 <=? n) && (n <=? 122)
   || (n =? 170) || (n =? 178) || (n =? 179) || (n =? 181) || (n =? 185)
   || (n =? 186) || (188 <=? n) && (n <=? 190)
   || (192 <=? n) && (n <=? 214) || (216 <=? n) && (n <=? 246)
   || (248 <=? n) && (n <=? 255))%nat.

(** [\b] between the character before a position and the one after it
    ([None] at either end of the string). *)
Definition word_boundary (before after : option ascii) : bool :=
  xorb (from_option is_word false before) (from_option is_word false after).

(** From a position where [r] is what is left to match: the match can end
    at a [\b]. *)
Fixpoint match_until_boundary (r : re) (before : option ascii) (l : list ascii) : bool :=
  nullable r && word_boundary before (head l) ||
  match l with
  | [] => false
  | c :: l' => match_until_boundary (deriv c r) (Some c) l'
  end.

(** [re.search(r'\b' + r + r'\b', l)], given the character before [l]. *)
Fixpoint search_bounded (r : re) (before : option ascii) (l : list ascii) : bool :=
  word_boundary before (head l) && match_until_boundary r before l ||
  match l with
  | [] => false
  | c :: l' => search_bounded r (Some c) l'
  end.

(** The length of the longest prefix of [l] that is a word of [r]. *)
Fixpoint longest_prefix (r : re) (l : list ascii) : option nat :=
  match l with
  | [] => if nullable r then Some 0%nat else None
  | c :: l' =>
      match longest_prefix (deriv c r) l' with
      | Some n => Some (S n)
      | None => if nullable r then Some 0%nat else None
      end
  end.

(** [re.sub(r, '', l)] for an [r] whose match at a position, when there is
    one, is the longest word of [r] there: matches are removed from the
    left, without overlap.  [skip] counts the characters of a match still
    to drop. *)
Fixpoint sub_all (r : re) (skip : nat) (l : list ascii) : list ascii :=
  match l with
  | [] => []
  | c :: l' =>
      match skip with
      | S n => sub_all r n l'
      | O =>
          match longest_prefix r l with
          | Some (S n) => sub_all r n l'
          | _ => c :: sub_all r 0 l'
          end
      end
  end.

(** [re.sub(r + '$', '', l)] for an [r] without empty word and an [l]
    without newline: the match starts at the first position from which the
    rest of [l] is a word of [r], and is removed. *)
Fixpoint sub_to_end (r : re) (l : list ascii) : list ascii :=
  if matches r l then []
  else match l with
       | [] => []
       | c :: l' => c :: sub_to_end r l'
       end.

End Re.

(* ===================================================================== *)
(** * src/ingest/text_cleaner.py *)
(* ===================================================================== *)

Module TextCleaner.

(** A page of the extracted JSON, and the document. *)
Record page := {
  text : option string;
  text_original : option string;
  page_number : option json;
}.

Record document := {
  pdf_name : option string;
  total_pages : option Z;
  pages : option (list page);
}.

Record t := {
  header_threshold : float;
  footer_threshold : float;
  global_threshold : float;
  max_line_length : nat;
  detected_headers : gset string;
  detected_footers : gset string;
  globally_frequent_lines : gset string;
}.

(** [TextCleaner.__init__] and its defaults. *)
Definition init (header_threshold' footer_threshold' global_threshold' : float)
    (max_line_length' : nat) : t :=
  {| header_threshold := header_threshold';
     footer_threshold := footer_threshold';
     global_threshold := global_threshold';
     max_line_length := max_line_length';
     detected_headers := ∅; detected_footers := ∅;
     globally_frequent_lines := ∅ |}.

Definition default_cleaner : t := init 0.3 0.3 0.35 80.

(** A [collections.Counter] over lines, and [counter[line] += 1]. *)
Abbreviation counter := (gmap string nat).

Definition incr (c : counter) (line : string) : counter :=
  <[line := S (default 0%nat (c !! line))]> c.

(** [for line in lines: if line: counter[line] += 1] *)
Definition count_lines (lines : list string) (c : counter) : counter :=
  fold_left incr (filter (fun line => str_truthy line = true) lines) c.

(** [[line.strip() for line in text.split('\n') if line.strip()]] *)
Definition stripped_lines (text' : string) : list string :=
  filter (fun line => str_truthy line = true) (map strip (split_lines text')).

(** [lines[:3]] and [lines[-3:]] *)
Definition first3 (lines : list string) : list string := take 3 lines.
Definition last3 (lines : list string) : list string := drop (length lines - 3) lines.

(** [_should_keep_line] and its patterns:
    [\d+[,.]?\d*], the month names between [\b] under [re.IGNORECASE],
    and [\d{4}]. *)
Definition number_re : Re.re :=
  Re.Seq [Re.Plus Re.digit;
          Re.Opt (Re.Cls (fun c => Ascii.eqb c ","%char || Ascii.eqb c "."%char));
          Re.Star Re.digit].

Definition month_names : list string :=
  ["January"; "February"; "March"; "April"; "May"; "June"; "July"; "August";
   "September"; "October"; "November"; "December"].

Definition month_re : Re.re := Re.Alts (map (fun m => Re.LitI (chars m)) month_names).

Definition year_re : Re.re := Re.Rep 4 Re.digit.

Definition quantity_words : list string :=
  ["percent"; "million"; "billion"; "trillion"; "total"; "average"].

Definition _should_keep_line (line : string) : bool :=
  let line := strip line in
  if Re.search number_re (chars line) then true
  else if Re.search_bounded month_re None (chars line) then true
  else if Re.search year_re (chars line) then true
  else if contains line "." && negb (endswith line "...") then true
  else if existsb (fun word => contains (lower line) word) quantity_words then true
  else false.

(** The three counters of [analyze_document] and one turn of its loop over
    the pages. *)
Record counters := {
  first_lines_counter : counter;
  last_lines_counter : counter;
  all_lines_counter : counter;
}.

Definition count_page (self : t) (cs : counters) (p : page) : counters :=
  let text' := default "" (text p) in
  if negb (str_truthy (strip text')) then cs
  else
    let lines := stripped_lines text' in
    if negb (list_truthy lines) then cs
    else
      {| first_lines_counter := count_lines (first3 lines) (first_lines_counter cs);
         last_lines_counter := count_lines (last3 lines) (last_lines_counter cs);
         all_lines_counter :=
           count_lines
             (filter (fun line => (len line <=? max_line_length self)%nat = true) lines)
             (all_lines_counter cs) |}.

Definition count_pages (self : t) (pages' : list page) : counters :=
  fold_left (count_page self) pages'
    {| first_lines_counter := ∅; last_lines_counter := ∅; all_lines_counter := ∅ |}.

(** [{line for line, count in counter.items() if count >= min_count}] *)
Definition frequent (c : counter) (min_count : Z) : gset string :=
  dom (filter (fun kv => (min_count <= Z.of_nat kv.2)%Z) c).

(** The same with the protection of [_should_keep_line]. *)
Definition frequent_unprotected (c : counter) (min_count : Z) : gset string :=
  dom (filter (fun kv => (min_count <= Z.of_nat kv.2)%Z
                         ∧ _should_keep_line kv.1 = false) c).

(** What [analyze_document] returns. *)
Record analysis := {
  headers : gset string;
  footers : gset string;
  globally_frequent : gset string;
  header_counts : counter;
  footer_counts : counter;
  global_counts : counter;
}.

Definition analyze_document (self : t) (json_data : document) : result (t * analysis) :=
  let pages' := default [] (pages json_data) in
  let total_pages' := length pages' in
  if (total_pages' =? 0)%nat then
    Ok (self, {| headers := ∅; footers := ∅; globally_frequent := ∅;
                 header_counts := ∅; footer_counts := ∅; global_counts := ∅ |})
  else
    let cs := count_pages self pages' in
    header_min_count ← int_of_float (float_of_nat total_pages' * header_threshold self);
    footer_min_count ← int_of_float (float_of_nat total_pages' * footer_threshold self);
    global_min_count ← int_of_float (float_of_nat total_pages' * global_threshold self);
    let self :=
      {| header_threshold := header_threshold self;
         footer_threshold := footer_threshold self;
         global_threshold := global_threshold self;
         max_line_length := max_line_length self;
         detected_headers := frequent (first_lines_counter cs) header_min_count;
         detected_footers := frequent (last_lines_counter cs) footer_min_count;
         globally_frequent_lines :=
           frequent_unprotected (all_lines_counter cs) global_min_count |} in
    Ok (self, {| headers := detected_headers self;
                 footers := detected_footers self;
                 globally_frequent := globally_frequent_lines self;
                 header_counts := first_lines_counter cs;
                 footer_counts := last_lines_counter cs;
                 global_counts := all_lines_counter cs |}).

(** [_is_page_number]: [line.isdigit()], [^Page\s+\d+] under
    [re.IGNORECASE], and [^\d+\s*\|]. *)
Definition isdigit_char (c : ascii) : bool :=
  let n := nat_of_ascii c in
  (isdigit c || (n =? 178) || (n =? 179) || (n =? 185))%nat.

Definition str_isdigit (s : string) : bool :=
  str_truthy s && forallb isdigit_char (chars s).

Definition page_word_re : Re.re :=
  Re.Seq [Re.LitI (chars "Page"); Re.Plus Re.space; Re.Plus Re.digit].

Definition number_bar_re : Re.re :=
  Re.Seq [Re.Plus Re.digit; Re.Star Re.space; Re.Chr "|"%char].

Definition _is_page_number (line : string) : bool :=
  let line := strip line in
  if str_isdigit line then true
  else if Re.match_prefix page_word_re (chars line) then true
  else if Re.match_prefix number_bar_re (chars line) then true
  else false.

(** [!\[\]\([^)]+\)] *)
Definition image_re : Re.re :=
  Re.Seq [Re.Lit (chars "![]("); Re.Plus (Re.Cls (fun c => negb (Ascii.eqb c ")"%char)));
          Re.Chr ")"%char].

Definition _is_image_reference (line : string) : bool :=
  Re.match_prefix image_re (chars (strip line)).

Definition _remove_image_references (text' : string) : string :=
  str (Re.sub_all image_re 0 (chars text')).

(** [_normalize_whitespace] *)
Definition keep_blank_runs (acc : list string * nat) (line : string) : list string * nat :=
  let '(cleaned, blank_count) := acc in
  if negb (str_truthy line) then
    let blank_count := S blank_count in
    if (blank_count <=? 2)%nat then (cleaned ++ [line], blank_count)
    else (cleaned, blank_count)
  else (cleaned ++ [line], 0%nat).

Fixpoint drop_blank (l : list string) : list string :=
  match l with
  | [] => []
  | x :: l' => if str_truthy x then l else drop_blank l'
  end.

Definition _normalize_whitespace (text' : string) : string :=
  let lines := map strip (split_lines text') in
  let cleaned := (fold_left keep_blank_runs lines ([], 0%nat)).1 in
  let cleaned := drop_blank cleaned in
  let cleaned := rev (drop_blank (rev cleaned)) in
  join nl cleaned.

(** [\s*Page\s+\d+\s+(of|/)\s+\d+\s*$] under [re.IGNORECASE] *)
Definition page_of_re : Re.re :=
  Re.Seq [Re.Star Re.space; Re.LitI (chars "Page"); Re.Plus Re.space;
          Re.Plus Re.digit; Re.Plus Re.space;
          Re.Alt (Re.LitI (chars "of")) (Re.Chr "/"%char);
          Re.Plus Re.space; Re.Plus Re.digit; Re.Star Re.space].

(** What the loop of [clean_page_text] does with the line at index [i] of
    [n] lines: it keeps a line, or drops it at one of its five tests. *)
Inductive verdict :=
| Keep (line : string)
| Drop_header
| Drop_footer
| Drop_global
| Drop_page_number
| Drop_image_reference.

(** The line each test of the loop looks at: the trailing [Page N of M] is
    cut off first. *)
Definition without_page_suffix (line : string) : string :=
  strip (str (Re.sub_to_end page_of_re (chars line))).

Definition line_verdict (self : t) (n i : nat) (line : string) : verdict :=
  if negb (str_truthy line) then Keep line
  else
    let line := without_page_suffix line in
    if (i <? 3)%nat && bool_decide (line ∈ detected_headers self) then Drop_header
    else if (n - 3 <=? i)%nat && bool_decide (line ∈ detected_footers self) then Drop_footer
    else if bool_decide (line ∈ globally_frequent_lines self) then Drop_global
    else if ((i <? 3)%nat || (n - 3 <=? i)%nat) && _is_page_number line then Drop_page_number
    else if _is_image_reference line then Drop_image_reference
    else Keep line.

Definition kept (v : verdict) : option string :=
  match v with
  | Keep line => Some line
  | _ => None
  end.

Definition clean_page_text (self : t) (text' : option string) : string :=
  match text' with
  | None => ""
  | Some text' =>
      if negb (str_truthy text') || negb (str_truthy (strip text')) then ""
      else
        let lines := map strip (split_lines text') in
        let cleaned_lines :=
          omap kept (imap (fun i line => line_verdict self (length lines) i line) lines) in
        let cleaned_text := join nl cleaned_lines in
        let cleaned_text := _remove_image_references cleaned_text in
        _normalize_whitespace cleaned_text
  end.

(** [clean_document]: the analysis, then the pages cleaned with it. *)
Record cleaned_document := {
  c_pdf_name : option string;
  c_total_pages : option Z;
  c_pages : list page;
  cleaning_applied : bool;
  summary_detected_headers : gset string;
  summary_detected_footers : gset string;
  summary_globally_frequent : gset string;
}.

Definition clean_page (self : t) (p : page) : page :=
  let original_text := default "" (text p) in
  {| text := Some (clean_page_text self (Some original_text));
     text_original := Some original_text;
     page_number := page_number p |}.

Definition clean_document (self : t) (json_data : document)
    : result (t * cleaned_document) :=
  r ← analyze_document self json_data;
  let self := r.1 in
  let cleaned_pages := map (clean_page self) (default [] (pages json_data)) in
  Ok (self, {| c_pdf_name := pdf_name json_data;
               c_total_pages := total_pages json_data;
               c_pages := cleaned_pages;
               cleaning_applied := true;
               summary_detected_headers := detected_headers self;
               summary_detected_footers := detected_footers self;
               summary_globally_frequent := globally_frequent_lines self |}).

End TextCleaner.

(* ===================================================================== *)
(** * src/ingest/embed.py *)
(* ===================================================================== *)

Module Embedder.

(** The embedder holds the two collections it writes to; they live in the
    store, under these names. *)
Record t := {
  text_collection_name : string;
  image_collection_name : string;
}.

(** A collection as [get_or_create_collection] creates it: no document, and
    nothing to answer a query with. *)
Definition empty_collection (name : string) : Retriever.collection :=
  {| Retriever.col_name := name;
     Retriever.col_count := 0;
     Retriever.col_query := fun _ _ =>
       {| Retriever.documents := []; Retriever.metadatas := [];
          Retriever.distances := [] |} |}.

Definition get_or_create_collection (name : string) (db : Retriever.client)
    : Retriever.client :=
  match db !! name with
  | Some _ => db
  | None => <[name := empty_collection name]> db
  end.

(** [try: client.delete_collection(name) except: pass] *)
Definition try_delete (name : string) (db : Retriever.client) : Retriever.client :=
  match Router.delete_collection name db with
  | Ok db' => db'
  | Raise _ => db
  end.

(** The collection names of a mode; [now] is
    [datetime.now().strftime("%Y%m%d_%H%M%S")]. *)
Definition collection_names (now : string) (mode : json) (upload_id : option string)
    : result (string * string) :=
  if json_eq_str mode "regulatory" then
    Ok ("finreg_regulatory_text_store", "finreg_regulatory_image_store")
  else if json_eq_str mode "uploaded" then
    let upload_id := if negb (opt_str_truthy upload_id) then now
                     else default "" upload_id in
    Ok ("finreg_uploaded_text_" +:+ upload_id,
        "finreg_uploaded_image_" +:+ upload_id)
  else Raise (ValueError "Mode must be 'regulatory' or 'uploaded'").

(** [Embedder.__init__], on the store. *)
Definition init (now : string) (mode : json) (upload_id : option string)
    (reset_collections : bool) (db : Retriever.client)
    : result t * Retriever.client :=
  match collection_names now mode upload_id with
  | Raise e => (Raise e, db)
  | Ok (text_name, image_name) =>
      let db :=
        if reset_collections
        then try_delete image_name (try_delete text_name db)
        else db in
      let db := get_or_create_collection text_name db in
      let db := get_or_create_collection image_name db in
      (Ok {| text_collection_name := text_name;
             image_collection_name := image_name |}, db)
  end.

(** A chunk of a text chunk file and a chunk of an image chunk file: dicts
    whose keys may be missing. *)
Record text_chunk := {
  tc_id : option string;
  tc_text : option string;
  tc_metadata : option Retriever.metadata;
}.

Record image_chunk := {
  ic_chunk_id : option string;
  ic_text : option string;
  ic_source_pdf : option Retriever.meta_value;
  ic_page_number : option Retriever.meta_value;
  ic_image_path : option Retriever.meta_value;
  ic_type : option Retriever.meta_value;
  ic_file_size_kb : option Retriever.meta_value;
}.

(** The parsed content of a chunk file: [data.get("chunks")] of a text
    file; [data.get("image_chunks")] and [data.get("chunks")] of an image
    file. *)
Record text_file := {
  tf_chunks : option (list text_chunk);
}.

Record image_file := {
  if_image_chunks : option (list image_chunk);
  if_chunks : option (list image_chunk);
}.

(** What one call of [collection.upsert] is given. *)
Record batch := {
  ids : list string;
  documents : list string;
  embeddings : list Retriever.embedding;
  metadatas : list Retriever.metadata;
}.

(** The sentence embedder and the store's [upsert], which may raise. *)
Record env := {
  encode : list string -> list Retriever.embedding;
  upsert : Retriever.collection -> batch -> result Retriever.collection;
}.

(** The three lists the loop over the chunks of a text file builds. *)
Definition add_text_chunk (acc : list string * list string * list Retriever.metadata)
    (chunk : text_chunk)
    : result (list string * list string * list Retriever.metadata) :=
  let '(ids', texts, metadatas') := acc in
  id ← State.getitem "id" (tc_id chunk);
  text ← State.getitem "text" (tc_text chunk);
  metadata ← State.getitem "metadata" (tc_metadata chunk);
  Ok (ids' ++ [id], texts ++ [text], metadatas' ++ [metadata]).

Fixpoint collect_chunks {A B} (step : B -> A -> result B) (chunks : list A) (acc : B)
    : result B :=
  match chunks with
  | [] => Ok acc
  | chunk :: rest => acc' ← step acc chunk; collect_chunks step rest acc'
  end.

(** The metadata [embed_image_chunks] stores for an image chunk. *)
Definition image_metadata (chunk : image_chunk) : Retriever.metadata :=
  <["pdf_name" := default Retriever.MNone (ic_source_pdf chunk)]>
    (<["page_number" := default Retriever.MNone (ic_page_number chunk)]>
       (<["image_path" := default Retriever.MNone (ic_image_path chunk)]>
          (<["type" := default (Retriever.MStr "image") (ic_type chunk)]>
             (<["file_size_kb" := default Retriever.MNone (ic_file_size_kb chunk)]>
                ∅)))).

Definition add_image_chunk (acc : list string * list string * list Retriever.metadata)
    (chunk : image_chunk)
    : result (list string * list string * list Retriever.metadata) :=
  let '(ids', texts, metadatas') := acc in
  id ← State.getitem "chunk_id" (ic_chunk_id chunk);
  text ← State.getitem "text" (ic_text chunk);
  Ok (ids' ++ [id], texts ++ [text], metadatas' ++ [image_metadata chunk]).

(** The end of one turn of the loop over the files: nothing for a file
    without texts, one [upsert] into the collection otherwise. *)
Definition upsert_lists (E : env) (name : string)
    (lists : list string * list string * list Retriever.metadata)
    (db : Retriever.client) : result unit * Retriever.client :=
  let '(ids', texts, metadatas') := lists in
  if negb (list_truthy texts) then (Ok tt, db)
  else
    let embeddings' := encode E texts in
    match db !! name with
    | None => (Raise (ValueError ("Collection " +:+ name +:+ " does not exist.")), db)
    | Some col =>
        match upsert E col {| ids := ids'; documents := texts;
                              embeddings := embeddings';
                              metadatas := metadatas' |} with
        | Ok col' => (Ok tt, <[name := col']> db)
        | Raise e => (Raise e, db)
        end
    end.

Definition embed_text_file (E : env) (self : t) (file : text_file)
    (db : Retriever.client) : result unit * Retriever.client :=
  let chunks := default [] (tf_chunks file) in
  match collect_chunks add_text_chunk chunks ([], [], []) with
  | Raise e => (Raise e, db)
  | Ok lists => upsert_lists E (text_collection_name self) lists db
  end.

Definition embed_image_file (E : env) (self : t) (file : image_file)
    (db : Retriever.client) : result unit * Retriever.client :=
  let chunks :=
    match if_image_chunks file with
    | Some chunks => chunks
    | None => default [] (if_chunks file)
    end in
  match collect_chunks add_image_chunk chunks ([], [], []) with
  | Raise e => (Raise e, db)
  | Ok lists => upsert_lists E (image_collection_name self) lists db
  end.

(** A loop over files that stops at the first exception; the store keeps
    what was written before it. *)
Fixpoint for_each {F} (body : F -> Retriever.client -> result unit * Retriever.client)
    (files : list F) (db : Retriever.client) : result unit * Retriever.client :=
  match files with
  | [] => (Ok tt, db)
  | file :: rest =>
      match body file db with
      | (Ok _, db') => for_each body rest db'
      | (Raise e, db') => (Raise e, db')
      end
  end.

(** [_load_json_files] returns no file for a directory that does not
    exist: a directory is [None] or the parsed files in it. *)
Definition embed_text_chunks (E : env) (self : t) (dir : option (list text_file))
    (db : Retriever.client) : result unit * Retriever.client :=
  for_each (embed_text_file E self) (default [] dir) db.

Definition embed_image_chunks (E : env) (self : t) (dir : option (list image_file))
    (db : Retriever.client) : result unit * Retriever.client :=
  for_each (embed_image_file E self) (default [] dir) db.

Definition run (E : env) (self : t) (text_dir : option (list text_file))
    (image_dir : option (list image_file)) (db : Retriever.client)
    : result unit * Retriever.client :=
  match embed_text_chunks E self text_dir db with
  | (Ok _, db') => embed_image_chunks E self image_dir db'
  | (Raise e, db') => (Raise e, db')
  end.

End Embedder.

(* ===================================================================== *)
(** * Vocabulary of the statements *)
(* ===================================================================== *)

(** The test of [_search] on one entry of the store's answer, and the hit
    made of an entry. *)
Definition within_threshold (x : string * Retriever.metadata * float) : Prop :=
  PrimFloat.leb x.2 Retriever.SIMILARITY_THRESHOLD = true.

Definition hit_of (x : string * Retriever.metadata * float) : Retriever.hit :=
  {| Retriever.text := x.1.1; Retriever.hit_metadata := x.1.2;
     Retriever.distance := x.2 |}.

(** The store's answer to [_search], entry by entry. *)
Definition store_answer (col : Retriever.collection) (qe : Retriever.embedding)
    (k : nat) : list (string * Retriever.metadata * float) :=
  let results := Retriever.col_query col qe k in
  Retriever.zip3 (Retriever.documents results) (Retriever.metadatas results)
    (Retriever.distances results).

(** The number of results [search] asks each collection for. *)
Definition k_of (self : Retriever.t) : nat :=
  if json_eq_str (Retriever.mode self) "compare" then 5%nat else 3%nat.

(** The mode the Retrieve stage reads from the state the Intent stage
    hands over. *)
Definition retrieve_stage_mode (C : collaborators) (state : State.t) : json :=
  default (JStr "regulatory_only") (State.mode (IntentAgent.run C state)).

(** What the Web stage stores for a query: the collected results of the
    search, none when the search raised. *)
Definition web_outcome (C : collaborators) (q : string) : list State.web_result :=
  match ddgs_text C q 3 with
  | Ok rs => WebAgent.collect rs
  | Raise _ => []
  end.

(** ** Collaborators for the examples *)

(** A classification reply that names the mode [web]. *)
Definition web_reply : string :=
  "{" +:+ dq +:+ "mode" +:+ dq +:+ ": " +:+ dq +:+ "web" +:+ dq +:+ "}".

(** [json.loads] on the replies of the examples: [web_reply] is the object
    with the one key ["mode"]; ["LLM_ERROR"] and the empty string are not
    JSON. *)
Definition example_json_loads (s : string) : result json :=
  if String.eqb s web_reply then Ok (JObj [("mode", JStr "web")])
  else Raise (ValueError "Expecting value: line 1 column 1 (char 0)").

(** A store with one populated regulatory text collection, whose answer to
    every query is one chunk at distance 0.25. *)
Definition example_regulatory_collection : Retriever.collection :=
  {| Retriever.col_name := "finreg_regulatory_text_store";
     Retriever.col_count := 1;
     Retriever.col_query := fun _ _ =>
       {| Retriever.documents := ["An EMI shall maintain a minimum capital."];
          Retriever.metadatas := [{["pdf_name" := Retriever.MStr "emi_rules"]}];
          Retriever.distances := [0.25%float] |} |}.

Definition example_store : Retriever.client :=
  {["finreg_regulatory_text_store" := example_regulatory_collection]}.

(** The classifier answers [web]; the web search finds one page. *)
Definition example_collaborators : collaborators :=
  {| llm_chat := fun _ => web_reply;
     json_loads := example_json_loads;
     intent_system_prompt := "Classify the query.";
     intent_user_prompt := fun q _ => default "" q;
     final_answer_prompt := "Answer from the context.";
     chroma := example_store;
     encode := fun _ => [];
     ddgs_text := fun _ _ =>
       Ok [{| href := Some "https://www.sbp.org.pk/emi";
              ddgs_title := Some "EMI regulations";
              body := Some "Regulations for electronic money institutions." |}] |}.

(** The same with a web search that fails. *)
Definition example_collaborators_web_down : collaborators :=
  {| llm_chat := llm_chat example_collaborators;
     json_loads := json_loads example_collaborators;
     intent_system_prompt := intent_system_prompt example_collaborators;
     intent_user_prompt := intent_user_prompt example_collaborators;
     final_answer_prompt := final_answer_prompt example_collaborators;
     chroma := chroma example_collaborators;
     encode := encode example_collaborators;
     ddgs_text := fun _ _ => Raise (OtherError "RatelimitException: 202 Ratelimit") |}.

(** A hit of an image collection, with the metadata [Embedder] stores for
    an image chunk. *)
Definition example_image_hit : Retriever.hit :=
  {| Retriever.text := "Bar chart of capital adequacy ratios by year.";
     Retriever.hit_metadata :=
       {["pdf_name" := Retriever.MStr "report";
         "page_number" := Retriever.MInt 3;
         "image_path" := Retriever.MStr "temp/20250101_120000/extracted/charts/report_page3_chart1.png";
         "type" := Retriever.MStr "chart"]};
     Retriever.distance := 0.4%float |}.

(** The state after a retrieval that found this one uploaded image hit. *)
Definition example_image_state : State.t :=
  State.set_need_web false
    (State.set_retrieval
       {| Retriever.uploaded_text := []; Retriever.regulatory_text := [];
          Retriever.uploaded_images := [example_image_hit];
          Retriever.regulatory_images := [] |}
       (State.set_mode (JStr "uploaded_only")
          (State.initial "What does the chart show?" (Some "20250101_120000")))).

(** An answer model that returns the context it was given: the content of
    the last message. *)
Definition echo_collaborators : collaborators :=
  {| llm_chat := fun messages => default "" (snd <$> last messages);
     json_loads := example_json_loads;
     intent_system_prompt := "Classify the query.";
     intent_user_prompt := fun q _ => default "" q;
     final_answer_prompt := "Answer from the context.";
     chroma := ∅;
     encode := fun _ => [];
     ddgs_text := fun _ _ => Ok [] |}.

(** The session a call of [handle_input] works on: the given upload id, or
    a fresh time stamp when files come without one. *)
Definition files_given (files : option (list (string * string))) : bool :=
  match files with
  | Some l => list_truthy l
  | None => false
  end.

Definition session_of (self : Router.t) (files : option (list (string * string)))
    (upload_id : option string) : string :=
  if files_given files && negb (opt_str_truthy upload_id)
  then Router.timestamp self else default "" upload_id.

(** Nothing of a session is left in the world. *)
Definition session_gone (upload_id : string) (w : Router.world) : Prop :=
  Router.folders w !! Router.uploads_dir upload_id = None
  ∧ Router.folders w !! Router.temp_dir upload_id = None
  ∧ Router.chroma_db w !! Router.text_collection_name upload_id = None
  ∧ Router.chroma_db w !! Router.image_collection_name upload_id = None.

(** A computation of the router that leaves the ghost log as it is. *)
Definition keeps_log {A} (m : Router.M A) : Prop :=
  ∀ s, (m s).2.2 = s.2.

(** A router for the examples: ingestion embeds the session's files into
    its text collection and then fails on the images; the graph raises. *)
Definition example_router : Router.t :=
  {| Router.graph_invoke := fun _ _ => Raise (OtherError "embedding service down");
     Router.ingest_files := fun upload_id _ _ w =>
       (Raise (OtherError "vision service down"),
        {| Router.folders := Router.folders w;
           Router.chroma_db :=
             <[Router.text_collection_name upload_id := example_regulatory_collection]>
               (Router.chroma_db w) |});
     Router.timestamp := "20250101_120000" |}.

Definition empty_world : Router.world :=
  {| Router.folders := ∅; Router.chroma_db := ∅ |}.

(** ** The chunker *)

(** A page has content when its text is not blank: the test of
    [chunk_document] on each page. *)
Definition page_blank (p : DocumentChunker.page) : Prop :=
  str_truthy (strip (default "" (DocumentChunker.page_text p))) = false.

(** The path [chunk_document] writes to. *)
Definition chunks_path (self : DocumentChunker.t) (doc : DocumentChunker.cleaned_json)
    (output_path : option string) : string :=
  match output_path with
  | None => DocumentChunker.output_dir self +:+ "/"
            +:+ default "unknown" (DocumentChunker.pdf_name doc) +:+ "_chunks.json"
  | Some path => path
  end.

(** The [chunk_index] values of a list of chunks, in order. *)
Definition chunk_indices (cs : list DocumentChunker.chunk) : list nat :=
  map (fun c => DocumentChunker.chunk_index (DocumentChunker.metadata c)) cs.

(** A two-page document, and a splitter that hands back four pieces: a
    real one, one under 15 characters, one that does not occur in the text,
    and a second real one. *)
Definition example_cleaned_json : DocumentChunker.cleaned_json :=
  {| DocumentChunker.pdf_name := Some "emi_rules";
     DocumentChunker.total_pages := Some 2%Z;
     DocumentChunker.pages :=
       Some [{| DocumentChunker.page_number := Some (JNum 1%float);
                DocumentChunker.page_text :=
                  Some "An EMI shall maintain a minimum capital." |};
             {| DocumentChunker.page_number := Some (JNum 2%float);
                DocumentChunker.page_text :=
                  Some "The licence fee is payable every year." |}] |}.

Definition example_chunker : DocumentChunker.t :=
  {| DocumentChunker.chunk_size := 800;
     DocumentChunker.chunk_overlap := 200;
     DocumentChunker.output_dir := "chunked/text_chunk";
     DocumentChunker.split_text := fun _ =>
       ["An EMI shall maintain a minimum capital.";
        "too short";
        "A piece whose spaces  were  changed upstream.";
        "The licence fee is payable every year."];
     DocumentChunker.now_isoformat := "2025-01-01T12:00:00" |}.

(** A document whose pages are all blank. *)
Definition example_blank_json : DocumentChunker.cleaned_json :=
  {| DocumentChunker.pdf_name := Some "cover";
     DocumentChunker.total_pages := Some 2%Z;
     DocumentChunker.pages :=
       Some [{| DocumentChunker.page_number := Some (JNum 1%float);
                DocumentChunker.page_text := Some "" |};
             {| DocumentChunker.page_number := Some (JNum 2%float);
                DocumentChunker.page_text := Some "   " |}] |}.

(** What the loop of [chunk_document] keeps true: the counter is the number
    of chunks emitted, and their indices count up from zero. *)
Definition loop_invariant (st : DocumentChunker.loop_state) : Prop :=
  DocumentChunker.chunk_counter st = length (DocumentChunker.all_chunks st)
  ∧ chunk_indices (DocumentChunker.all_chunks st)
    = seq 0 (length (DocumentChunker.all_chunks st)).

(** ** Words and characters *)


(** [sub] occurs in [l]; [l] ends with [p]. *)
Definition occurs (sub l : list ascii) : Prop :=
  ∃ pre post, l = pre ++ sub ++ post.




(** ** The text cleaner *)

(** The pages of a document and the text of a page, with the defaults of
    [dict.get]. *)
Definition doc_pages (doc : TextCleaner.document) : list TextCleaner.page :=
  default [] (TextCleaner.pages doc).

Definition text_of (p : TextCleaner.page) : string :=
  default "" (TextCleaner.text p).

(** The header candidates of a document: the first three non-blank lines of
    each page, stripped; its footer candidates: the last three; its global
    candidates: every non-blank line of at most [max_line_length]
    characters. *)
Definition header_candidates (doc : TextCleaner.document) : list string :=
  concat (map (fun p => TextCleaner.first3 (TextCleaner.stripped_lines (text_of p)))
            (doc_pages doc)).

Definition footer_candidates (doc : TextCleaner.document) : list string :=
  concat (map (fun p => TextCleaner.last3 (TextCleaner.stripped_lines (text_of p)))
            (doc_pages doc)).

Definition global_candidates (self : TextCleaner.t) (doc : TextCleaner.document)
    : list string :=
  concat (map (fun p =>
                 filter (fun line =>
                           (len line <=? TextCleaner.max_line_length self)%nat = true)
                   (TextCleaner.stripped_lines (text_of p)))
            (doc_pages doc)).

(** How often a line occurs in a list of candidates. *)
Definition occurrences (x : string) (l : list string) : nat :=
  length (filter (fun y => y = x) l).

(** [int(total_pages * threshold)], when the product is finite. *)
Definition min_count (total : nat) (threshold : float) : Z :=
  match int_of_float (float_of_nat total * threshold) with
  | Ok z => z
  | Raise _ => 0%Z
  end.

(** The number of pages that have a line among their header candidates. *)
Definition pages_with_header_candidate (line : string) (doc : TextCleaner.document)
    : nat :=
  length (filter (fun p => line ∈ TextCleaner.first3
                                    (TextCleaner.stripped_lines (text_of p)))
            (doc_pages doc)).








(** A document of four pages; the line [CONFIDENTIAL] opens the first page
    and occurs nowhere else. *)
Definition example_page (t : string) : TextCleaner.page :=
  {| TextCleaner.text := Some t; TextCleaner.text_original := None;
     TextCleaner.page_number := None |}.

Definition example_four_pages : TextCleaner.document :=
  {| TextCleaner.pdf_name := Some "emi_rules";
     TextCleaner.total_pages := Some 4%Z;
     TextCleaner.pages :=
       Some [example_page ("CONFIDENTIAL" +:+ nl +:+ "Scope of the rules" +:+ nl
                           +:+ "These rules apply to every institution");
             example_page ("Capital" +:+ nl +:+ "An institution holds capital"
                           +:+ nl +:+ "Total 200 million");
             example_page ("Licence" +:+ nl +:+ "The licence is renewed"
                           +:+ nl +:+ "Total 200 million");
             example_page ("Reporting" +:+ nl +:+ "Returns are filed"
                           +:+ nl +:+ "Total 200 million")] |}.

(** A cleaner that has detected one header, one footer and one globally
    frequent line, and a page to clean with it. *)
Definition example_cleaner : TextCleaner.t :=
  {| TextCleaner.header_threshold := 0.3;
     TextCleaner.footer_threshold := 0.3;
     TextCleaner.global_threshold := 0.35;
     TextCleaner.max_line_length := 80;
     TextCleaner.detected_headers := {["SBP Rules"]};
     TextCleaner.detected_footers := {["Draft"]};
     TextCleaner.globally_frequent_lines := {["Body"]} |}.

Definition example_raw_page : string :=
  join nl ["  SBP Rules  "; "12"; ""; ""; ""; ""; "Body line one  Page 2 of 9";
           "SBP Rules"; "see ![](a.png) here"; "![](b.png)"; "Draft"; "";
           "7 | Report"; ""].

(* ===================================================================== *)
(** * Further vocabulary and example data *)
(* ===================================================================== *)

(** ** The retriever *)

(** A store that also holds the text collection of the session [s1]. *)
Definition example_uploaded_collection : Retriever.collection :=
  {| Retriever.col_name := "finreg_uploaded_text_s1";
     Retriever.col_count := 1;
     Retriever.col_query := fun _ _ =>
       {| Retriever.documents :=
            ["The applicant holds a paid-up capital of 200 million."];
          Retriever.metadatas := [{["pdf_name" := Retriever.MStr "application"]}];
          Retriever.distances := [0.5%float] |} |}.

Definition example_two_stores : Retriever.client :=
  <["finreg_uploaded_text_s1" := example_uploaded_collection]> example_store.

(** The retriever [__init__] builds on it for the mode [uploaded_only]. *)
Definition example_uploaded_retriever : Retriever.t :=
  {| Retriever.mode := JStr "uploaded_only";
     Retriever.upload_id := Some "s1";
     Retriever.the_client := example_two_stores;
     Retriever.embedder := fun _ => [];
     Retriever.text_collections := [("uploaded", example_uploaded_collection)];
     Retriever.image_collections := [] |}.

(** ** The query graph *)

(** The two paths of the graph: with and without the Web stage. *)
Definition graph_path (web : bool) : list QueryGraph.node :=
  if web then [QueryGraph.Intent; QueryGraph.Retrieve; QueryGraph.Web; QueryGraph.Final]
  else [QueryGraph.Intent; QueryGraph.Retrieve; QueryGraph.Final].

(** A search that found nothing in any bucket. *)
Definition no_hits (out : Retriever.output) : bool :=
  (Retriever.total_hits out =? 0)%nat.

(** The progress lines of the Retrieve stage and of the Web stage. *)
Definition retrieval_message (out : Retriever.output) : string :=
  if no_hits out then "⚠️  Nothing in KB — trying web search..."
  else "✅ Found "
       +:+ pretty (length (Retriever.regulatory_text out)
                   + length (Retriever.regulatory_images out))%nat
       +:+ " regulatory chunk(s), "
       +:+ pretty (length (Retriever.uploaded_text out)
                   + length (Retriever.uploaded_images out))%nat
       +:+ " uploaded chunk(s).".

Definition web_message (C : collaborators) (q : string) : string :=
  match ddgs_text C q 3 with
  | Ok rs =>
      if list_truthy (WebAgent.collect rs)
      then "🌐 Web returned " +:+ pretty (length (WebAgent.collect rs)) +:+ " result(s)."
      else "🌐 Web search returned no results."
  | Raise e => "🌐 Web search failed: " +:+ exn_str e
  end.

(** The progress trail of a run of the graph. *)
Definition progress_trail (C : collaborators) (q : string) (out : Retriever.output)
    : list string :=
  ["🧭 Determining query intent..."; "🔎 Searching knowledge base...";
   retrieval_message out]
  ++ (if no_hits out then ["🌐 Searching web as fallback..."; web_message C q] else [])
  ++ ["🤖 Generating answer..."; "✅ Answer ready."].

(** The message [FinalAgent] sends to the answer model, around the body of
    the context. *)
Definition context_with (q : string) (mode : json) (verbose : bool) (body : string)
    : string :=
  "User Question: " +:+ q +:+ nl +:+ nl
  +:+ "Execution Mode: " +:+ FinalAgent.mode_str mode +:+ nl
  +:+ "Verbose: " +:+ FinalAgent.bool_str verbose +:+ nl +:+ nl
  +:+ body.

(** None of the five sources of the final stage holds anything. *)
Definition no_sources (state : State.t) : Prop :=
  default [] (State.regulatory_text state) = []
  ∧ default [] (State.uploaded_text state) = []
  ∧ default [] (State.regulatory_images state) = []
  ∧ default [] (State.uploaded_images state) = []
  ∧ default [] (State.web_results state) = [].

(** ** The router *)

(** A router whose graph is the query graph of the application, over the
    collaborators of the examples. *)
Definition example_app_router : Router.t :=
  {| Router.graph_invoke := Router.graph_of example_collaborators;
     Router.ingest_files := Router.ingest_files example_router;
     Router.timestamp := "20250101_120000" |}.

(** A world that holds the regulatory store and the text collection of the
    session [s1]. *)
Definition example_world : Router.world :=
  {| Router.folders := {["uploads/s1" := ["policy.pdf"]]};
     Router.chroma_db := example_two_stores |}.


(** ** The chunker *)

(** The test the loop of [chunk_document] makes on a piece of the splitter:
    at least 15 characters once stripped, and found in the full text. *)
Definition keeps_piece (full_text piece : string) : bool :=
  (15 <=? len (strip piece))%nat && contains full_text piece.

(** [sub] stands at position [i] of [s]. *)
Definition occurs_at (sub s : string) (i : nat) : Prop :=
  take (len sub) (drop i (chars s)) = chars sub.

(** The label of a page, and the page of the character at position [i] of
    the full text: every page with content takes up its text and the two
    line feeds after it. *)
Definition page_label (p : DocumentChunker.page) : json :=
  default (JStr "?") (DocumentChunker.page_number p).

Fixpoint page_at (ps : list DocumentChunker.page) (i : nat) : option json :=
  match ps with
  | [] => None
  | p :: ps' =>
      let t := default "" (DocumentChunker.page_text p) in
      if negb (str_truthy (strip t)) then page_at ps' i
      else if (i <? len t + 2)%nat then Some (page_label p)
      else page_at ps' (i - (len t + 2))
  end.

(** What the loop records for a piece it keeps. *)
Definition chunk_of_piece (pdf_name full_text : string) (page_map : list json)
    (c : DocumentChunker.chunk) : Prop :=
  DocumentChunker.id c
  = pdf_name +:+ "_" +:+ pretty (DocumentChunker.chunk_index (DocumentChunker.metadata c))
  ∧ DocumentChunker.char_count c = len (DocumentChunker.text c)
  ∧ DocumentChunker.word_count c = Py.word_count (DocumentChunker.text c)
  ∧ DocumentChunker.m_pdf_name (DocumentChunker.metadata c) = pdf_name
  ∧ DocumentChunker.m_type (DocumentChunker.metadata c) = "text"
  ∧ ∃ i, occurs_at (DocumentChunker.text c) full_text i
         ∧ page_map !! i = Some (DocumentChunker.start_page (DocumentChunker.metadata c))
         ∧ page_map !! (i + len (DocumentChunker.text c) - 1)%nat
           = Some (DocumentChunker.end_page (DocumentChunker.metadata c)).

(** ** The text cleaner *)

(** A line with a digit in it. *)
Definition has_digit (line : string) : Prop :=
  ∃ c, c ∈ chars line ∧ isdigit c = true.

(** A blank line is the empty string once stripped. *)
Definition blank (line : string) : Prop := str_truthy line = false.

(** No run of blank lines in [l] is longer than two, given that [k] blank
    lines come right before [l]. *)
Fixpoint blank_runs_within (k : nat) (l : list string) : bool :=
  match l with
  | [] => true
  | x :: l' =>
      if str_truthy x then blank_runs_within 0 l'
      else (S k <=? 2)%nat && blank_runs_within (S k) l'
  end.

(** Three blank lines in a row. *)
Definition three_blank_lines (ls : list string) : Prop :=
  ∃ i, ls !! i = Some "" ∧ ls !! S i = Some "" ∧ ls !! S (S i) = Some "".

(** The three shapes of a page-number line: only digits; the word [Page],
    in any letter case, white space and a digit; digits, optional white
    space and a bar.  What follows is not looked at. *)
Definition page_number_shape (l : list ascii) : Prop :=
  (l ≠ [] ∧ Forall (fun c => TextCleaner.isdigit_char c = true) l)
  ∨ (∃ w ws d rest,
       l = w ++ ws ++ d :: rest
       ∧ map lower_char w = chars "page"
       ∧ ws ≠ [] ∧ Forall (fun c => isspace c = true) ws
       ∧ isdigit d = true)
  ∨ (∃ ds ws rest,
       l = ds ++ ws ++ "|"%char :: rest
       ∧ ds ≠ [] ∧ Forall (fun c => isdigit c = true) ds
       ∧ Forall (fun c => isspace c = true) ws).

(** ** The embedder *)

(** From [db] to [db'] only the collections under [names] may have
    changed, and no collection was added or removed. *)
Definition touches_only (names : list string) (db db' : Retriever.client) : Prop :=
  (∀ other, other ∉ names → db' !! other = db !! other)
  ∧ dom db' = dom db.

(** A text chunk that lacks one of the keys [embed_text_chunks] reads. *)
Definition text_chunk_incomplete (chunk : Embedder.text_chunk) : Prop :=
  Embedder.tc_id chunk = None
  ∨ Embedder.tc_text chunk = None
  ∨ Embedder.tc_metadata chunk = None.

(** A store's [upsert] that records the number of documents it was given,
    and an embedder of sentences, for the examples. *)
Definition example_env : Embedder.env :=
  {| Embedder.encode := map (fun _ => [0%float]);
     Embedder.upsert := fun col b =>
       Ok {| Retriever.col_name := Retriever.col_name col;
             Retriever.col_count := Retriever.col_count col
                                    + length (Embedder.ids b);
             Retriever.col_query := Retriever.col_query col |} |}.

(** A chunk file of one chunk. *)
Definition example_text_file : Embedder.text_file :=
  {| Embedder.tf_chunks :=
       Some [{| Embedder.tc_id := Some "application_0";
                Embedder.tc_text :=
                  Some "The applicant holds a paid-up capital of 200 million.";
                Embedder.tc_metadata :=
                  Some {["pdf_name" := Retriever.MStr "application"]} |}] |}.

(* ===================================================================== *)
(** * The primitives on examples *)
(* ===================================================================== *)

(** The values are those of CPython on the same inputs. *)

Example int_of_float_truncates :
  int_of_float (float_of_nat 180 * 0.35) = Ok 62%Z
  ∧ int_of_float (float_of_nat 10 * 0.3) = Ok 3%Z
  ∧ int_of_float (-2.7) = Ok (-2)%Z.
Proof. repeat split; reflexivity. Qed.

Example strip_both_ends : strip "  a b  " = "a b".
Proof. reflexivity. Qed.

Example find_from_start :
  find "hello world" "o" 5 = 7%Z
  ∧ find "hello world" "z" 0 = (-1)%Z
  ∧ find "" "" 0 = 0%Z
  ∧ find "ab" "" 3 = (-1)%Z.
Proof. repeat split; reflexivity. Qed.

Example split_lines_keeps_empty_lines :
  split_lines (join nl ["a"; "b"; ""; "c"]) = ["a"; "b"; ""; "c"].
Proof. reflexivity. Qed.

Example word_count_runs : word_count " ab  c d " = 3%nat.
Proof. reflexivity. Qed.

Example lower_contains_endswith :
  lower "ToTaL" = "total"
  ∧ contains "subtotal" "total" = true
  ∧ endswith "abc..." "..." = true.
Proof. repeat split; reflexivity. Qed.

Example py_index_negative : py_index [1; 2; 3]%nat (-1) = Ok 3%nat.
Proof. reflexivity. Qed.

Example should_keep_line_cases :
  TextCleaner._should_keep_line "Table 3" = true
  ∧ TextCleaner._should_keep_line "Mayor of London" = false
  ∧ TextCleaner._should_keep_line "in may we" = true
  ∧ TextCleaner._should_keep_line "See above. More to come..." = false
  ∧ TextCleaner._should_keep_line "Subtotals" = true.
Proof. vm_compute. done. Qed.

Example page_suffix_is_cut :
  TextCleaner.without_page_suffix "Annual Report Page 3 of 10" = "Annual Report"
  ∧ TextCleaner.without_page_suffix "page 1 / 2 Page 3 of 10" = "page 1 / 2".
Proof. vm_compute. done. Qed.

Example image_references_are_removed :
  TextCleaner._remove_image_references "a ![](x.png) b ![]() c ![](y"
  = "a  b ![]() c ![](y".
Proof. vm_compute. reflexivity. Qed.

Example page_number_lines :
  TextCleaner._is_page_number "12 | Report" = true
  ∧ TextCleaner._is_page_number "PAGE  7" = true
  ∧ TextCleaner._is_page_number "Page seven" = false.
Proof. vm_compute. done. Qed.

Example clean_page_text_run :
  TextCleaner.clean_page_text example_cleaner (Some example_raw_page)
  = join nl ["Body line one"; "SBP Rules"; "see  here"; "Draft"].
Proof. vm_compute. reflexivity. Qed.

Example clean_response_strips_fences_and_thoughts :
  IntentAgent.clean_response
    ("```json {" +:+ dq +:+ "mode" +:+ dq +:+ ": 1}``` <think>a" +:+ nl
     +:+ "b</think> x <think>")
  = "{" +:+ dq +:+ "mode" +:+ dq +:+ ": 1}  x <think>".
Proof. vm_compute. reflexivity. Qed.

(* ===================================================================== *)
(** * Retrieval: the distance threshold *)
(* ===================================================================== *)

Section RetrieverFacts.

Import Retriever.

Lemma search_loop_filter (answer : list (string * metadata * float)) (acc : list hit) :
  fold_left search_step answer acc
  = acc ++ map hit_of (filter within_threshold answer).
Proof.
  revert acc. induction answer as [|[[d m] dist] answer IH]; intros acc; simpl.
  - by rewrite app_nil_r.
  - rewrite IH, filter_cons.
    destruct (decide (within_threshold (d, m, dist))) as [Hw|Hw];
      unfold within_threshold in Hw; simpl in Hw.
    + rewrite Hw. simpl. by rewrite <- app_assoc.
    + apply not_true_is_false in Hw. by rewrite Hw.
Qed.

Lemma search_is_filter (col : collection) (qe : embedding) (k : nat) :
  _search col qe k = map hit_of (filter within_threshold (store_answer col qe k)).
Proof. unfold _search, store_answer. by rewrite search_loop_filter. Qed.

Lemma search_hit_within (col : collection) (qe : embedding) (k : nat) (h : hit) :
  h ∈ _search col qe k →
  PrimFloat.leb (distance h) SIMILARITY_THRESHOLD = true.
Proof.
  rewrite search_is_filter. intros Hin.
  apply list_elem_of_fmap in Hin as (x & -> & Hx).
  apply list_elem_of_filter in Hx as [Hx _]. exact Hx.
Qed.

Lemma extend_text_fold (qe : embedding) (k : nat) (cols : list (string * collection))
    (o : output) :
  let o' := fold_left (extend_text qe k) cols o in
  uploaded_text o' = uploaded_text o
      ++ concat (map (fun lc => _search lc.2 qe k)
           (filter (fun lc => String.eqb lc.1 "uploaded" = true) cols))
  ∧ regulatory_text o' = regulatory_text o
      ++ concat (map (fun lc => _search lc.2 qe k)
           (filter (fun lc => String.eqb lc.1 "uploaded" = false) cols))
  ∧ uploaded_images o' = uploaded_images o
  ∧ regulatory_images o' = regulatory_images o.
Proof.
  revert o. induction cols as [|[label col] cols IH]; intros o; simpl.
  - by rewrite !app_nil_r.
  - destruct (IH (extend_text qe k o (label, col))) as (H1 & H2 & H3 & H4).
    rewrite H1, H2, H3, H4, !filter_cons. unfold extend_text; simpl.
    destruct (String.eqb label "uploaded") eqn:E; simpl;
      repeat case_decide; try done; simpl; by rewrite <- ?app_assoc.
Qed.

Lemma extend_images_fold (qe : embedding) (k : nat) (cols : list (string * collection))
    (o : output) :
  let o' := fold_left (extend_images qe k) cols o in
  uploaded_images o' = uploaded_images o
      ++ concat (map (fun lc => _search lc.2 qe k)
           (filter (fun lc => String.eqb lc.1 "uploaded" = true) cols))
  ∧ regulatory_images o' = regulatory_images o
      ++ concat (map (fun lc => _search lc.2 qe k)
           (filter (fun lc => String.eqb lc.1 "uploaded" = false) cols))
  ∧ uploaded_text o' = uploaded_text o
  ∧ regulatory_text o' = regulatory_text o.
Proof.
  revert o. induction cols as [|[label col] cols IH]; intros o; simpl.
  - by rewrite !app_nil_r.
  - destruct (IH (extend_images qe k o (label, col))) as (H1 & H2 & H3 & H4).
    rewrite H1, H2, H3, H4, !filter_cons. unfold extend_images; simpl.
    destruct (String.eqb label "uploaded") eqn:E; simpl;
      repeat case_decide; try done; simpl; by rewrite <- ?app_assoc.
Qed.

(** Every hit of every bucket comes out of [_search] on one of the loaded
    collections. *)
Lemma search_bucket_origin (self : t) (query : string) (h : hit) :
  let o := search self query in
  h ∈ uploaded_text o ++ regulatory_text o ++ uploaded_images o ++ regulatory_images o →
  ∃ lc, lc ∈ text_collections self ++ image_collections self
        ∧ h ∈ _search lc.2 (embedder self query) (k_of self).
Proof.
  simpl. unfold search. fold (k_of self).
  set (qe := embedder self query). set (k := k_of self).
  destruct (extend_text_fold qe k (text_collections self) empty_output)
    as (T1 & T2 & T3 & T4).
  destruct (extend_images_fold qe k (image_collections self)
              (fold_left (extend_text qe k) (text_collections self) empty_output))
    as (I1 & I2 & I3 & I4).
  rewrite I1, I2, I3, I4, T1, T2, T3, T4. simpl.
  rewrite !elem_of_app.
  assert (Hc : ∀ (P : string * collection → Prop) `{!∀ x, Decision (P x)} cols,
             h ∈ concat (map (fun lc => _search lc.2 qe k) (filter P cols)) →
             ∃ lc, lc ∈ cols ∧ h ∈ _search lc.2 qe k).
  { intros P ? cols Hin.
    apply list_elem_of_In, in_concat in Hin as (hs & Hhs & Hh).
    apply list_elem_of_In in Hhs, Hh.
    apply list_elem_of_fmap in Hhs as (lc & -> & Hlc).
    apply list_elem_of_filter in Hlc as [_ Hlc]. eauto. }
  intros [H|[H|[H|H]]]; apply Hc in H as (lc & Hlc & Hh);
    exists lc; rewrite elem_of_app; eauto.
Qed.

End RetrieverFacts.

(** C3. For every collection the retriever consults, [_search] returns
    exactly the entries of the store's top-k answer whose distance is at most
    0.7, in the store's order: an entry beyond the threshold is dropped, and
    when no entry is within the threshold the result is the empty list.  In
    the output of [search], every hit of every bucket has a distance of at
    most 0.7. *)
Theorem retriever_keeps_exactly_hits_within_threshold :
  ∀ (col : Retriever.collection) (qe : Retriever.embedding) (k : nat),
    Retriever._search col qe k
    = map hit_of (filter within_threshold (store_answer col qe k))
    ∧ (∀ x, x ∈ store_answer col qe k →
         (hit_of x ∈ Retriever._search col qe k
          ↔ PrimFloat.leb x.2 0.7%float = true))
    ∧ ((∀ x, x ∈ store_answer col qe k → PrimFloat.leb x.2 0.7%float = false) →
       Retriever._search col qe k = [])
    ∧ (∀ (self : Retriever.t) (query : string) (h : Retriever.hit),
         h ∈ Retriever.uploaded_text (Retriever.search self query)
             ++ Retriever.regulatory_text (Retriever.search self query)
             ++ Retriever.uploaded_images (Retriever.search self query)
             ++ Retriever.regulatory_images (Retriever.search self query) →
         PrimFloat.leb (Retriever.distance h) 0.7%float = true).
Proof.
  intros col qe k. split; [apply search_is_filter|]. split; [|split].
  - intros x Hx. split.
    + intros Hin. apply search_hit_within in Hin. exact Hin.
    + intros Hle. rewrite search_is_filter. apply list_elem_of_fmap_2.
      apply list_elem_of_filter. split; [exact Hle | exact Hx].
  - intros Hnone. rewrite search_is_filter.
    destruct (filter within_threshold (store_answer col qe k)) as [|x l] eqn:E; [done|].
    assert (Hx : x ∈ filter within_threshold (store_answer col qe k))
      by (rewrite E; left).
    apply list_elem_of_filter in Hx as [Hw Hx]. specialize (Hnone x Hx).
    unfold within_threshold, Retriever.SIMILARITY_THRESHOLD in Hw. congruence.
  - intros self query h Hin.
    apply search_bucket_origin in Hin as (lc & _ & Hh).
    by apply search_hit_within in Hh.
Qed.

(* ===================================================================== *)
(** * The query graph: intent, routing, web fallback, final answer *)
(* ===================================================================== *)

Section GraphFacts.

Lemma json_in_spec (v : json) (l : list string) :
  json_in v l = true ↔ ∃ s, v = JStr s ∧ s ∈ l.
Proof.
  unfold json_in. rewrite existsb_exists. split.
  - intros (s & Hs & Heq). destruct v; simpl in Heq; try done.
    apply String.eqb_eq in Heq as ->. exists s. split; [done|].
    by apply list_elem_of_In.
  - intros (s & -> & Hs). exists s. split; [by apply list_elem_of_In|].
    simpl. apply String.eqb_refl.
Qed.

Lemma json_eq_str_spec (v : json) (s : string) :
  json_eq_str v s = true ↔ v = JStr s.
Proof.
  destruct v; simpl; try (split; [done | intros; discriminate]).
  rewrite String.eqb_eq. split; [by intros -> | by intros [= ->]].
Qed.

(** The mode [IntentAgent.run] stores. *)
Lemma intent_run_mode (C : collaborators) (state : State.t) :
  State.mode (IntentAgent.run C state)
  = Some (let mode := IntentAgent.classified_mode C state in
          if json_in mode (IntentAgent.allowed_modes
                             (opt_str_truthy (State.upload_id state)))
          then mode else JStr "regulatory_only").
Proof.
  unfold IntentAgent.run, IntentAgent.classified_mode, IntentAgent.cleaned_reply.
  cbv zeta.
  match goal with |- context [json_in ?m ?a] => destruct (json_in m a) end;
    match goal with |- context [json_eq_str ?m ?a] => destruct (json_eq_str m a) end;
    reflexivity.
Qed.

Lemma intent_run_upload_id (C : collaborators) (state : State.t) :
  State.upload_id (IntentAgent.run C state) = State.upload_id state.
Proof.
  unfold IntentAgent.run. simpl. destruct (json_eq_str _ _); reflexivity.
Qed.

Lemma intent_run_query (C : collaborators) (state : State.t) :
  State.query (IntentAgent.run C state) = State.query state.
Proof.
  unfold IntentAgent.run. simpl. destruct (json_eq_str _ _); reflexivity.
Qed.

Lemma parse_mode_default (C : collaborators) (s : string) :
  (∀ items, json_loads C s ≠ Ok (JObj items)) →
  IntentAgent.parse_mode C s = JStr "regulatory_only".
Proof.
  intros H. unfold IntentAgent.parse_mode.
  destruct (json_loads C s) as [[]|]; try reflexivity. by destruct (H items).
Qed.

End GraphFacts.

(** C1, as the code has it.  The mode the Retrieve stage works with is
    always a legal mode of the upload context: [regulatory_only] or [web]
    without a session id, [regulatory_only], [uploaded_only] or [compare]
    with one.  So it is never [web] when a session id is present and never
    [uploaded_only] or [compare] when none is; a classified mode outside the
    legal set, a reply that does not parse, and a parsed value that is not
    an object are all turned into [regulatory_only], and a legal classified
    mode is kept. *)
Theorem intent_mode_is_legal_for_upload_context :
  ∀ (C : collaborators) (state : State.t),
    let has_upload := opt_str_truthy (State.upload_id state) in
    let classified := IntentAgent.classified_mode C state in
    let mode := retrieve_stage_mode C state in
    State.mode (IntentAgent.run C state) = Some mode
    ∧ RetrievalAgent.retriever_of C (IntentAgent.run C state)
      = Retriever.init (chroma C) (encode C) mode (State.upload_id state)
    ∧ (∃ m, mode = JStr m ∧ m ∈ IntentAgent.allowed_modes has_upload)
    ∧ (has_upload = true → mode ≠ JStr "web")
    ∧ (has_upload = false → mode ≠ JStr "uploaded_only" ∧ mode ≠ JStr "compare")
    ∧ (json_in classified (IntentAgent.allowed_modes has_upload) = false →
       mode = JStr "regulatory_only")
    ∧ (json_in classified (IntentAgent.allowed_modes has_upload) = true →
       mode = classified)
    ∧ ((∀ items, json_loads C (IntentAgent.cleaned_reply C state) ≠ Ok (JObj items)) →
       mode = JStr "regulatory_only").
Proof.
  intros C state has_upload classified mode.
  assert (Hmode : State.mode (IntentAgent.run C state) = Some mode).
  { unfold mode, retrieve_stage_mode. by rewrite intent_run_mode. }
  assert (Hval : mode = if json_in classified (IntentAgent.allowed_modes has_upload)
                        then classified else JStr "regulatory_only").
  { unfold mode, retrieve_stage_mode. by rewrite intent_run_mode. }
  assert (Hlegal : ∃ m, mode = JStr m ∧ m ∈ IntentAgent.allowed_modes has_upload).
  { rewrite Hval.
    destruct (json_in classified _) eqn:E.
    - by apply json_in_spec in E.
    - exists "regulatory_only". split; [done|].
      unfold IntentAgent.allowed_modes.
      destruct has_upload; apply list_elem_of_In; simpl; auto. }
  split; [exact Hmode|]. split.
  { unfold RetrievalAgent.retriever_of. by rewrite Hmode, intent_run_upload_id. }
  split; [exact Hlegal|].
  split; [|split; [|split; [|split]]].
  - intros Hup. destruct Hlegal as (m & -> & Hm). rewrite Hup in Hm.
    intros [= ->]. apply list_elem_of_In in Hm. simpl in Hm. intuition discriminate.
  - intros Hup. destruct Hlegal as (m & -> & Hm). rewrite Hup in Hm.
    split; intros [= ->]; apply list_elem_of_In in Hm; simpl in Hm;
      intuition discriminate.
  - intros E. by rewrite Hval, E.
  - intros E. by rewrite Hval, E.
  - intros Hparse. rewrite Hval. subst classified.
    unfold IntentAgent.classified_mode.
    rewrite (parse_mode_default _ _ Hparse).
    by destruct (json_in (JStr "regulatory_only") _).
Qed.

(** C1, as the claim states it, fails: without a session id the mode [web]
    is legal, and the Retrieve stage receives it. *)
Lemma retrieve_stage_mode_can_be_web :
  let state := State.initial "When was the Finance Act 2025 passed?" None in
  IntentAgent.classified_mode example_collaborators state = JStr "web"
  ∧ retrieve_stage_mode example_collaborators state = JStr "web"
  ∧ RetrievalAgent.retriever_of example_collaborators
      (IntentAgent.run example_collaborators state)
    = Retriever.init example_store (fun _ => []) (JStr "web") None.
Proof. vm_compute. done. Qed.

Section GraphRuns.

Context (C : collaborators).

Lemma walk_unfold (n : nat) (node : QueryGraph.node) (state : State.t) :
  QueryGraph.walk (S n) C node state
  = match QueryGraph.run_node C node state with
    | Ok state' =>
        match QueryGraph.next_node node state' with
        | None => Ok ([node], state')
        | Some node' =>
            match QueryGraph.walk n C node' state' with
            | Ok r => Ok (node :: r.1, r.2)
            | Raise e => Raise e
            end
        end
    | Raise e => Raise e
    end.
Proof. reflexivity. Qed.

Lemma walk_intent (n : nat) (state : State.t) :
  QueryGraph.walk (S n) C QueryGraph.Intent state
  = match QueryGraph.walk n C QueryGraph.Retrieve (IntentAgent.run C state) with
    | Ok r => Ok (QueryGraph.Intent :: r.1, r.2)
    | Raise e => Raise e
    end.
Proof. reflexivity. Qed.

Lemma walk_retrieve (n : nat) (state state' : State.t) :
  RetrievalAgent.run C state = Ok state' →
  QueryGraph.walk (S n) C QueryGraph.Retrieve state
  = match QueryGraph.walk n C
            (if default false (State.need_web state')
             then QueryGraph.Web else QueryGraph.Final) state' with
    | Ok r => Ok (QueryGraph.Retrieve :: r.1, r.2)
    | Raise e => Raise e
    end.
Proof.
  intros H. rewrite walk_unfold. simpl QueryGraph.run_node. rewrite H.
  unfold QueryGraph.next_node, QueryGraph._route_after_retrieval.
  by destruct (default false (State.need_web state')).
Qed.

Lemma walk_web (n : nat) (state state' : State.t) :
  WebAgent.run 3 C state = Ok state' →
  QueryGraph.walk (S n) C QueryGraph.Web state
  = match QueryGraph.walk n C QueryGraph.Final state' with
    | Ok r => Ok (QueryGraph.Web :: r.1, r.2)
    | Raise e => Raise e
    end.
Proof. intros H. rewrite walk_unfold. simpl QueryGraph.run_node. by rewrite H. Qed.

Lemma walk_final (n : nat) (state state' : State.t) :
  FinalAgent.run C state = Ok state' →
  QueryGraph.walk (S n) C QueryGraph.Final state = Ok ([QueryGraph.Final], state').
Proof. intros H. rewrite walk_unfold. simpl QueryGraph.run_node. by rewrite H. Qed.

(** The Retrieve stage, once its retriever is built. *)
Lemma retrieval_run_ok (state : State.t) (r : Retriever.t) (q : string) :
  RetrievalAgent.retriever_of C state = Ok r →
  State.query state = Some q →
  RetrievalAgent.run C state
  = let results := Retriever.search r q in
    let state := State.set_retrieval results
                   (State.log "🔎 Searching knowledge base..." state) in
    if (Retriever.total_hits results =? 0)%nat then
      Ok (State.log "⚠️  Nothing in KB — trying web search..."
            (State.set_need_web true state))
    else
      Ok (State.log
            ("✅ Found "
             +:+ pretty (length (Retriever.regulatory_text results)
                         + length (Retriever.regulatory_images results))%nat
             +:+ " regulatory chunk(s), "
             +:+ pretty (length (Retriever.uploaded_text results)
                         + length (Retriever.uploaded_images results))%nat
             +:+ " uploaded chunk(s).")
            (State.set_need_web false state)).
Proof.
  intros Hr Hq. unfold RetrievalAgent.run.
  change (RetrievalAgent.retriever_of C (State.log _ state))
    with (RetrievalAgent.retriever_of C state).
  rewrite Hr, Hq. reflexivity.
Qed.

(** The two [setdefault] calls of the Web stage change no key that is
    present. *)
Lemma setdefaults_progress (state : State.t) :
  default [] (State.progress
                (State.setdefault_web_results (State.setdefault_progress state)))
  = default [] (State.progress state).
Proof.
  unfold State.setdefault_web_results, State.setdefault_progress.
  destruct (State.progress state) eqn:E; simpl;
    destruct (State.web_results state); simpl; by rewrite ?E.
Qed.

Lemma setdefaults_query (state : State.t) :
  State.query (State.setdefault_web_results (State.setdefault_progress state))
  = State.query state.
Proof.
  unfold State.setdefault_web_results, State.setdefault_progress.
  destruct (State.progress state); simpl;
    destruct (State.web_results state); reflexivity.
Qed.

Lemma setdefaults_need_web (state : State.t) :
  State.need_web (State.setdefault_web_results (State.setdefault_progress state))
  = State.need_web state.
Proof.
  unfold State.setdefault_web_results, State.setdefault_progress.
  destruct (State.progress state); simpl;
    destruct (State.web_results state); reflexivity.
Qed.

(** The Web stage when a search is needed. *)
Lemma web_run_search (state : State.t) (q : string) :
  State.need_web state = Some true →
  State.query state = Some q →
  WebAgent.run 3 C state
  = Ok (State.set_web_results (web_outcome C q)
          (State.log
             (match ddgs_text C q 3 with
              | Ok rs =>
                  if list_truthy (WebAgent.collect rs)
                  then "🌐 Web returned " +:+ pretty (length (WebAgent.collect rs))
                       +:+ " result(s)."
                  else "🌐 Web search returned no results."
              | Raise e => "🌐 Web search failed: " +:+ exn_str e
              end)
             (State.log "🌐 Searching web as fallback..."
                (State.setdefault_web_results (State.setdefault_progress state))))).
Proof.
  intros Hneed Hq. unfold WebAgent.run.
  assert (Hn : State.need_web
                 (State.setdefault_web_results (State.setdefault_progress state))
               = Some true).
  { unfold State.setdefault_web_results, State.setdefault_progress.
    destruct (State.progress state); simpl;
      destruct (State.web_results state); simpl; exact Hneed. }
  assert (Hq' : State.query
                  (State.setdefault_web_results (State.setdefault_progress state))
                = Some q).
  { unfold State.setdefault_web_results, State.setdefault_progress.
    destruct (State.progress state); simpl;
      destruct (State.web_results state); simpl; exact Hq. }
  rewrite Hn, Hq'. simpl. unfold web_outcome.
  destruct (ddgs_text C q 3); reflexivity.
Qed.

(** The Final stage returns whenever the state has a query, and leaves the
    retrieval and web fields as they are. *)
Lemma final_run_ok (state : State.t) (q : string) :
  State.query state = Some q →
  ∃ final,
    FinalAgent.run C state = Ok final
    ∧ State.mode final = State.mode state
    ∧ State.retrieval_results final = State.retrieval_results state
    ∧ State.web_results final = State.web_results state
    ∧ is_Some (State.answer final)
    ∧ State.progress final
      = Some (default [] (State.progress state)
              ++ ["🤖 Generating answer..."; "✅ Answer ready."]).
Proof.
  intros Hq. unfold FinalAgent.run. rewrite Hq. simpl.
  eexists. split; [reflexivity|]. simpl.
  repeat split; try done. by rewrite <- app_assoc.
Qed.

(** A hit dict has no key ["image_path"]. *)
Lemma image_paths_of_nil (hits : list Retriever.hit) :
  FinalAgent.image_paths_of hits = [].
Proof. induction hits as [|h hits IH]; [done|]. simpl. exact IH. Qed.

Lemma final_run_images (state final : State.t) :
  FinalAgent.run C state = Ok final → State.images final = Some [].
Proof.
  unfold FinalAgent.run. destruct (State.query state); simpl; [|done].
  intros [= <-]. simpl. by rewrite !image_paths_of_nil.
Qed.

End GraphRuns.

Section WebIntent.

Context (C : collaborators) (q : string) (u : option string).
Hypothesis classified_web :
  IntentAgent.classified_mode C (State.initial q u) = JStr "web".

(** The state the Intent stage hands over when the classified mode is
    [web]. *)
Lemma intent_run_web :
  let state := IntentAgent.run C (State.initial q u) in
  State.query state = Some q
  ∧ State.upload_id state = u
  ∧ State.need_web state = Some true
  ∧ State.mode state
    = Some (JStr (if opt_str_truthy u then "regulatory_only" else "web")).
Proof.
  cbv zeta. split; [by rewrite intent_run_query|].
  split; [by rewrite intent_run_upload_id|]. split.
  - unfold IntentAgent.run. cbv zeta.
    fold (IntentAgent.cleaned_reply C (State.initial q u)).
    fold (IntentAgent.classified_mode C (State.initial q u)).
    rewrite classified_web. reflexivity.
  - rewrite intent_run_mode. simpl. rewrite classified_web.
    by destruct (opt_str_truthy u).
Qed.

End WebIntent.

(** C2, as the code has it.  Take a query whose classified mode is [web].
    Without a session id the mode stays [web]: the retriever consults no
    collection and returns no hit, and the Web stage runs and stores the
    outcome of the web search for the query.  With a session id the mode
    becomes [regulatory_only] and retrieval runs as such; the Web stage runs
    with the same outcome when retrieval returns no hit. *)
Theorem web_intent_reaches_web_search :
  ∀ (C : collaborators) (q : string) (u : option string),
    IntentAgent.classified_mode C (State.initial q u) = JStr "web" →
    ∃ path final,
      QueryGraph.invoke_path C (State.initial q u) = Ok (path, final)
      ∧ if opt_str_truthy u then
          State.mode final = Some (JStr "regulatory_only")
          ∧ ∃ r,
              Retriever.init (chroma C) (encode C) (JStr "regulatory_only") u = Ok r
              ∧ State.retrieval_results final = Some (Retriever.search r q)
              ∧ (Retriever.total_hits (Retriever.search r q) = 0%nat →
                 path = [QueryGraph.Intent; QueryGraph.Retrieve;
                         QueryGraph.Web; QueryGraph.Final]
                 ∧ State.web_results final = Some (web_outcome C q))
        else
          State.mode final = Some (JStr "web")
          ∧ (∃ r,
               Retriever.init (chroma C) (encode C) (JStr "web") u = Ok r
               ∧ Retriever.text_collections r = []
               ∧ Retriever.image_collections r = [])
          ∧ State.retrieval_results final = Some Retriever.empty_output
          ∧ path = [QueryGraph.Intent; QueryGraph.Retrieve;
                    QueryGraph.Web; QueryGraph.Final]
          ∧ State.web_results final = Some (web_outcome C q).
Proof.
  intros C q u Hweb.
  destruct (intent_run_web C q u Hweb) as (Hq & Hu & Hneed & Hmode).
  set (s1 := IntentAgent.run C (State.initial q u)) in *.
  unfold QueryGraph.invoke_path, QueryGraph.recursion_limit.
  rewrite walk_intent. fold s1.
  assert (Hweb_final : ∀ n s2,
            State.query s2 = Some q → State.need_web s2 = Some true →
            ∃ final, QueryGraph.walk (S (S n)) C QueryGraph.Web s2
                     = Ok ([QueryGraph.Web; QueryGraph.Final], final)
                     ∧ State.mode final = State.mode s2
                     ∧ State.retrieval_results final = State.retrieval_results s2
                     ∧ State.web_results final = Some (web_outcome C q)).
  { intros n s2 Hq2 Hn2.
    rewrite (walk_web C _ _ _ (web_run_search C s2 q Hn2 Hq2)).
    match goal with
    | |- context [QueryGraph.walk _ _ QueryGraph.Final ?s] => set (s3 := s)
    end.
    assert (Hq3 : State.query s3 = Some q).
    { subst s3. unfold State.setdefault_web_results, State.setdefault_progress.
      destruct (State.progress s2); simpl;
        destruct (State.web_results s2); simpl; exact Hq2. }
    destruct (final_run_ok C s3 q Hq3) as (final & Hfin & Hm & Hrr & Hw & _ & _).
    rewrite (walk_final C _ _ _ Hfin). exists final. split; [reflexivity|].
    rewrite Hm, Hrr, Hw. subst s3.
    unfold State.setdefault_web_results, State.setdefault_progress.
    destruct (State.progress s2); simpl;
      destruct (State.web_results s2); simpl; done. }
  destruct (opt_str_truthy u) eqn:Hup.
  - (* a session id: the mode has become regulatory_only *)
    assert (Hinit : ∃ r, Retriever.init (chroma C) (encode C)
                           (JStr "regulatory_only") u = Ok r).
    { unfold Retriever.init. simpl. eauto. }
    destruct Hinit as [r Hr].
    assert (Hr1 : RetrievalAgent.retriever_of C s1 = Ok r).
    { unfold RetrievalAgent.retriever_of. by rewrite Hmode, Hu. }
    pose proof (retrieval_run_ok C s1 r q Hr1 Hq) as Hrun. cbv zeta in Hrun.
    destruct (Retriever.total_hits (Retriever.search r q) =? 0)%nat eqn:Hhits.
    + rewrite (walk_retrieve C _ _ _ Hrun). simpl (default _ _). cbv iota.
      edestruct (Hweb_final 21%nat) as (final & Hwalk & Hm & Hrr & Hw);
        [| |rewrite Hwalk]; [exact Hq|reflexivity|].
      simpl. eexists _, final. split; [reflexivity|].
      split; [rewrite Hm; exact Hmode|]. exists r.
      split; [exact Hr|]. split; [rewrite Hrr; reflexivity|].
      intros _. split; [reflexivity|exact Hw].
    + rewrite (walk_retrieve C _ _ _ Hrun). simpl (default _ _). cbv iota.
      match goal with
      | |- context [QueryGraph.walk _ _ QueryGraph.Final ?s] => set (s2 := s)
      end.
      assert (Hq2 : State.query s2 = Some q) by exact Hq.
      destruct (final_run_ok C s2 q Hq2) as (final & Hfin & Hm & Hrr & Hw & _ & _).
      rewrite (walk_final C _ _ _ Hfin). simpl. eexists _, final.
      split; [reflexivity|].
      split; [rewrite Hm; exact Hmode|]. exists r.
      split; [exact Hr|]. split; [rewrite Hrr; reflexivity|].
      intros H0. apply Nat.eqb_neq in Hhits. done.
  - (* no session id: the mode is web, no collection is consulted *)
    set (r := {| Retriever.mode := JStr "web"; Retriever.upload_id := u;
                 Retriever.the_client := chroma C; Retriever.embedder := encode C;
                 Retriever.text_collections := [];
                 Retriever.image_collections := [] |}).
    assert (Hr : Retriever.init (chroma C) (encode C) (JStr "web") u = Ok r)
      by reflexivity.
    assert (Hr1 : RetrievalAgent.retriever_of C s1 = Ok r).
    { unfold RetrievalAgent.retriever_of. by rewrite Hmode, Hu. }
    pose proof (retrieval_run_ok C s1 r q Hr1 Hq) as Hrun. cbv zeta in Hrun.
    change (Retriever.search r q) with Retriever.empty_output in Hrun.
    change (Retriever.total_hits Retriever.empty_output =? 0)%nat with true in Hrun.
    cbv iota in Hrun.
    rewrite (walk_retrieve C _ _ _ Hrun). simpl (default _ _). cbv iota.
    edestruct (Hweb_final 21%nat) as (final & Hwalk & Hm & Hrr & Hw);
      [| |rewrite Hwalk]; [exact Hq|reflexivity|].
    simpl. eexists _, final. split; [reflexivity|].
    split; [rewrite Hm; exact Hmode|].
    split; [exists r; by split|].
    split; [rewrite Hrr; reflexivity|].
    split; [reflexivity|exact Hw].
Qed.

(** The theorem at a concrete query: no session id, the classifier says
    [web]. *)
Lemma web_intent_reaches_web_search_witness :
  IntentAgent.classified_mode example_collaborators
    (State.initial "When was the Finance Act 2025 passed?" None) = JStr "web"
  ∧ ∃ path final,
      QueryGraph.invoke_path example_collaborators
        (State.initial "When was the Finance Act 2025 passed?" None)
      = Ok (path, final)
      ∧ State.mode final = Some (JStr "web")
      ∧ (∃ r,
           Retriever.init (chroma example_collaborators) (encode example_collaborators)
             (JStr "web") None = Ok r
           ∧ Retriever.text_collections r = []
           ∧ Retriever.image_collections r = [])
      ∧ State.retrieval_results final = Some Retriever.empty_output
      ∧ path = [QueryGraph.Intent; QueryGraph.Retrieve; QueryGraph.Web; QueryGraph.Final]
      ∧ State.web_results final
        = Some (web_outcome example_collaborators "When was the Finance Act 2025 passed?").
Proof.
  split; [reflexivity|].
  apply (web_intent_reaches_web_search example_collaborators
           "When was the Finance Act 2025 passed?" None).
  reflexivity.
Defined.

(** C2, as the claim states it, fails: without a session id the Retrieve
    stage of a [web] query does not behave as [regulatory_only].  Over a
    store whose regulatory collection answers the query with a chunk at
    distance 0.25, the run retrieves nothing, while retrieval in mode
    [regulatory_only] returns that chunk. *)
Lemma web_mode_retrieval_is_not_regulatory_only :
  let q := "When was the Finance Act 2025 passed?" in
  IntentAgent.classified_mode example_collaborators (State.initial q None) = JStr "web"
  ∧ match QueryGraph.invoke example_collaborators (State.initial q None) with
    | Ok final =>
        State.mode final = Some (JStr "web")
        ∧ State.retrieval_results final = Some Retriever.empty_output
    | Raise _ => False
    end
  ∧ match Retriever.init example_store (encode example_collaborators)
            (JStr "regulatory_only") None with
    | Ok r => Retriever.total_hits (Retriever.search r q) = 1%nat
    | Raise _ => False
    end.
Proof. vm_compute. done. Qed.

(** With a session id, a [web] classification sets [need_web] in the Intent
    stage, and the Retrieve stage assigns the flag again from its hit count:
    here retrieval finds one chunk and the run goes from Retrieve to Final. *)
Example web_signal_with_upload_and_hits :
  let q := "When was the Finance Act 2025 passed?" in
  let state := State.initial q (Some "abc123") in
  IntentAgent.classified_mode example_collaborators state = JStr "web"
  ∧ State.need_web (IntentAgent.run example_collaborators state) = Some true
  ∧ match QueryGraph.invoke_path example_collaborators state with
    | Ok (path, final) =>
        path = [QueryGraph.Intent; QueryGraph.Retrieve; QueryGraph.Final]
        ∧ State.mode final = Some (JStr "regulatory_only")
        ∧ State.need_web final = Some false
        ∧ State.web_results final = None
    | Raise _ => False
    end.
Proof. vm_compute. done. Qed.

(** C9. When the web search raises during the Web stage, the stage returns:
    it records the reason in the progress log and stores the empty list as
    [web_results]; the graph goes on to the Final stage, which produces an
    answer with these zero web results. *)
Theorem web_search_failure_is_not_fatal :
  ∀ (C : collaborators) (state : State.t) (q : string) (e : exn) (n : nat),
    State.query state = Some q →
    State.need_web state = Some true →
    ddgs_text C q 3 = Raise e →
    ∃ state' final,
      WebAgent.run 3 C state = Ok state'
      ∧ State.web_results state' = Some []
      ∧ State.progress state'
        = Some (default [] (State.progress state)
                ++ ["🌐 Searching web as fallback...";
                    "🌐 Web search failed: " +:+ exn_str e])
      ∧ QueryGraph.next_node QueryGraph.Web state' = Some QueryGraph.Final
      ∧ QueryGraph.walk (S (S n)) C QueryGraph.Web state
        = Ok ([QueryGraph.Web; QueryGraph.Final], final)
      ∧ State.web_results final = Some []
      ∧ is_Some (State.answer final)
      ∧ State.progress final
        = Some (default [] (State.progress state)
                ++ ["🌐 Searching web as fallback...";
                    "🌐 Web search failed: " +:+ exn_str e;
                    "🤖 Generating answer..."; "✅ Answer ready."]).
Proof.
  intros C state q e n Hq Hneed Hfail.
  pose proof (web_run_search C state q Hneed Hq) as Hrun.
  unfold web_outcome in Hrun. rewrite Hfail in Hrun.
  match type of Hrun with _ = Ok ?s => set (state' := s) in * end.
  assert (Hprog : State.progress state'
                  = Some (default [] (State.progress state)
                          ++ ["🌐 Searching web as fallback...";
                              "🌐 Web search failed: " +:+ exn_str e])).
  { subst state'. unfold State.log at 1 2. simpl.
    rewrite setdefaults_progress. by rewrite <- app_assoc. }
  assert (Hq' : State.query state' = Some q).
  { subst state'. simpl. by rewrite setdefaults_query. }
  destruct (final_run_ok C state' q Hq') as (final & Hfin & _ & _ & Hw & Hans & Hp).
  exists state', final.
  split; [exact Hrun|]. split; [reflexivity|]. split; [exact Hprog|].
  split; [reflexivity|].
  split; [by rewrite (walk_web C _ _ _ Hrun), (walk_final C _ _ _ Hfin)|].
  split; [by rewrite Hw|]. split; [exact Hans|].
  rewrite Hp, Hprog. simpl. by rewrite <- ?app_assoc.
Qed.

(** The theorem on a run whose web search is rate-limited. *)
Lemma web_search_failure_is_not_fatal_witness :
  ∃ state' final,
    WebAgent.run 3 example_collaborators_web_down
      (State.set_need_web true (State.initial "What is an EMI?" None)) = Ok state'
    ∧ State.web_results state' = Some []
    ∧ State.progress state'
      = Some (default [] (State.progress
                (State.set_need_web true (State.initial "What is an EMI?" None)))
              ++ ["🌐 Searching web as fallback...";
                  "🌐 Web search failed: "
                  +:+ exn_str (OtherError "RatelimitException: 202 Ratelimit")])
    ∧ QueryGraph.next_node QueryGraph.Web state' = Some QueryGraph.Final
    ∧ QueryGraph.walk 2 example_collaborators_web_down QueryGraph.Web
        (State.set_need_web true (State.initial "What is an EMI?" None))
      = Ok ([QueryGraph.Web; QueryGraph.Final], final)
    ∧ State.web_results final = Some []
    ∧ is_Some (State.answer final)
    ∧ State.progress final
      = Some (default [] (State.progress
                (State.set_need_web true (State.initial "What is an EMI?" None)))
              ++ ["🌐 Searching web as fallback...";
                  "🌐 Web search failed: "
                  +:+ exn_str (OtherError "RatelimitException: 202 Ratelimit");
                  "🤖 Generating answer..."; "✅ Answer ready."]).
Proof.
  apply (web_search_failure_is_not_fatal example_collaborators_web_down
           (State.set_need_web true (State.initial "What is an EMI?" None))
           "What is an EMI?" (OtherError "RatelimitException: 202 Ratelimit") 0);
    reflexivity.
Defined.

(** C8 on the code.  An uploaded image hit whose metadata carries an image
    path is part of the context the answer model receives, and the list of
    images that [FinalAgent.run] returns is empty: the path is looked up in
    the hit dict, which holds it one level down, under ["metadata"]. *)
Theorem final_agent_omits_metadata_image_path :
  Retriever.hit_metadata example_image_hit !! "image_path"
  = Some (Retriever.MStr "temp/20250101_120000/extracted/charts/report_page3_chart1.png")
  ∧ match FinalAgent.run echo_collaborators example_image_state with
    | Ok final =>
        State.images final = Some []
        ∧ match State.answer final with
          | Some context =>
              contains context
                ("[UPLOADED_IMAGE]" +:+ nl +:+ Retriever.text example_image_hit) = true
          | None => False
          end
    | Raise _ => False
    end.
Proof. vm_compute. done. Qed.

(** For every state, the images that [FinalAgent.run] returns are none. *)
Lemma final_agent_images_always_empty (C : collaborators) (state final : State.t) :
  FinalAgent.run C state = Ok final → State.images final = Some [].
Proof. apply final_run_images. Qed.

(* ===================================================================== *)
(** * The router: session cleanup *)
(* ===================================================================== *)

Section RouterFacts.

Import Router.

Lemma keeps_log_lift {A} (f : world → result A * world) : keeps_log (lift f).
Proof. intros [w l]. unfold lift. simpl. by destruct (f w). Qed.

Lemma keeps_log_ret {A} (a : A) : keeps_log (ret a).
Proof. by intros s. Qed.

Lemma keeps_log_raise {A} (e : exn) : keeps_log (@raise A e).
Proof. by intros s. Qed.

Lemma keeps_log_seq {A B} (m : M A) (k : A → M B) :
  keeps_log m → (∀ a, keeps_log (k a)) → keeps_log (seq m k).
Proof.
  intros Hm Hk s. unfold seq. specialize (Hm s).
  destruct (m s) as [[a|e] s']; simpl in *; [|done].
  by rewrite (Hk a s').
Qed.

Lemma keeps_log_run_ingestion (self : t) (upload_id : string) :
  keeps_log (_run_ingestion self upload_id).
Proof.
  unfold _run_ingestion. apply keeps_log_seq; [by intros s|].
  intros [all_files|]; [|apply keeps_log_raise].
  destruct (_ && _); [apply keeps_log_raise|].
  apply keeps_log_seq; [apply keeps_log_lift|]. intros _. apply keeps_log_lift.
Qed.

Lemma keeps_log_invoke_graph (self : t) (q : string) (u : option string) :
  keeps_log (invoke_graph self q u).
Proof. apply keeps_log_lift. Qed.

Lemma keeps_log_save (files : list (string * string)) (upload_id : string) :
  keeps_log (save_uploaded_files files upload_id).
Proof. apply keeps_log_lift. Qed.

(** Removing a folder and deleting a collection only ever remove. *)
Lemma remove_folder_lookup (folder other : string) (w : world) :
  folders (remove_folder folder w) !! other
  = if decide (folder = other) then None else folders w !! other.
Proof.
  unfold remove_folder. destruct (folders w !! folder) eqn:E; simpl.
  - rewrite lookup_delete. by destruct (decide (folder = other)).
  - destruct (decide (folder = other)) as [<-|]; done.
Qed.

Lemma remove_folder_chroma (folder : string) (w : world) :
  chroma_db (remove_folder folder w) = chroma_db w.
Proof. unfold remove_folder. by destruct (folders w !! folder). Qed.

Lemma try_delete_lookup (name other : string) (w : world) :
  chroma_db (try_delete_collection name w) !! other
  = if decide (name = other) then None else chroma_db w !! other.
Proof.
  unfold try_delete_collection, delete_collection.
  destruct (chroma_db w !! name) eqn:E; simpl.
  - rewrite lookup_delete. by destruct (decide (name = other)).
  - destruct (decide (name = other)) as [<-|]; done.
Qed.

Lemma try_delete_folders (name : string) (w : world) :
  folders (try_delete_collection name w) = folders w.
Proof.
  unfold try_delete_collection. by destruct (delete_collection name (chroma_db w)).
Qed.


(** [_cleanup] always returns; afterwards nothing of the session is left and
    the log has one more entry. *)
Lemma cleanup_spec (upload_id : string) (s : world * list string) :
  ∃ w', _cleanup upload_id s = (Ok (), (w', s.2 ++ [upload_id]))
        ∧ session_gone upload_id w'.
Proof.
  unfold _cleanup. eexists. split; [reflexivity|].
  unfold session_gone. simpl.
  rewrite !try_delete_folders, !try_delete_lookup, !remove_folder_lookup.
  rewrite !remove_folder_chroma.
  repeat split; repeat case_decide; done.
Qed.

(** [try: body finally: _cleanup(id)] for a body that does not clean up
    itself: the outcome is the body's, the session is gone, and the log
    has exactly one more entry. *)
Lemma try_finally_cleanup {A} (body : M A) (upload_id : string)
    (s : world * list string) :
  keeps_log body →
  ∃ w', try_finally body (_cleanup upload_id) s
        = ((body s).1, (w', s.2 ++ [upload_id]))
        ∧ session_gone upload_id w'.
Proof.
  intros Hbody. unfold try_finally. specialize (Hbody s).
  destruct (body s) as [r s1]. simpl in Hbody. cbv beta iota.
  destruct (cleanup_spec upload_id s1) as (w' & Hc & Hgone).
  rewrite Hc. exists w'. split; [by rewrite Hbody|done].
Qed.

End RouterFacts.



(** The same call, run: ingestion raises, the exception comes out, and the
    collection it had created is deleted with the folders. *)
Example cleanup_after_failed_ingestion :
  let '(r, (w', log)) :=
    Router.handle_input example_router (Some "Does this comply with SBP rules?")
      (Some [("policy.pdf", "%PDF-1.7")]) None (empty_world, []) in
  r = Raise (OtherError "vision service down")
  ∧ log = ["20250101_120000"]
  ∧ Router.folders w' = ∅
  ∧ Router.chroma_db w' = ∅.
Proof. vm_compute. done. Qed.

(* ===================================================================== *)
(** * Strings: lengths, [strip] and [find] *)
(* ===================================================================== *)

Section StringFacts.

Lemma chars_str (l : list ascii) : chars (str l) = l.
Proof. apply String.list_ascii_of_string_of_list_ascii. Qed.

Lemma str_chars (s : string) : str (chars s) = s.
Proof. apply String.string_of_list_ascii_of_string. Qed.

Lemma chars_app (a b : string) : chars (a +:+ b) = chars a ++ chars b.
Proof. induction a as [|c a IH]; simpl; [done|]. by rewrite IH. Qed.

Lemma len_app (a b : string) : len (a +:+ b) = (len a + len b)%nat.
Proof. unfold len. by rewrite chars_app, length_app. Qed.

Lemma str_truthy_chars (s : string) : str_truthy s = list_truthy (chars s).
Proof. by destruct s. Qed.

Lemma drop_space_length (l : list ascii) : (length (drop_space l) ≤ length l)%nat.
Proof. induction l as [|c l IH]; simpl; [done|]. destruct (isspace c); simpl; lia. Qed.

Lemma rstrip_length (l : list ascii) : (length (rstrip_chars l) ≤ length l)%nat.
Proof.
  induction l as [|c l IH]; simpl; [done|].
  destruct (rstrip_chars l); simpl in *; [destruct (isspace c); simpl; lia | lia].
Qed.

Lemma strip_length (s : string) : (len (strip s) ≤ len s)%nat.
Proof.
  unfold len, strip, strip_chars. rewrite chars_str.
  etrans; [apply rstrip_length | apply drop_space_length].
Qed.

Lemma starts_with_length (p l : list ascii) :
  starts_with p l = true → (length p ≤ length l)%nat.
Proof.
  revert l. induction p as [|a p IH]; intros [|b l]; simpl; try done; try lia.
  intros [_ H]%andb_true_iff. apply IH in H. lia.
Qed.

Lemma index_of_bound (sub l : list ascii) (i : nat) :
  index_of sub l = Some i → (i + length sub ≤ length l)%nat.
Proof.
  revert i. induction l as [|c l IH]; intros i; simpl.
  - destruct (starts_with sub []) eqn:E; [|done]. intros [= <-].
    apply starts_with_length in E. simpl in *. lia.
  - destruct (starts_with sub (c :: l)) eqn:E.
    + intros [= <-]. apply starts_with_length in E. simpl in *. lia.
    + destruct (index_of sub l) as [j|]; simpl; [|done].
      intros [= <-]. specialize (IH j eq_refl). lia.
Qed.

(** A successful [find] returns a position at which the whole of [sub]
    fits into [s]. *)
Lemma find_bound (s sub : string) (start : nat) :
  find s sub start ≠ (-1)%Z →
  (0 ≤ find s sub start)%Z
  ∧ (find s sub start + Z.of_nat (len sub) ≤ Z.of_nat (len s))%Z.
Proof.
  unfold find. destruct (len s <? start)%nat eqn:E; [done|].
  apply Nat.ltb_ge in E.
  destruct (index_of (chars sub) (drop start (chars s))) as [i|] eqn:Ei; [|done].
  intros _. apply index_of_bound in Ei. rewrite length_drop in Ei.
  unfold len in *. lia.
Qed.

Lemma py_index_in_range {A} (l : list A) (i : Z) :
  (0 ≤ i < Z.of_nat (length l))%Z → ∃ x, py_index l i = Ok x.
Proof.
  intros Hi. unfold py_index.
  destruct (i <? 0)%Z eqn:E1; [lia|]. rewrite E1.
  destruct (l !! Z.to_nat i) as [x|] eqn:E2; [eauto|].
  apply lookup_ge_None in E2. lia.
Qed.

End StringFacts.

(* ===================================================================== *)
(** * The chunker: dense indices, and the empty document *)
(* ===================================================================== *)

Section ChunkerFacts.

Import DocumentChunker.

(** Step 1 keeps one page label per character of the full text. *)
Lemma add_page_map_length (acc : string * list json) (p : page) :
  length acc.2 = len acc.1 →
  length (add_page acc p).2 = len (add_page acc p).1.
Proof.
  destruct acc as [full_text map']. simpl. intros H. unfold add_page.
  destruct (negb _); simpl; [done|].
  rewrite length_app, length_replicate, !len_app, H. lia.
Qed.

Lemma fold_add_page_map_length (ps : list page) (acc : string * list json) :
  length acc.2 = len acc.1 →
  length (fold_left add_page ps acc).2 = len (fold_left add_page ps acc).1.
Proof.
  revert acc. induction ps as [|p ps IH]; intros acc H; simpl; [done|].
  apply IH. by apply add_page_map_length.
Qed.

Lemma build_full_text_map_length (doc : cleaned_json) :
  length (build_full_text doc).2 = len (build_full_text doc).1.
Proof. unfold build_full_text. by apply fold_add_page_map_length. Qed.

(** Blank pages add nothing to the full text. *)
Lemma fold_add_page_blank (ps : list page) (acc : string * list json) :
  Forall page_blank ps → fold_left add_page ps acc = acc.
Proof.
  revert acc. induction ps as [|p ps IH]; intros acc H; simpl; [done|].
  inversion H as [|? ? Hp Hps]; subst. rewrite <- (IH acc Hps) at 2. f_equal.
  destruct acc as [full_text map']. unfold add_page, page_blank in *.
  by rewrite Hp.
Qed.

Lemma chunk_step_ok (pdf_name' full_text : string) (map' : list json)
    (st : loop_state) (chunk_text : string) :
  length map' = len full_text →
  loop_invariant st →
  ∃ st', chunk_step pdf_name' full_text map' st chunk_text = Ok st'
         ∧ loop_invariant st'.
Proof.
  intros Hmap Hinv. pose proof Hinv as [Hcount Hidx]. unfold chunk_step.
  destruct (len (strip chunk_text) <? 15)%nat eqn:Eshort; [by eauto|].
  apply Nat.ltb_ge in Eshort. pose proof (strip_length chunk_text) as Hstrip.
  set (start_char :=
         if (find full_text chunk_text (current_search_start st) =? -1)%Z
         then find full_text chunk_text 0
         else find full_text chunk_text (current_search_start st)).
  destruct (start_char =? -1)%Z eqn:Enot; [by eauto|].
  apply Z.eqb_neq in Enot.
  assert (Hb : (0 ≤ start_char)%Z
               ∧ (start_char + Z.of_nat (len chunk_text) ≤ Z.of_nat (len full_text))%Z).
  { subst start_char.
    destruct (find full_text chunk_text (current_search_start st) =? -1)%Z eqn:E.
    - by apply find_bound.
    - apply find_bound. by apply Z.eqb_neq. }
  destruct (py_index_in_range map' start_char) as [p1 Hp1]; [lia|].
  destruct (py_index_in_range map'
              (Z.min (start_char + Z.of_nat (len chunk_text) - 1)
                 (Z.of_nat (length map') - 1))) as [p2 Hp2]; [lia|].
  rewrite Hp1. simpl. rewrite Hp2. simpl. eexists. split; [reflexivity|].
  unfold loop_invariant, chunk_indices in *. simpl.
  rewrite length_app, map_app, Hidx. simpl. split; [lia|].
  rewrite Nat.add_1_r, seq_S. simpl. by rewrite Hcount.
Qed.

Lemma chunk_loop_ok (pdf_name' full_text : string) (map' : list json)
    (pieces : list string) (st : loop_state) :
  length map' = len full_text →
  loop_invariant st →
  ∃ st', chunk_loop pdf_name' full_text map' pieces st = Ok st'
         ∧ loop_invariant st'.
Proof.
  intros Hmap. revert st. induction pieces as [|piece pieces IH]; intros st Hinv; simpl.
  - eauto.
  - destruct (chunk_step_ok pdf_name' full_text map' st piece Hmap Hinv)
      as (st1 & Hstep & Hinv1).
    rewrite Hstep. simpl. by apply IH.
Qed.

End ChunkerFacts.

(** C7. Whenever the document has content, [chunk_document] returns, whatever
    pieces the splitter hands back: a piece under 15 stripped characters and
    a piece that is found nowhere in the full text are passed over, and
    no lookup in the page map fails.  The [chunk_index] values of the chunks
    it returns and writes are 0, 1, ..., n-1 in output order, and
    [total_chunks] is n.  The only exception of [chunk_document] is the one
    for a document without content. *)
Theorem chunk_indices_are_dense :
  ∀ (self : DocumentChunker.t) (cleaned_json_path : string)
    (doc : DocumentChunker.cleaned_json) (output_path : option string)
    (fs : DocumentChunker.files),
    if str_truthy (strip (DocumentChunker.build_full_text doc).1) then
      ∃ chunked,
        DocumentChunker.chunk_document self cleaned_json_path doc output_path fs
        = (Ok chunked, <[chunks_path self doc output_path := chunked]> fs)
        ∧ chunk_indices (DocumentChunker.chunks chunked)
          = seq 0 (length (DocumentChunker.chunks chunked))
        ∧ DocumentChunker.total_chunks chunked
          = length (DocumentChunker.chunks chunked)
    else
      DocumentChunker.chunk_document self cleaned_json_path doc output_path fs
      = (Raise (ValueError "No content found to chunk."), fs).
Proof.
  intros self path doc out fs. unfold DocumentChunker.chunk_document.
  pose proof (build_full_text_map_length doc) as Hmap.
  destruct (DocumentChunker.build_full_text doc) as [full_text map'].
  simpl in *.
  destruct (str_truthy (strip full_text)); simpl; [|done].
  destruct (chunk_loop_ok (default "unknown" (DocumentChunker.pdf_name doc))
              full_text map' (DocumentChunker.split_text self full_text)
              {| DocumentChunker.all_chunks := [];
                 DocumentChunker.chunk_counter := 0;
                 DocumentChunker.current_search_start := 0 |} Hmap)
    as (st & Hloop & Hcount & Hidx); [by split|].
  rewrite Hloop. eexists. split; [reflexivity|]. simpl. by split.
Qed.

(** The run of the example: of the four pieces of the splitter the second
    is too short and the third is found nowhere; the two others become the
    chunks 0 and 1, on pages 1 and 2. *)
Example chunk_document_skips_pieces :
  match DocumentChunker.chunk_document example_chunker "cleaned/emi_rules_cleaned.json"
          example_cleaned_json None ∅ with
  | (Ok chunked, fs) =>
      map DocumentChunker.id (DocumentChunker.chunks chunked)
      = ["emi_rules_0"; "emi_rules_1"]
      ∧ chunk_indices (DocumentChunker.chunks chunked) = [0; 1]%nat
      ∧ map (fun c => DocumentChunker.start_page (DocumentChunker.metadata c))
          (DocumentChunker.chunks chunked) = [JNum 1%float; JNum 2%float]
      ∧ fs !! "chunked/text_chunk/emi_rules_chunks.json" = Some chunked
  | (Raise _, _) => False
  end.
Proof. vm_compute. done. Qed.

(** C10. When the cleaned text of every page is empty or blank,
    [chunk_document] raises [ValueError("No content found to chunk.")]: it
    returns no chunk set and writes no file. *)
Theorem blank_document_raises_value_error :
  ∀ (self : DocumentChunker.t) (cleaned_json_path : string)
    (doc : DocumentChunker.cleaned_json) (output_path : option string)
    (fs : DocumentChunker.files),
    Forall page_blank (default [] (DocumentChunker.pages doc)) →
    DocumentChunker.chunk_document self cleaned_json_path doc output_path fs
    = (Raise (ValueError "No content found to chunk."), fs).
Proof.
  intros self path doc out fs Hblank. unfold DocumentChunker.chunk_document.
  unfold DocumentChunker.build_full_text.
  rewrite (fold_add_page_blank _ _ Hblank). reflexivity.
Qed.

Lemma blank_document_raises_value_error_witness :
  DocumentChunker.chunk_document example_chunker "cleaned/cover_cleaned.json"
    example_blank_json None ∅
  = (Raise (ValueError "No content found to chunk."), ∅).
Proof.
  apply (blank_document_raises_value_error example_chunker
           "cleaned/cover_cleaned.json" example_blank_json None ∅).
  repeat constructor.
Defined.

(* ===================================================================== *)
(** * Regular expressions: the matchers against the words *)
(* ===================================================================== *)

Section RegexFacts.

Import Re.

Lemma lang_void_inv (l : list ascii) : ¬ lang Void l.
Proof. intros H. inversion H. Qed.

Lemma lang_eps_inv (l : list ascii) : lang Eps l → l = [].
Proof. intros H. by inversion H. Qed.

Lemma lang_cls_inv (p : ascii → bool) (l : list ascii) :
  lang (Cls p) l → ∃ c, l = [c] ∧ p c = true.
Proof. intros H. inversion H; subst. eauto. Qed.

Lemma lang_cat_inv (r1 r2 : re) (l : list ascii) :
  lang (Cat r1 r2) l → ∃ l1 l2, l = l1 ++ l2 ∧ lang r1 l1 ∧ lang r2 l2.
Proof. intros H. inversion H; subst. eauto. Qed.

Lemma lang_alt_inv (r1 r2 : re) (l : list ascii) :
  lang (Alt r1 r2) l → lang r1 l ∨ lang r2 l.
Proof. intros H. inversion H; subst; auto. Qed.

(** A non-empty word of [r*] starts with a non-empty word of [r]. *)
Lemma lang_star_cons (r : re) (c : ascii) (l : list ascii) :
  lang (Star r) (c :: l) →
  ∃ l1 l2, l = l1 ++ l2 ∧ lang r (c :: l1) ∧ lang (Star r) l2.
Proof.
  intros H. remember (Star r) as r' eqn:Er. remember (c :: l) as w eqn:Ew.
  revert c l Er Ew.
  induction H as [| | | | | |r0 l1 l2 H1 _ H2 IH2]; intros c0 l0 Er Ew;
    try discriminate.
  injection Er as ->. destruct l1 as [|c1 l1]; simpl in Ew.
  - by apply IH2.
  - injection Ew as -> <-. eauto.
Qed.

Lemma nullable_spec (r : re) : nullable r = true ↔ lang r [].
Proof.
  induction r as [| |p|r1 IH1 r2 IH2|r1 IH1 r2 IH2|r IH]; simpl.
  - split; [done|]. intros H. by apply lang_void_inv in H.
  - split; [intros _; constructor | done].
  - split; [done|]. intros (c & H & _)%lang_cls_inv. discriminate.
  - rewrite andb_true_iff, IH1, IH2. split.
    + intros [H1 H2]. by apply (lang_cat r1 r2 [] []).
    + intros (l1 & l2 & Hl & H1 & H2)%lang_cat_inv.
      symmetry in Hl. apply app_eq_nil in Hl as [-> ->]. done.
  - rewrite orb_true_iff, IH1, IH2. split.
    + intros [H|H]; [by apply lang_alt_l | by apply lang_alt_r].
    + apply lang_alt_inv.
  - split; [intros _; constructor | done].
Qed.

Lemma deriv_spec (c : ascii) (r : re) (l : list ascii) :
  lang (deriv c r) l ↔ lang r (c :: l).
Proof.
  revert l. induction r as [| |p|r1 IH1 r2 IH2|r1 IH1 r2 IH2|r IH]; intros l; simpl.
  - split; intros H; by apply lang_void_inv in H.
  - split; intros H; [by apply lang_void_inv in H | by apply lang_eps_inv in H].
  - destruct (p c) eqn:Ep; split; intros H.
    + apply lang_eps_inv in H as ->. by constructor.
    + apply lang_cls_inv in H as (c' & [= -> ->] & _). constructor.
    + by apply lang_void_inv in H.
    + apply lang_cls_inv in H as (c' & [= -> ->] & Hp). congruence.
  - assert (Hcat : lang (Cat (deriv c r1) r2) l → lang (Cat r1 r2) (c :: l)).
    { intros (l1 & l2 & -> & H1 & H2)%lang_cat_inv. apply IH1 in H1.
      by apply (lang_cat r1 r2 (c :: l1) l2). }
    assert (Hinv : lang (Cat r1 r2) (c :: l) →
                   lang (Cat (deriv c r1) r2) l
                   ∨ (lang r1 [] ∧ lang (deriv c r2) l)).
    { intros (l1 & l2 & Hl & H1 & H2)%lang_cat_inv. destruct l1 as [|c1 l1].
      - simpl in Hl. subst l2. right. split; [done|]. by apply IH2.
      - injection Hl as <- ->. left. apply lang_cat; [by apply IH1 | done]. }
    destruct (nullable r1) eqn:En; split; intros H.
    + apply lang_alt_inv in H as [H|H]; [by apply Hcat|].
      apply IH2 in H. apply nullable_spec in En.
      by apply (lang_cat r1 r2 [] (c :: l)).
    + apply Hinv in H as [H|[_ H]]; [by apply lang_alt_l | by apply lang_alt_r].
    + by apply Hcat.
    + apply Hinv in H as [H|[H _]]; [done|].
      apply nullable_spec in H. congruence.
  - split.
    + intros [H|H]%lang_alt_inv; [apply lang_alt_l, IH1 | apply lang_alt_r, IH2]; done.
    + intros [H|H]%lang_alt_inv; [apply lang_alt_l, IH1 | apply lang_alt_r, IH2]; done.
  - split.
    + intros (l1 & l2 & -> & H1 & H2)%lang_cat_inv. apply IH in H1.
      by apply (lang_star_app r (c :: l1) l2).
    + intros (l1 & l2 & -> & H1 & H2)%lang_star_cons.
      apply lang_cat; [by apply IH | done].
Qed.

Lemma matches_spec (r : re) (l : list ascii) : matches r l = true ↔ lang r l.
Proof.
  revert r. induction l as [|c l IH]; intros r; simpl.
  - apply nullable_spec.
  - by rewrite IH, deriv_spec.
Qed.

(** [match_prefix] finds a word of [r] at the start of [l]. *)
Lemma match_prefix_spec (r : re) (l : list ascii) :
  match_prefix r l = true ↔ ∃ l1 l2, l = l1 ++ l2 ∧ lang r l1.
Proof.
  revert r. induction l as [|c l IH]; intros r; simpl.
  - rewrite orb_false_r, nullable_spec. split.
    + intros H. by exists [], [].
    + intros (l1 & l2 & Hl & H). symmetry in Hl.
      apply app_eq_nil in Hl as [-> _]. done.
  - rewrite orb_true_iff, nullable_spec, IH. split.
    + intros [H|(l1 & l2 & -> & H)].
      * by exists [], (c :: l).
      * apply deriv_spec in H. by exists (c :: l1), l2.
    + intros (l1 & l2 & Hl & H). destruct l1 as [|c1 l1].
      * by left.
      * injection Hl as <- ->. right. exists l1, l2. split; [done|].
        by apply deriv_spec.
Qed.

(** [search] finds a word of [r] anywhere in [l]. *)
Lemma search_spec (r : re) (l : list ascii) :
  search r l = true ↔ ∃ pre mid post, l = pre ++ mid ++ post ∧ lang r mid.
Proof.
  induction l as [|c l IH].
  - change (search r []) with (match_prefix r [] || false).
    rewrite orb_false_r, match_prefix_spec. split.
    + intros (l1 & l2 & Hl & H). by exists [], l1, l2.
    + intros (pre & mid & post & Hl & H). symmetry in Hl.
      apply app_eq_nil in Hl as [_ Hl]. apply app_eq_nil in Hl as [-> _].
      by exists [], [].
  - change (search r (c :: l)) with (match_prefix r (c :: l) || search r l).
    rewrite orb_true_iff, IH, match_prefix_spec. split.
    + intros [(l1 & l2 & Hl & H)|(pre & mid & post & -> & H)].
      * by exists [], l1, l2.
      * by exists (c :: pre), mid, post.
    + intros (pre & mid & post & Hl & H). destruct pre as [|c1 pre].
      * left. by exists mid, post.
      * injection Hl as <- ->. right. by exists pre, mid, post.
Qed.

(** Words of the derived forms. *)
Lemma lang_seq_cons (r : re) (rs : list re) (l1 l2 : list ascii) :
  lang r l1 → lang (Seq rs) l2 → lang (Seq (r :: rs)) (l1 ++ l2).
Proof.
  intros H1 H2. destruct rs as [|r' rs]; simpl in *.
  - apply lang_eps_inv in H2 as ->. by rewrite app_nil_r.
  - by apply lang_cat.
Qed.

Lemma lang_plus_one (r : re) (l : list ascii) : lang r l → lang (Plus r) l.
Proof.
  intros H. rewrite <- (app_nil_r l). apply lang_cat; [done | constructor].
Qed.

Lemma lang_opt_nil (r : re) : lang (Opt r) [].
Proof. apply lang_alt_r. constructor. Qed.



Lemma lang_lit_i (m l : list ascii) :
  map lower_char l = map lower_char m → lang (LitI m) l.
Proof.
  revert l. induction m as [|c m IH]; intros [|x l]; simpl; try done.
  - intros _. constructor.
  - intros [= Hx Hl]. apply (lang_cat (ChrI c) _ [x] l); [|by apply IH].
    constructor. rewrite Hx. apply Ascii.eqb_refl.
Qed.

End RegexFacts.

(* ===================================================================== *)
(** * Strings: [strip], [in], [endswith], word boundaries *)
(* ===================================================================== *)

Section StripFacts.

Lemma drop_space_idem (l : list ascii) : drop_space (drop_space l) = drop_space l.
Proof.
  induction l as [|c l IH]; simpl; [done|].
  destruct (isspace c) eqn:E; [done|]. simpl. by rewrite E.
Qed.

Lemma rstrip_idem (l : list ascii) : rstrip_chars (rstrip_chars l) = rstrip_chars l.
Proof.
  induction l as [|c l IH]; simpl; [done|].
  destruct (rstrip_chars l) as [|c' r] eqn:E.
  - destruct (isspace c) eqn:Ec; simpl; [done|]. by rewrite Ec.
  - change (rstrip_chars (c :: c' :: r))
      with (match rstrip_chars (c' :: r) with
            | [] => if isspace c then [] else [c]
            | r' => c :: r'
            end).
    by rewrite IH.
Qed.

(** Stripping on the left and on the right commute. *)
Lemma drop_space_rstrip (l : list ascii) :
  drop_space (rstrip_chars l) = rstrip_chars (drop_space l).
Proof.
  induction l as [|c l IH]; simpl; [done|].
  destruct (isspace c) eqn:Ec.
  - rewrite <- IH. destruct (rstrip_chars l) as [|c' r]; simpl; by rewrite ?Ec.
  - change (rstrip_chars (c :: l))
      with (match rstrip_chars l with
            | [] => if isspace c then [] else [c]
            | r' => c :: r'
            end).
    destruct (rstrip_chars l) as [|c' r]; rewrite ?Ec; simpl; by rewrite Ec.
Qed.

Lemma strip_chars_idem (l : list ascii) : strip_chars (strip_chars l) = strip_chars l.
Proof.
  unfold strip_chars.
  by rewrite drop_space_rstrip, drop_space_idem, rstrip_idem.
Qed.

Lemma strip_idem (s : string) : strip (strip s) = strip s.
Proof. unfold strip. by rewrite chars_str, strip_chars_idem. Qed.

(** A text of spaces only strips to nothing, and so does each of its
    lines. *)
Lemma drop_space_nil (l : list ascii) :
  drop_space l = [] ↔ Forall (fun c => isspace c = true) l.
Proof.
  induction l as [|c l IH]; simpl; [by split|].
  destruct (isspace c) eqn:E.
  - rewrite IH. split; [by constructor | by inversion 1].
  - split; [done|]. inversion 1; congruence.
Qed.

Lemma rstrip_nil (l : list ascii) :
  rstrip_chars l = [] ↔ Forall (fun c => isspace c = true) l.
Proof.
  induction l as [|c l IH]; simpl; [by split|].
  destruct (rstrip_chars l) as [|c' r] eqn:E.
  - destruct (isspace c) eqn:Ec.
    + split; [|done]. intros _. constructor; [done|]. by apply IH.
    + split; [done|]. inversion 1; congruence.
  - split; [done|]. inversion 1 as [|? ? _ Hl]; subst. by apply IH in Hl.
Qed.

Lemma rstrip_suffix_spaces (l : list ascii) :
  ∃ ws, l = rstrip_chars l ++ ws ∧ Forall (fun c => isspace c = true) ws.
Proof.
  induction l as [|c l (ws & Hl & Hws)]; simpl; [by exists []|].
  destruct (rstrip_chars l) as [|c' r] eqn:E.
  - simpl in Hl. subst ws. destruct (isspace c) eqn:Ec.
    + exists (c :: l). split; [done | by constructor].
    + by exists l.
  - exists ws. split; [|done]. simpl. by rewrite Hl at 1.
Qed.

Lemma drop_space_prefix_spaces (l : list ascii) :
  ∃ ws, l = ws ++ drop_space l ∧ Forall (fun c => isspace c = true) ws.
Proof.
  induction l as [|c l (ws & Hl & Hws)]; simpl; [by exists []|].
  destruct (isspace c) eqn:Ec.
  - exists (c :: ws). split; [simpl; by rewrite <- Hl | by constructor].
  - by exists [].
Qed.

Lemma strip_chars_nil (l : list ascii) :
  strip_chars l = [] ↔ Forall (fun c => isspace c = true) l.
Proof.
  unfold strip_chars. rewrite rstrip_nil. split.
  - intros H. destruct (drop_space_prefix_spaces l) as (ws & Hl & Hws).
    rewrite Hl. apply Forall_app. by split.
  - intros H. destruct (drop_space_prefix_spaces l) as (ws & Hl & Hws).
    rewrite Hl in H. by apply Forall_app in H as [_ H].
Qed.

Lemma split_chars_forall (P : ascii → Prop) (sep : ascii) (l : list ascii) :
  Forall P l → Forall (Forall P) (split_chars sep l).
Proof.
  induction 1 as [|c l Hc Hl IH]; simpl; [by repeat constructor|].
  destruct (Ascii.eqb c sep); [by constructor|].
  destruct (split_chars sep l) as [|w ws]; [by repeat constructor|].
  inversion IH; subst. constructor; [by constructor | done].
Qed.

Lemma str_truthy_str (l : list ascii) : str_truthy (str l) = list_truthy l.
Proof. by destruct l. Qed.

Lemma strip_truthy (s : string) :
  str_truthy (strip s) = false ↔ Forall (fun c => isspace c = true) (chars s).
Proof.
  unfold strip. rewrite str_truthy_str, <- strip_chars_nil.
  destruct (strip_chars (chars s)); simpl; split; done.
Qed.

End StripFacts.

Section OccurrenceFacts.

Lemma starts_with_spec (p l : list ascii) :
  starts_with p l = true ↔ ∃ rest, l = p ++ rest.
Proof.
  revert l. induction p as [|a p IH]; intros l; simpl.
  - split; [intros _; by exists l | done].
  - destruct l as [|b l].
    + split; [done | by intros [rest H]].
    + rewrite andb_true_iff, Ascii.eqb_eq, IH. split.
      * intros [-> [rest ->]]. by exists rest.
      * intros [rest [= -> ->]]. split; [done | by exists rest].
Qed.

Lemma index_of_is_some (sub l : list ascii) :
  is_Some (index_of sub l) ↔ occurs sub l.
Proof.
  unfold occurs. induction l as [|c l IH]; simpl.
  - destruct (starts_with sub []) eqn:E.
    + split; [|by eauto]. intros _. apply starts_with_spec in E as [rest E].
      exists [], rest. done.
    + split; [by intros [? ?]|]. intros (pre & post & H).
      symmetry in H. apply app_eq_nil in H as [-> H].
      assert (starts_with sub [] = true); [|congruence].
      apply starts_with_spec. exists post. by rewrite H.
  - destruct (starts_with sub (c :: l)) eqn:E.
    + split; [|by eauto]. intros _. apply starts_with_spec in E as [rest E].
      exists [], rest. done.
    + rewrite fmap_is_Some, IH. split.
      * intros (pre & post & ->). by exists (c :: pre), post.
      * intros (pre & post & H). destruct pre as [|c' pre].
        -- assert (starts_with sub (c :: l) = true); [|congruence].
           apply starts_with_spec. exists post. by rewrite H.
        -- injection H as -> ->. by exists pre, post.
Qed.

Lemma contains_spec (s sub : string) :
  contains s sub = true ↔ occurs (chars sub) (chars s).
Proof. unfold contains. by rewrite bool_decide_eq_true, index_of_is_some. Qed.




End OccurrenceFacts.

Section BoundaryFacts.

Import Re.





End BoundaryFacts.

(* ===================================================================== *)
(** * The text cleaner: counters and detected lines *)
(* ===================================================================== *)

Section CounterFacts.

Import TextCleaner.

Lemma occurrences_cons (x y : string) (l : list string) :
  occurrences x (y :: l)
  = ((if decide (y = x) then 1 else 0) + occurrences x l)%nat.
Proof. unfold occurrences. rewrite filter_cons. by destruct (decide (y = x)). Qed.

Lemma occurrences_pos (x : string) (l : list string) :
  (0 < occurrences x l)%nat ↔ x ∈ l.
Proof.
  induction l as [|y l IH].
  { rewrite elem_of_nil. unfold occurrences. simpl. lia. }
  rewrite occurrences_cons, elem_of_cons.
  destruct (decide (y = x)) as [->|Hne]; [split; [by left | lia]|].
  simpl. rewrite IH. split; [by right | by intros [->|]].
Qed.

Lemma incr_lookup (c : counter) (y x : string) :
  incr c y !! x
  = if decide (y = x) then Some (S (default 0%nat (c !! x))) else c !! x.
Proof.
  unfold incr. destruct (decide (y = x)) as [->|Hne].
  - by rewrite lookup_insert_eq.
  - by rewrite lookup_insert_ne.
Qed.

(** After counting the lines of [l], the count of a line is what it was
    plus its occurrences in [l]; a line that neither occurs nor was counted
    before has no entry. *)
Lemma fold_incr_lookup (l : list string) (c : counter) (x : string) :
  fold_left incr l c !! x
  = match occurrences x l with
    | O => c !! x
    | S n => Some (S n + default 0%nat (c !! x))%nat
    end.
Proof.
  revert c. induction l as [|y l IH]; intros c; simpl; [done|].
  rewrite IH, occurrences_cons, incr_lookup.
  destruct (decide (y = x)) as [->|Hne]; simpl.
  - destruct (occurrences x l); simpl; f_equal; lia.
  - done.
Qed.

Lemma fold_incr_empty (l : list string) (x : string) (n : nat) :
  fold_left incr l ∅ !! x = Some n ↔ x ∈ l ∧ n = occurrences x l.
Proof.
  rewrite fold_incr_lookup, lookup_empty, <- occurrences_pos.
  destruct (occurrences x l) as [|k]; simpl.
  - split; [done | lia].
  - rewrite Nat.add_0_r. split; [intros [= <-]; split; [lia | done]|].
    by intros [_ ->].
Qed.

(** [frequent] and [frequent_unprotected], entry by entry. *)
Lemma elem_of_frequent (c : counter) (m : Z) (x : string) :
  x ∈ frequent c m ↔ ∃ n, c !! x = Some n ∧ (m ≤ Z.of_nat n)%Z.
Proof.
  unfold frequent. rewrite elem_of_dom. unfold is_Some.
  setoid_rewrite map_lookup_filter_Some. simpl. done.
Qed.

Lemma elem_of_frequent_unprotected (c : counter) (m : Z) (x : string) :
  x ∈ frequent_unprotected c m
  ↔ ∃ n, c !! x = Some n ∧ (m ≤ Z.of_nat n)%Z ∧ _should_keep_line x = false.
Proof.
  unfold frequent_unprotected. rewrite elem_of_dom. unfold is_Some.
  setoid_rewrite map_lookup_filter_Some. simpl. done.
Qed.

(** The lines of a page are stripped and not empty; a blank page has
    none. *)
Lemma stripped_lines_truthy (t' : string) :
  Forall (fun line => str_truthy line = true) (stripped_lines t').
Proof.
  unfold stripped_lines. apply Forall_forall. intros x Hx.
  by apply list_elem_of_filter in Hx as [Hx _].
Qed.


Lemma stripped_lines_blank (t' : string) :
  str_truthy (strip t') = false → stripped_lines t' = [].
Proof.
  intros Hblank. apply strip_truthy in Hblank.
  unfold stripped_lines, split_lines.
  pose proof (split_chars_forall _ newline _ Hblank) as Hpieces.
  induction Hpieces as [|piece pieces Hp _ IH]; [done|].
  simpl. rewrite filter_cons. rewrite decide_False; [exact IH|].
  assert (str_truthy (strip (str piece)) = false); [|congruence].
  apply strip_truthy. by rewrite chars_str.
Qed.

Lemma filter_truthy_id (l : list string) :
  Forall (fun line => str_truthy line = true) l →
  filter (fun line => str_truthy line = true) l = l.
Proof.
  induction 1 as [|x l Hx _ IH]; [done|].
  rewrite filter_cons, decide_True by done. by rewrite IH.
Qed.

Lemma count_lines_fold (lines : list string) (c : counter) :
  Forall (fun line => str_truthy line = true) lines →
  count_lines lines c = fold_left incr lines c.
Proof. intros H. unfold count_lines. by rewrite filter_truthy_id. Qed.

Lemma Forall_filter_sub {A} (P : A → Prop) (Q : A → Prop) `{!∀ x, Decision (Q x)}
    (l : list A) :
  Forall P l → Forall P (filter Q l).
Proof.
  rewrite !Forall_forall. intros Hall x Hx.
  apply list_elem_of_filter in Hx as [_ Hx]. by apply Hall.
Qed.

(** One page of [analyze_document], whether the loop skips it or not. *)
Lemma count_page_eq (self : t) (cs : counters) (p : page) :
  let lines := stripped_lines (text_of p) in
  count_page self cs p
  = {| first_lines_counter := fold_left incr (first3 lines) (first_lines_counter cs);
       last_lines_counter := fold_left incr (last3 lines) (last_lines_counter cs);
       all_lines_counter :=
         fold_left incr
           (filter (fun line => (len line <=? max_line_length self)%nat = true) lines)
           (all_lines_counter cs) |}.
Proof.
  cbv zeta. unfold count_page. fold (text_of p).
  destruct (str_truthy (strip (text_of p))) eqn:Eblank; simpl negb; cbv iota.
  - pose proof (stripped_lines_truthy (text_of p)) as Htruthy.
    destruct (list_truthy (stripped_lines (text_of p))) eqn:E; simpl negb; cbv iota.
    + rewrite !count_lines_fold; [done| | |].
      * by apply Forall_filter_sub.
      * by apply Forall_drop.
      * by apply Forall_take.
    + destruct (stripped_lines (text_of p)); [by destruct cs | done].
  - rewrite (stripped_lines_blank _ Eblank). by destruct cs.
Qed.

(** The three counters after the loop: the occurrences of each line among
    the candidates of all pages. *)
Lemma count_pages_fold (self : t) (ps : list page) (cs : counters) :
  let cs' := fold_left (count_page self) ps cs in
  first_lines_counter cs'
  = fold_left incr (concat (map (fun p => first3 (stripped_lines (text_of p))) ps))
      (first_lines_counter cs)
  ∧ last_lines_counter cs'
    = fold_left incr (concat (map (fun p => last3 (stripped_lines (text_of p))) ps))
        (last_lines_counter cs)
  ∧ all_lines_counter cs'
    = fold_left incr
        (concat (map (fun p =>
                        filter (fun line =>
                                  (len line <=? max_line_length self)%nat = true)
                          (stripped_lines (text_of p))) ps))
        (all_lines_counter cs).
Proof.
  revert cs. induction ps as [|p ps IH]; intros cs; [done|].
  cbv zeta. simpl fold_left. simpl map. simpl concat.
  destruct (IH (count_page self cs p)) as (H1 & H2 & H3).
  rewrite H1, H2, H3, (count_page_eq self cs p). simpl.
  by rewrite !fold_left_app.
Qed.

Lemma count_pages_counters (self : t) (doc : document) :
  let cs := count_pages self (doc_pages doc) in
  first_lines_counter cs = fold_left incr (header_candidates doc) ∅
  ∧ last_lines_counter cs = fold_left incr (footer_candidates doc) ∅
  ∧ all_lines_counter cs = fold_left incr (global_candidates self doc) ∅.
Proof. apply (count_pages_fold self (doc_pages doc)). Qed.


End CounterFacts.

(* ===================================================================== *)
(** * The protection rule *)
(* ===================================================================== *)

Section ProtectionFacts.

Import TextCleaner.

Lemma number_re_digit (d : ascii) : isdigit d = true → Re.lang number_re [d].
Proof.
  intros Hd. unfold number_re. simpl Re.Seq.
  change [d] with ([d] ++ ([] ++ [])).
  apply Re.lang_cat; [apply lang_plus_one; by constructor|].
  apply Re.lang_cat; [apply lang_opt_nil | constructor].
Qed.








End ProtectionFacts.

Section AnalysisFacts.

Import TextCleaner.

(** Membership in the three sets, once the counters and the minimum counts
    are known. *)
Lemma frequent_candidates (cands : list string) (m : Z) (line : string) :
  line ∈ frequent (fold_left incr cands ∅) m
  ↔ line ∈ cands ∧ (m ≤ Z.of_nat (occurrences line cands))%Z.
Proof.
  rewrite elem_of_frequent. split.
  - intros (n & Hn & Hm). apply fold_incr_empty in Hn as [Hin ->]. done.
  - intros [Hin Hm]. exists (occurrences line cands). split; [|done].
    by apply fold_incr_empty.
Qed.

Lemma frequent_unprotected_candidates (cands : list string) (m : Z) (line : string) :
  line ∈ frequent_unprotected (fold_left incr cands ∅) m
  ↔ line ∈ cands ∧ (m ≤ Z.of_nat (occurrences line cands))%Z
    ∧ _should_keep_line line = false.
Proof.
  rewrite elem_of_frequent_unprotected. split.
  - intros (n & Hn & Hm & Hk). apply fold_incr_empty in Hn as [Hin ->]. done.
  - intros (Hin & Hm & Hk). exists (occurrences line cands).
    split; [by apply fold_incr_empty | done].
Qed.

Lemma min_count_ok (total : nat) (thr : float) (z : Z) :
  int_of_float (float_of_nat total * thr) = Ok z → min_count total thr = z.
Proof. unfold min_count. by intros ->. Qed.

End AnalysisFacts.

(** What [analyze_document] returns and leaves in the cleaner, in terms of
    the candidates of the document and their occurrences. *)
Lemma analyze_document_spec :
  ∀ (self : TextCleaner.t) (doc : TextCleaner.document),
    match TextCleaner.analyze_document self doc with
    | Ok (self', a) =>
        (∀ line,
           (line ∈ TextCleaner.headers a
            ↔ line ∈ header_candidates doc
              ∧ (min_count (length (doc_pages doc)) (TextCleaner.header_threshold self)
                 ≤ Z.of_nat (occurrences line (header_candidates doc)))%Z)
           ∧ (line ∈ TextCleaner.footers a
              ↔ line ∈ footer_candidates doc
                ∧ (min_count (length (doc_pages doc)) (TextCleaner.footer_threshold self)
                   ≤ Z.of_nat (occurrences line (footer_candidates doc)))%Z)
           ∧ (line ∈ TextCleaner.globally_frequent a
              ↔ line ∈ global_candidates self doc
                ∧ (min_count (length (doc_pages doc)) (TextCleaner.global_threshold self)
                   ≤ Z.of_nat (occurrences line (global_candidates self doc)))%Z
                ∧ TextCleaner._should_keep_line line = false))
        ∧ (doc_pages doc ≠ [] →
           TextCleaner.detected_headers self' = TextCleaner.headers a
           ∧ TextCleaner.detected_footers self' = TextCleaner.footers a
           ∧ TextCleaner.globally_frequent_lines self'
             = TextCleaner.globally_frequent a)
        ∧ (doc_pages doc = [] → self' = self)
    | Raise e =>
        doc_pages doc ≠ []
        ∧ ∃ thr,
            thr ∈ [TextCleaner.header_threshold self;
                   TextCleaner.footer_threshold self;
                   TextCleaner.global_threshold self]
            ∧ int_of_float (float_of_nat (length (doc_pages doc)) * thr) = Raise e
    end.
Proof.
  intros self doc. unfold TextCleaner.analyze_document. fold (doc_pages doc).
  destruct (doc_pages doc) as [|p ps] eqn:Epages.
  - (* no page: nothing is detected *)
    simpl. split; [|done]. intros line.
    unfold header_candidates, footer_candidates, global_candidates.
    rewrite Epages. simpl. rewrite !elem_of_nil.
    repeat split; try done; try (by intros ?%elem_of_empty); by intros [[] _].
  - rewrite <- Epages. replace (length (doc_pages doc) =? 0)%nat with false
      by (rewrite Epages; done).
    destruct (count_pages_counters self doc) as (Hfirst & Hlast & Hall).
    destruct (int_of_float (_ * TextCleaner.header_threshold self)) as [h|e] eqn:Eh;
      simpl.
    2:{ split; [by rewrite Epages|]. eexists. split; [|exact Eh]. apply list_elem_of_In; simpl; auto. }
    destruct (int_of_float (_ * TextCleaner.footer_threshold self)) as [f|e] eqn:Ef;
      simpl.
    2:{ split; [by rewrite Epages|]. eexists. split; [|exact Ef]. apply list_elem_of_In; simpl; auto. }
    destruct (int_of_float (_ * TextCleaner.global_threshold self)) as [g|e] eqn:Eg;
      simpl.
    2:{ split; [by rewrite Epages|]. eexists. split; [|exact Eg]. apply list_elem_of_In; simpl; auto. }
    rewrite (min_count_ok _ _ _ Eh), (min_count_ok _ _ _ Ef), (min_count_ok _ _ _ Eg).
    rewrite Hfirst, Hlast, Hall.
    split; [|split; [done | by rewrite Epages]].
    intros line. split; [apply frequent_candidates|].
    split; [apply frequent_candidates | apply frequent_unprotected_candidates].
Qed.

(** C5, as the code has it.  [analyze_document] detects a line as a header
    exactly when the line is among the header candidates (the first three
    non-blank lines of each page, stripped) and the number of its
    occurrences there, all pages together, is at least
    [int(total_pages * header_threshold)]: the product is truncated, and
    [total_pages] counts every page.  The same holds for footers with the
    last three lines and [footer_threshold].  A line is globally frequent
    exactly when it is a non-blank line of at most [max_line_length]
    characters, its occurrences number at least
    [int(total_pages * global_threshold)], and [_should_keep_line] does not
    protect it.  The analysis raises only when one of the three products is
    not a finite number. *)
Theorem detection_counts_occurrences_against_truncated_threshold :
  ∀ (self : TextCleaner.t) (doc : TextCleaner.document),
    match TextCleaner.analyze_document self doc with
    | Ok (self', a) =>
        (∀ line,
           (line ∈ TextCleaner.headers a
            ↔ line ∈ header_candidates doc
              ∧ (min_count (length (doc_pages doc)) (TextCleaner.header_threshold self)
                 ≤ Z.of_nat (occurrences line (header_candidates doc)))%Z)
           ∧ (line ∈ TextCleaner.footers a
              ↔ line ∈ footer_candidates doc
                ∧ (min_count (length (doc_pages doc)) (TextCleaner.footer_threshold self)
                   ≤ Z.of_nat (occurrences line (footer_candidates doc)))%Z)
           ∧ (line ∈ TextCleaner.globally_frequent a
              ↔ line ∈ global_candidates self doc
                ∧ (min_count (length (doc_pages doc)) (TextCleaner.global_threshold self)
                   ≤ Z.of_nat (occurrences line (global_candidates self doc)))%Z
                ∧ TextCleaner._should_keep_line line = false))
        ∧ (doc_pages doc ≠ [] →
           TextCleaner.detected_headers self' = TextCleaner.headers a
           ∧ TextCleaner.detected_footers self' = TextCleaner.footers a
           ∧ TextCleaner.globally_frequent_lines self'
             = TextCleaner.globally_frequent a)
        ∧ (doc_pages doc = [] → self' = self)
    | Raise e =>
        doc_pages doc ≠ []
        ∧ ∃ thr,
            thr ∈ [TextCleaner.header_threshold self;
                   TextCleaner.footer_threshold self;
                   TextCleaner.global_threshold self]
            ∧ int_of_float (float_of_nat (length (doc_pages doc)) * thr) = Raise e
    end.
Proof. exact analyze_document_spec. Qed.

(** C5, as the claim states it, fails.  With the default threshold of 0.3,
    the line [CONFIDENTIAL] is among the header candidates of one page out
    of four, a fraction of 0.25, and it is detected as a header: the
    minimum count is [int(4 * 0.3) = 1]. *)
Lemma header_detected_below_threshold_fraction :
  match TextCleaner.analyze_document TextCleaner.default_cleaner example_four_pages with
  | Ok (_, a) => bool_decide ("CONFIDENTIAL" ∈ TextCleaner.headers a)
  | Raise _ => false
  end = true
  ∧ pages_with_header_candidate "CONFIDENTIAL" example_four_pages = 1%nat
  ∧ length (doc_pages example_four_pages) = 4%nat
  ∧ PrimFloat.ltb (float_of_nat 1 / float_of_nat 4)
      (TextCleaner.header_threshold TextCleaner.default_cleaner) = true
  ∧ min_count 4 (TextCleaner.header_threshold TextCleaner.default_cleaner) = 1%Z.
Proof. vm_compute. done. Qed.



(** In the example, [Total 200 million] reaches the minimum count and is
    kept out of the set by the protection alone; the analysis returns. *)
Example protected_line_is_frequent_enough :
  match TextCleaner.analyze_document TextCleaner.default_cleaner example_four_pages with
  | Ok (_, a) =>
      bool_decide ("Total 200 million" ∈ TextCleaner.globally_frequent a) = false
      ∧ TextCleaner.global_counts a !! "Total 200 million" = Some 3%nat
      ∧ min_count 4 (TextCleaner.global_threshold TextCleaner.default_cleaner) = 1%Z
  | Raise _ => False
  end.
Proof. vm_compute. done. Qed.

(* ===================================================================== *)
(** * More on the retriever: construction and loaded collections *)
(* ===================================================================== *)

Section RetrieverInit.

Import Retriever.

Lemma first_populated_spec (c : client) (names : list string) :
  match first_populated c names with
  | Some col =>
      ∃ before name after,
        names = before ++ name :: after
        ∧ c !! name = Some col
        ∧ (0 < col_count col)%nat
        ∧ Forall (fun n => match c !! n with
                           | Some col' => col_count col' = 0%nat
                           | None => True
                           end) before
  | None =>
      Forall (fun n => match c !! n with
                       | Some col' => col_count col' = 0%nat
                       | None => True
                       end) names
  end.
Proof.
  induction names as [|name names IH]; simpl; [done|].
  unfold get_collection. destruct (c !! name) as [col|] eqn:E.
  - destruct (0 <? col_count col)%nat eqn:Ecount.
    + exists [], name, names. apply Nat.ltb_lt in Ecount. by repeat split.
    + apply Nat.ltb_ge in Ecount.
      destruct (first_populated c names) as [col'|].
      * destruct IH as (before & name' & after & -> & Hc & Hpos & Hbefore).
        exists (name :: before), name', after. repeat split; try done.
        constructor; [|done]. rewrite E. lia.
      * constructor; [|done]. rewrite E. lia.
  - destruct (first_populated c names) as [col'|].
    + destruct IH as (before & name' & after & -> & Hc & Hpos & Hbefore).
      exists (name :: before), name', after. repeat split; try done.
      constructor; [|done]. by rewrite E.
    + constructor; [|done]. by rewrite E.
Qed.

(** What the two loaders add to the lists of a retriever. *)
Lemma load_regulatory_spec (self : t) :
  _load_regulatory_collections self
  = {| mode := mode self; upload_id := upload_id self;
       the_client := the_client self; embedder := embedder self;
       text_collections :=
         text_collections self
         ++ match first_populated (the_client self)
                    ["finreg_regulatory_text_store"; "finreg_text_store"] with
            | Some col => [("regulatory", col)]
            | None => []
            end;
       image_collections :=
         image_collections self
         ++ match first_populated (the_client self)
                    ["finreg_regulatory_image_store"; "finreg_image_store"] with
            | Some col => [("regulatory", col)]
            | None => []
            end |}.
Proof.
  unfold _load_regulatory_collections. cbv zeta.
  destruct (first_populated (the_client self)
              ["finreg_regulatory_text_store"; "finreg_text_store"]);
    cbn [the_client mode upload_id embedder text_collections image_collections];
    destruct (first_populated (the_client self)
                ["finreg_regulatory_image_store"; "finreg_image_store"]);
    cbn [the_client mode upload_id embedder text_collections image_collections];
    rewrite ?app_nil_r; by destruct self.
Qed.

Lemma load_uploaded_spec (self : t) (u : string) :
  _load_uploaded_collections self u
  = {| mode := mode self; upload_id := upload_id self;
       the_client := the_client self; embedder := embedder self;
       text_collections :=
         text_collections self
         ++ match the_client self !! ("finreg_uploaded_text_" +:+ u) with
            | Some col => [("uploaded", col)]
            | None => []
            end;
       image_collections :=
         image_collections self
         ++ match the_client self !! ("finreg_uploaded_image_" +:+ u) with
            | Some col => [("uploaded", col)]
            | None => []
            end |}.
Proof.
  unfold _load_uploaded_collections, get_collection. cbv zeta.
  destruct (the_client self !! ("finreg_uploaded_text_" +:+ u));
    cbn [the_client mode upload_id embedder text_collections image_collections];
    destruct (the_client self !! ("finreg_uploaded_image_" +:+ u));
    cbn [the_client mode upload_id embedder text_collections image_collections];
    rewrite ?app_nil_r; by destruct self.
Qed.

(** The collections [__init__] loads, by mode. *)
Lemma init_collections (c : client) (emb : string → embedding) (mode' : json)
    (u : option string) (r : t) :
  init c emb mode' u = Ok r →
  mode r = mode' ∧ upload_id r = u ∧ embedder r = emb
  ∧ text_collections r
    = (if json_in mode' ["regulatory_only"; "compare"]
       then match first_populated c ["finreg_regulatory_text_store"; "finreg_text_store"] with
            | Some col => [("regulatory", col)]
            | None => []
            end
       else [])
      ++ (if json_in mode' ["uploaded_only"; "compare"]
          then match c !! ("finreg_uploaded_text_" +:+ default "" u) with
               | Some col => [("uploaded", col)]
               | None => []
               end
          else [])
  ∧ image_collections r
    = (if json_in mode' ["regulatory_only"; "compare"]
       then match first_populated c ["finreg_regulatory_image_store"; "finreg_image_store"] with
            | Some col => [("regulatory", col)]
            | None => []
            end
       else [])
      ++ (if json_in mode' ["uploaded_only"; "compare"]
          then match c !! ("finreg_uploaded_image_" +:+ default "" u) with
               | Some col => [("uploaded", col)]
               | None => []
               end
          else []).
Proof.
  unfold init. cbv zeta.
  destruct (json_in mode' ["regulatory_only"; "compare"]);
    destruct (json_in mode' ["uploaded_only"; "compare"]).
  - destruct u as [u'|]; [|done]. destruct (str_truthy u'); [|done].
    intros [= <-]. rewrite load_uploaded_spec, load_regulatory_spec. by simpl.
  - intros [= <-]. rewrite load_regulatory_spec. simpl. by rewrite !app_nil_r.
  - destruct u as [u'|]; [|done]. destruct (str_truthy u'); [|done].
    intros [= <-]. rewrite load_uploaded_spec. by simpl.
  - intros [= <-]. by simpl.
Qed.

Lemma init_ok (c : client) (emb : string → embedding) (mode' : json)
    (u : option string) :
  json_in mode' ["uploaded_only"; "compare"] && negb (opt_str_truthy u) = false →
  ∃ r, init c emb mode' u = Ok r.
Proof.
  intros E. unfold init. cbv zeta.
  destruct (json_in mode' ["uploaded_only"; "compare"]); [|eauto].
  simpl in E. destruct u as [u'|]; [|done]. simpl in E.
  destruct (str_truthy u'); [eauto | done].
Qed.

(** The four buckets of [search]: the hits of the loaded collections, by
    label. *)
Lemma search_buckets (self : t) (q : string) :
  let qe := embedder self q in
  let hits (uploaded : bool) (cols : list (string * collection)) :=
    concat (map (fun lc => _search lc.2 qe (k_of self))
              (filter (fun lc => String.eqb lc.1 "uploaded" = uploaded) cols)) in
  uploaded_text (search self q) = hits true (text_collections self)
  ∧ regulatory_text (search self q) = hits false (text_collections self)
  ∧ uploaded_images (search self q) = hits true (image_collections self)
  ∧ regulatory_images (search self q) = hits false (image_collections self).
Proof.
  cbv zeta. unfold search. fold (k_of self).
  set (qe := embedder self q). set (k := k_of self).
  destruct (extend_text_fold qe k (text_collections self) empty_output)
    as (T1 & T2 & T3 & T4).
  destruct (extend_images_fold qe k (image_collections self)
              (fold_left (extend_text qe k) (text_collections self) empty_output))
    as (I1 & I2 & I3 & I4).
  by rewrite I1, I2, I3, I4, T1, T2, T3, T4.
Qed.

End RetrieverInit.

(** X1. [Retriever.__init__] raises the configuration error exactly when the
    mode is [uploaded_only] or [compare] and the upload id is missing or
    empty; in every other case it returns a retriever for that mode. *)
Theorem retriever_init_raises_iff_uploaded_mode_without_upload :
  ∀ (c : Retriever.client) (emb : string → Retriever.embedding) (mode : json)
    (u : option string),
    if json_in mode ["uploaded_only"; "compare"] && negb (opt_str_truthy u)
    then Retriever.init c emb mode u
         = Raise (ValueError "upload_id required for uploaded mode")
    else ∃ r, Retriever.init c emb mode u = Ok r
              ∧ Retriever.mode r = mode ∧ Retriever.upload_id r = u.
Proof.
  intros c emb mode u.
  destruct (json_in mode ["uploaded_only"; "compare"] && negb (opt_str_truthy u))
    eqn:E.
  - apply andb_true_iff in E as [Emode Eup]. unfold Retriever.init.
    rewrite Emode. cbv zeta. destruct u as [u'|]; [|done].
    simpl in Eup. by destruct (str_truthy u').
  - destruct (init_ok c emb mode u E) as [r Hr]. exists r. split; [done|].
    by apply init_collections in Hr as (? & ? & _).
Qed.

(** X2. The mode decides which corpus is searched.  For a retriever that
    [__init__] built: in a mode that is not [regulatory_only] or [compare]
    the two regulatory buckets of [search] are empty; in a mode that is not
    [uploaded_only] or [compare] the two uploaded buckets are empty; so for
    any other mode, [web] among them, [search] finds nothing. *)
Theorem search_buckets_follow_mode :
  ∀ (c : Retriever.client) (emb : string → Retriever.embedding) (mode : json)
    (u : option string) (r : Retriever.t) (q : string),
    Retriever.init c emb mode u = Ok r →
    (json_in mode ["regulatory_only"; "compare"] = false →
     Retriever.regulatory_text (Retriever.search r q) = []
     ∧ Retriever.regulatory_images (Retriever.search r q) = [])
    ∧ (json_in mode ["uploaded_only"; "compare"] = false →
       Retriever.uploaded_text (Retriever.search r q) = []
       ∧ Retriever.uploaded_images (Retriever.search r q) = [])
    ∧ (json_in mode ["regulatory_only"; "uploaded_only"; "compare"] = false →
       Retriever.search r q = Retriever.empty_output).
Proof.
  intros c emb mode u r q Einit.
  apply init_collections in Einit as (_ & _ & _ & Htext & Himage).
  destruct (search_buckets r q) as (B1 & B2 & B3 & B4). cbv beta zeta in B1, B2, B3, B4.
  assert (Hreg : json_in mode ["regulatory_only"; "compare"] = false →
                 Retriever.regulatory_text (Retriever.search r q) = []
                 ∧ Retriever.regulatory_images (Retriever.search r q) = []).
  { intros Hmode. rewrite B2, B4, Htext, Himage, Hmode.
    destruct (json_in mode ["uploaded_only"; "compare"]); [|done].
    split; simpl app;
      match goal with |- context [c !! ?k] => destruct (c !! k) end;
      cbv iota; try done; rewrite filter_cons; case_decide; done. }
  assert (Hupl : json_in mode ["uploaded_only"; "compare"] = false →
                 Retriever.uploaded_text (Retriever.search r q) = []
                 ∧ Retriever.uploaded_images (Retriever.search r q) = []).
  { intros Hmode. rewrite B1, B3, Htext, Himage, Hmode, !app_nil_r.
    destruct (json_in mode ["regulatory_only"; "compare"]); [|done].
    split;
      match goal with
      | |- context [Retriever.first_populated c ?l] =>
          destruct (Retriever.first_populated c l)
      end;
      cbv iota; try done; rewrite filter_cons; case_decide; done. }
  split; [exact Hreg|]. split; [exact Hupl|].
  intros Hmode.
  assert (H1 : json_in mode ["regulatory_only"; "compare"] = false).
  { destruct (json_in mode ["regulatory_only"; "compare"]) eqn:E; [|done].
    apply json_in_spec in E as (s & -> & Hs).
    apply list_elem_of_In in Hs. simpl in Hs.
    destruct Hs as [<-|[<-|[]]]; discriminate. }
  assert (H2 : json_in mode ["uploaded_only"; "compare"] = false).
  { destruct (json_in mode ["uploaded_only"; "compare"]) eqn:E; [|done].
    apply json_in_spec in E as (s & -> & Hs).
    apply list_elem_of_In in Hs. simpl in Hs.
    destruct Hs as [<-|[<-|[]]]; discriminate. }
  destruct (Hreg H1) as [R1 R2]. destruct (Hupl H2) as [U1 U2].
  clear - R1 R2 U1 U2.
  destruct (Retriever.search r q) as [a b c' d].
  cbn [Retriever.regulatory_text Retriever.regulatory_images
       Retriever.uploaded_text Retriever.uploaded_images] in *.
  subst. reflexivity.
Qed.

Lemma search_buckets_follow_mode_witness :
  Retriever.init example_two_stores (fun _ => []) (JStr "uploaded_only") (Some "s1")
  = Ok example_uploaded_retriever
  ∧ Retriever.regulatory_text
      (Retriever.search example_uploaded_retriever "capital of an EMI") = []
  ∧ Retriever.uploaded_text
      (Retriever.search example_uploaded_retriever "capital of an EMI")
    = [hit_of ("The applicant holds a paid-up capital of 200 million.",
               {["pdf_name" := Retriever.MStr "application"]}, 0.5%float)].
Proof.
  assert (Hinit : Retriever.init example_two_stores (fun _ => [])
                    (JStr "uploaded_only") (Some "s1")
                  = Ok example_uploaded_retriever) by (vm_compute; reflexivity).
  split; [exact Hinit|]. split.
  - destruct (search_buckets_follow_mode _ _ _ _ _ "capital of an EMI" Hinit)
      as (Hreg & _ & _).
    destruct (Hreg eq_refl) as [Htext _]. exact Htext.
  - reflexivity.
Defined.

(** X3. The regulatory text collection is looked up under the new name
    first and under the old name next: the retriever loads the first of the
    two that exists and holds at least one document, and loads none when
    neither does.  It never loads an empty collection. *)
Theorem regulatory_collection_falls_back_to_old_name :
  ∀ (c : Retriever.client) (emb : string → Retriever.embedding) (u : option string),
    ∃ r,
      Retriever.init c emb (JStr "regulatory_only") u = Ok r
      ∧ Forall (fun lc => lc.1 = "regulatory" ∧ (0 < Retriever.col_count lc.2)%nat)
          (Retriever.text_collections r ++ Retriever.image_collections r)
      ∧ Retriever.text_collections r
        = match c !! "finreg_regulatory_text_store", c !! "finreg_text_store" with
          | Some new, old =>
              if (0 <? Retriever.col_count new)%nat then [("regulatory", new)]
              else match old with
                   | Some old' =>
                       if (0 <? Retriever.col_count old')%nat
                       then [("regulatory", old')] else []
                   | None => []
                   end
          | None, Some old' =>
              if (0 <? Retriever.col_count old')%nat then [("regulatory", old')] else []
          | None, None => []
          end.
Proof.
  intros c emb u.
  destruct (init_ok c emb (JStr "regulatory_only") u eq_refl) as [r Hr].
  exists r. split; [exact Hr|].
  apply init_collections in Hr as (_ & _ & _ & Htext & Himage).
  change (json_in (JStr "regulatory_only") ["regulatory_only"; "compare"])
    with true in Htext, Himage.
  change (json_in (JStr "regulatory_only") ["uploaded_only"; "compare"])
    with false in Htext, Himage.
  cbv iota in Htext, Himage. rewrite app_nil_r in Htext, Himage.
  split.
  - rewrite Htext, Himage. clear Htext Himage. apply Forall_app. split.
    + pose proof (first_populated_spec c
                    ["finreg_regulatory_text_store"; "finreg_text_store"]) as H.
      destruct (Retriever.first_populated c
                  ["finreg_regulatory_text_store"; "finreg_text_store"]);
        [|constructor].
      destruct H as (? & ? & ? & _ & _ & Hpos & _). by repeat constructor.
    + pose proof (first_populated_spec c
                    ["finreg_regulatory_image_store"; "finreg_image_store"]) as H.
      destruct (Retriever.first_populated c
                  ["finreg_regulatory_image_store"; "finreg_image_store"]);
        [|constructor].
      destruct H as (? & ? & ? & _ & _ & Hpos & _). by repeat constructor.
  - rewrite Htext. simpl. unfold Retriever.get_collection.
    destruct (c !! "finreg_regulatory_text_store") as [new|];
      destruct (c !! "finreg_text_store") as [old'|];
      repeat match goal with
             | |- context [(0 <? ?n)%nat] => destruct (0 <? n)%nat
             end; done.
Qed.

(* ===================================================================== *)
(** * More on the agents and the query graph *)
(* ===================================================================== *)

Section WebCollect.

(** What the loop of [WebAgent.run] keeps true of [results] and
    [seen_urls], for results that all satisfy [Q]. *)
Lemma collect_fold (Q : ddgs_result → Prop) (rs : list ddgs_result)
    (results : list State.web_result) (seen : gset string) :
  Forall Q rs →
  (∀ u, u ∈ seen ↔ u ∈ map State.url results) →
  NoDup (map State.url results) →
  Forall (fun w => ∃ r, Q r ∧ href r = Some (State.url w)
                        ∧ State.title w = default "" (ddgs_title r)
                        ∧ State.snippet w = WebAgent.first_800 (default "" (body r)))
    results →
  let acc := fold_left WebAgent.collect_step rs (results, seen) in
  NoDup (map State.url acc.1)
  ∧ (∀ u, u ∈ map State.url acc.1
          ↔ u ∈ map State.url results
            ∨ (str_truthy u = true ∧ ∃ r, r ∈ rs ∧ href r = Some u))
  ∧ Forall (fun w => ∃ r, Q r ∧ href r = Some (State.url w)
                          ∧ State.title w = default "" (ddgs_title r)
                          ∧ State.snippet w = WebAgent.first_800 (default "" (body r)))
      acc.1
  ∧ (length acc.1 ≤ length results + length rs)%nat.
Proof.
  revert results seen.
  induction rs as [|r rs IH]; intros results seen HQ Hseen Hnd Hall; cbv zeta.
  - simpl. split; [done|]. split; [|split; [done|lia]].
    intros u. split; [by left|]. intros [H|(_ & r & Hr & _)]; [done|].
    by apply elem_of_nil in Hr.
  - apply Forall_cons in HQ as [HQr HQ].
    cbn [fold_left].
    assert (Hstep : WebAgent.collect_step (results, seen) r
                    = match href r with
                      | None => (results, seen)
                      | Some url =>
                          if negb (str_truthy url) || bool_decide (url ∈ seen)
                          then (results, seen)
                          else (results
                                ++ [{| State.title := default "" (ddgs_title r);
                                       State.url := url;
                                       State.snippet :=
                                         WebAgent.first_800 (default "" (body r)) |}],
                                {[url]} ∪ seen)
                      end) by reflexivity.
    rewrite Hstep. clear Hstep.
    destruct (href r) as [url|] eqn:Ehref.
    + destruct (negb (str_truthy url) || bool_decide (url ∈ seen)) eqn:Eskip.
      * (* the result is skipped *)
        destruct (IH results seen HQ Hseen Hnd Hall) as (N & U & A & L).
        split; [exact N|]. split; [|split; [exact A|simpl; lia]].
        intros u. rewrite U. split.
        -- intros [H|(Ht & r' & Hr' & Hh)]; [by left|].
           right. split; [done|]. exists r'. split; [by right|done].
        -- intros [H|(Ht & r' & Hr' & Hh)]; [by left|].
           apply elem_of_cons in Hr' as [-> |Hr'].
           ++ left. rewrite Ehref in Hh. injection Hh as ->.
              apply orb_true_iff in Eskip as [E|E].
              ** rewrite Ht in E. done.
              ** apply bool_decide_eq_true in E. by apply Hseen.
           ++ right. split; [done|]. by exists r'.
      * (* the result is appended *)
        apply orb_false_iff in Eskip as [Et Es].
        apply negb_false_iff in Et. apply bool_decide_eq_false in Es.
        set (w := {| State.title := default "" (ddgs_title r); State.url := url;
                     State.snippet := WebAgent.first_800 (default "" (body r)) |}).
        destruct (IH (results ++ [w]) ({[url]} ∪ seen) HQ) as (N & U & A & L).
        -- intros u. rewrite map_app, elem_of_app, elem_of_union, elem_of_singleton.
           simpl. rewrite list_elem_of_singleton, Hseen. tauto.
        -- rewrite map_app. simpl. apply NoDup_app. split; [done|].
           split; [|apply NoDup_singleton].
           intros x Hx Hx'. apply list_elem_of_singleton in Hx'. subst x.
           apply Es, Hseen, Hx.
        -- apply Forall_app. split; [done|]. constructor; [|done].
           exists r. by repeat split.
        -- split; [exact N|]. split; [|split; [exact A|]].
           ++ intros u. rewrite U, map_app, elem_of_app. simpl.
              rewrite list_elem_of_singleton. split.
              ** intros [[H| ->]|(Ht & r' & Hr' & Hh)].
                 --- by left.
                 --- right. split; [done|]. exists r. split; [by left|done].
                 --- right. split; [done|]. exists r'. split; [by right|done].
              ** intros [H|(Ht & r' & Hr' & Hh)]; [by left; left|].
                 apply elem_of_cons in Hr' as [-> |Hr'].
                 --- left; right. rewrite Ehref in Hh. by injection Hh.
                 --- right. split; [done|]. by exists r'.
           ++ rewrite length_app in L. simpl in L. simpl. lia.
    + (* no [href] *)
      destruct (IH results seen HQ Hseen Hnd Hall) as (N & U & A & L).
      split; [exact N|]. split; [|split; [exact A|simpl; lia]].
      intros u. rewrite U. split.
      * intros [H|(Ht & r' & Hr' & Hh)]; [by left|].
        right. split; [done|]. exists r'. split; [by right|done].
      * intros [H|(Ht & r' & Hr' & Hh)]; [by left|].
        apply elem_of_cons in Hr' as [-> |Hr'].
        -- rewrite Ehref in Hh. done.
        -- right. split; [done|]. by exists r'.
Qed.

Lemma first_800_len (s : string) : (len (WebAgent.first_800 s) ≤ 800)%nat.
Proof.
  unfold WebAgent.first_800, len. rewrite chars_str, length_take. lia.
Qed.

End WebCollect.

(** X4. The results [WebAgent] keeps of a web search: no URL twice; a URL
    is kept exactly when it is non-empty and some search result carries it;
    every kept result has the URL, the title and the first 800 characters
    of the body of one search result; and nothing is added. *)
Theorem web_results_have_distinct_nonempty_urls :
  ∀ (rs : list ddgs_result),
    NoDup (map State.url (WebAgent.collect rs))
    ∧ (∀ u, u ∈ map State.url (WebAgent.collect rs)
            ↔ u ≠ "" ∧ ∃ r, r ∈ rs ∧ href r = Some u)
    ∧ Forall (fun w => ∃ r, r ∈ rs ∧ href r = Some (State.url w)
                            ∧ State.title w = default "" (ddgs_title r)
                            ∧ State.snippet w
                              = WebAgent.first_800 (default "" (body r))
                            ∧ (len (State.snippet w) ≤ 800)%nat)
        (WebAgent.collect rs)
    ∧ (length (WebAgent.collect rs) ≤ length rs)%nat.
Proof.
  intros rs. unfold WebAgent.collect.
  destruct (collect_fold (fun r => r ∈ rs) rs [] ∅) as (N & U & A & L).
  - by apply Forall_forall.
  - intros u. simpl. rewrite elem_of_empty. split; [done|].
    intros H. by apply elem_of_nil in H.
  - constructor.
  - constructor.
  - split; [exact N|]. split; [|split; [|exact L]].
    + intros u. rewrite U. simpl. split.
      * intros [H|(Ht & Hr)]; [by apply elem_of_nil in H|].
        split; [|done]. intros ->. done.
      * intros (Hne & Hr). right. split; [|done]. by destruct u.
    + eapply Forall_impl; [exact A|]. simpl.
      intros w (r & Hr & Hh & Ht & Hs). exists r. repeat split; try done.
      rewrite Hs. apply first_800_len.
Qed.

Section GraphFromRouter.

Context (C : collaborators) (q : string) (u : option string).

(** The state the Intent stage hands over, from the state the router
    builds. *)
Lemma intent_initial :
  let s1 := IntentAgent.run C (State.initial q u) in
  State.query s1 = Some q
  ∧ State.upload_id s1 = u
  ∧ State.mode s1 = Some (retrieve_stage_mode C (State.initial q u))
  ∧ State.progress s1 = Some ["🧭 Determining query intent..."]
  ∧ State.web_results s1 = None
  ∧ State.verbose s1 = None.
Proof.
  cbv zeta. split; [by rewrite intent_run_query|].
  split; [by rewrite intent_run_upload_id|]. split.
  - unfold retrieve_stage_mode. by rewrite intent_run_mode.
  - unfold IntentAgent.run. cbv zeta.
    do 2 match goal with
         | |- context [if ?b then _ else _] => destruct b
         end; by repeat split.
Qed.

(** The mode the Intent stage hands over never asks for an uploaded
    collection without a session id. *)
Lemma stage_mode_needs_no_upload :
  json_in (retrieve_stage_mode C (State.initial q u)) ["uploaded_only"; "compare"]
  && negb (opt_str_truthy u) = false.
Proof.
  unfold retrieve_stage_mode. rewrite intent_run_mode. cbv zeta.
  change (State.upload_id (State.initial q u)) with u.
  destruct (opt_str_truthy u); [by rewrite andb_false_r|].
  rewrite andb_true_r.
  destruct (json_in (IntentAgent.classified_mode C (State.initial q u))
              (IntentAgent.allowed_modes false)) eqn:E; [|reflexivity].
  apply json_in_spec in E as (s & Hs & Hin). rewrite Hs.
  apply list_elem_of_In in Hin. simpl in Hin.
  by destruct Hin as [<-|[<-|[]]].
Qed.

Lemma final_run_keeps (state final : State.t) :
  FinalAgent.run C state = Ok final →
  State.need_web final = State.need_web state
  ∧ State.upload_id final = State.upload_id state
  ∧ State.query final = State.query state.
Proof.
  unfold FinalAgent.run. destruct (State.query state) eqn:Eq; [|done].
  cbn [mbind result_bind bind State.getitem]. cbv zeta. intros [= <-].
  repeat split; try reflexivity.
  cbn [State.query State.with_answer State.log State.set_progress]. exact Eq.
Qed.

(** A run of the graph from the state the router builds. *)
Lemma invoke_path_spec (r : Retriever.t) :
  Retriever.init (chroma C) (encode C) (retrieve_stage_mode C (State.initial q u)) u
  = Ok r →
  let out := Retriever.search r q in
  ∃ final,
    QueryGraph.invoke_path C (State.initial q u) = Ok (graph_path (no_hits out), final)
    ∧ State.query final = Some q
    ∧ State.upload_id final = u
    ∧ State.mode final = Some (retrieve_stage_mode C (State.initial q u))
    ∧ State.retrieval_results final = Some out
    ∧ State.need_web final = Some (no_hits out)
    ∧ State.web_results final
      = (if no_hits out then Some (web_outcome C q) else None)
    ∧ is_Some (State.answer final)
    ∧ State.images final = Some []
    ∧ State.progress final = Some (progress_trail C q out)
    ∧ ∃ pre,
        FinalAgent.run C pre = Ok final
        ∧ State.query pre = Some q
        ∧ State.mode pre = Some (retrieve_stage_mode C (State.initial q u))
        ∧ State.verbose pre = None
        ∧ State.regulatory_text pre = Some (Retriever.regulatory_text out)
        ∧ State.uploaded_text pre = Some (Retriever.uploaded_text out)
        ∧ State.regulatory_images pre = Some (Retriever.regulatory_images out)
        ∧ State.uploaded_images pre = Some (Retriever.uploaded_images out)
        ∧ State.web_results pre
          = (if no_hits out then Some (web_outcome C q) else None).
Proof.
  intros Hr. cbv zeta.
  destruct intent_initial as (Hq & Hu & Hmode & Hprog & Hweb & Hverb).
  set (s1 := IntentAgent.run C (State.initial q u)) in *.
  unfold QueryGraph.invoke_path, QueryGraph.recursion_limit.
  rewrite walk_intent. fold s1.
  assert (Hr1 : RetrievalAgent.retriever_of C s1 = Ok r).
  { unfold RetrievalAgent.retriever_of. by rewrite Hmode, Hu. }
  pose proof (retrieval_run_ok C s1 r q Hr1 Hq) as Hrun. cbv zeta in Hrun.
  unfold progress_trail, retrieval_message, no_hits.
  clearbody s1. clear Hr1.
  destruct s1 as [query1 upload1 mode1 need1 ut1 rt1 ui1 ri1 rr1 web1 ans1 img1
                    prog1 verb1].
  cbn [State.query State.upload_id State.mode State.progress State.web_results
       State.verbose] in Hq, Hu, Hmode, Hprog, Hweb, Hverb.
  subst query1 upload1 mode1 prog1 web1 verb1.
  destruct (Retriever.total_hits (Retriever.search r q) =? 0)%nat eqn:Hhits.
  - rewrite (walk_retrieve C _ _ _ Hrun). simpl (default _ _). cbv iota.
    match goal with
    | |- context [QueryGraph.walk _ _ QueryGraph.Web ?s] => set (s2 := s)
    end.
    assert (Hq2 : State.query s2 = Some q) by reflexivity.
    assert (Hn2 : State.need_web s2 = Some true) by reflexivity.
    rewrite (walk_web C _ _ _ (web_run_search C s2 q Hn2 Hq2)).
    match goal with
    | |- context [QueryGraph.walk _ _ QueryGraph.Final ?s] => set (s3 := s)
    end.
    assert (Hs3 : State.query s3 = Some q ∧ State.upload_id s3 = u
                  ∧ State.mode s3 = Some (retrieve_stage_mode C (State.initial q u))
                  ∧ State.retrieval_results s3 = Some (Retriever.search r q)
                  ∧ State.need_web s3 = Some true
                  ∧ State.web_results s3 = Some (web_outcome C q)
                  ∧ State.progress s3
                    = Some (["🧭 Determining query intent...";
                             "🔎 Searching knowledge base...";
                             "⚠️  Nothing in KB — trying web search...";
                             "🌐 Searching web as fallback..."; web_message C q])).
    { subst s3 s2. by repeat split. }
    destruct Hs3 as (Hq3 & Hu3 & Hm3 & Hrr3 & Hn3 & Hw3 & Hp3).
    destruct (final_run_ok C s3 q Hq3) as (final & Hfin & Hm & Hrr & Hw & Ha & Hp).
    destruct (final_run_keeps s3 final Hfin) as (Hn & Hu' & Hq').
    rewrite (walk_final C _ _ _ Hfin). exists final.
    split; [reflexivity|]. rewrite Hq', Hu', Hm, Hrr, Hn, Hw, Hp.
    rewrite Hq3, Hu3, Hm3, Hrr3, Hn3, Hw3, Hp3.
    do 7 (split; [done|]). split; [by apply (final_run_images C s3)|].
    split; [done|]. exists s3. split; [exact Hfin|]. subst s3 s2.
    by repeat split.
  - rewrite (walk_retrieve C _ _ _ Hrun). simpl (default _ _). cbv iota.
    match goal with
    | |- context [QueryGraph.walk _ _ QueryGraph.Final ?s] => set (s2 := s)
    end.
    assert (Hs2 : State.query s2 = Some q ∧ State.upload_id s2 = u
                  ∧ State.mode s2 = Some (retrieve_stage_mode C (State.initial q u))
                  ∧ State.retrieval_results s2 = Some (Retriever.search r q)
                  ∧ State.need_web s2 = Some false
                  ∧ State.web_results s2 = None
                  ∧ State.progress s2
                    = Some (["🧭 Determining query intent...";
                             "🔎 Searching knowledge base...";
                             "✅ Found "
                             +:+ pretty (length (Retriever.regulatory_text
                                                   (Retriever.search r q))
                                         + length (Retriever.regulatory_images
                                                     (Retriever.search r q)))%nat
                             +:+ " regulatory chunk(s), "
                             +:+ pretty (length (Retriever.uploaded_text
                                                   (Retriever.search r q))
                                         + length (Retriever.uploaded_images
                                                     (Retriever.search r q)))%nat
                             +:+ " uploaded chunk(s)."])).
    { subst s2. by repeat split. }
    destruct Hs2 as (Hq2 & Hu2 & Hm2 & Hrr2 & Hn2 & Hw2 & Hp2).
    destruct (final_run_ok C s2 q Hq2) as (final & Hfin & Hm & Hrr & Hw & Ha & Hp).
    destruct (final_run_keeps s2 final Hfin) as (Hn & Hu' & Hq').
    rewrite (walk_final C _ _ _ Hfin). exists final.
    split; [reflexivity|]. rewrite Hq', Hu', Hm, Hrr, Hn, Hw, Hp.
    rewrite Hq2, Hu2, Hm2, Hrr2, Hn2, Hw2, Hp2.
    do 7 (split; [done|]). split; [by apply (final_run_images C s2)|].
    split; [done|]. exists s2. split; [exact Hfin|]. subst s2.
    by repeat split.
Qed.

End GraphFromRouter.

(** The graph returns with an answer from every state the router builds. *)
Lemma graph_answers (C : collaborators) (q : string) (u : option string) :
  ∃ path final,
    QueryGraph.invoke_path C (State.initial q u) = Ok (path, final)
    ∧ (path = [QueryGraph.Intent; QueryGraph.Retrieve; QueryGraph.Final]
       ∨ path = [QueryGraph.Intent; QueryGraph.Retrieve; QueryGraph.Web;
                 QueryGraph.Final])
    ∧ (length path < QueryGraph.recursion_limit)%nat
    ∧ State.query final = Some q
    ∧ State.upload_id final = u
    ∧ is_Some (State.answer final)
    ∧ QueryGraph.invoke C (State.initial q u) = Ok final.
Proof.
  destruct (init_ok (chroma C) (encode C) _ u (stage_mode_needs_no_upload C q u))
    as [r Hr].
  destruct (invoke_path_spec C q u r Hr)
    as (final & Hpath & Hq & Hu & _ & _ & _ & _ & Ha & _).
  exists (graph_path (no_hits (Retriever.search r q))), final.
  split; [exact Hpath|]. unfold QueryGraph.invoke. rewrite Hpath.
  unfold graph_path, QueryGraph.recursion_limit.
  destruct (no_hits (Retriever.search r q)); simpl; repeat split; auto; lia.
Qed.

(** X5. A query the router hands to the graph is always answered.  Whatever
    the classifier replies, whatever the store holds and whether or not the
    web search fails, the graph run from the router's initial state returns:
    it takes one of the two paths Intent, Retrieve, (Web,) Final, never
    meets the recursion limit, keeps the query and the session id, and
    leaves an answer in the state. *)
Theorem query_graph_always_answers :
  ∀ (C : collaborators) (q : string) (u : option string),
    ∃ path final,
      QueryGraph.invoke_path C (State.initial q u) = Ok (path, final)
      ∧ (path = [QueryGraph.Intent; QueryGraph.Retrieve; QueryGraph.Final]
         ∨ path = [QueryGraph.Intent; QueryGraph.Retrieve; QueryGraph.Web;
                   QueryGraph.Final])
      ∧ (length path < QueryGraph.recursion_limit)%nat
      ∧ State.query final = Some q
      ∧ State.upload_id final = u
      ∧ is_Some (State.answer final)
      ∧ QueryGraph.invoke C (State.initial q u) = Ok final.
Proof. exact graph_answers. Qed.

(** X6. The web is searched exactly when retrieval found nothing.  After a
    run of the graph from the router's initial state, the Web stage is on
    the path if and only if the four buckets of the search are all empty,
    whatever the classifier said about the web; the state then holds the
    outcome of the web search, and holds no web results at all otherwise. *)
Theorem web_fallback_iff_nothing_retrieved :
  ∀ (C : collaborators) (q : string) (u : option string)
    (path : list QueryGraph.node) (final : State.t),
    QueryGraph.invoke_path C (State.initial q u) = Ok (path, final) →
    ∃ out,
      State.retrieval_results final = Some out
      ∧ (QueryGraph.Web ∈ path ↔ Retriever.total_hits out = 0%nat)
      ∧ State.need_web final = Some (no_hits out)
      ∧ State.web_results final
        = (if no_hits out then Some (web_outcome C q) else None).
Proof.
  intros C q u path final Hrun.
  destruct (init_ok (chroma C) (encode C) _ u (stage_mode_needs_no_upload C q u))
    as [r Hr].
  destruct (invoke_path_spec C q u r Hr)
    as (final' & Hpath & _ & _ & _ & Hrr & Hn & Hw & _).
  rewrite Hpath in Hrun. injection Hrun as <- <-.
  exists (Retriever.search r q). split; [exact Hrr|].
  split; [|by split]. unfold graph_path, no_hits.
  destruct (Retriever.total_hits (Retriever.search r q) =? 0)%nat eqn:E.
  - apply Nat.eqb_eq in E. split; [done|]. intros _.
    apply list_elem_of_In. simpl. auto.
  - apply Nat.eqb_neq in E. split; [|done]. intros H.
    apply list_elem_of_In in H. simpl in H.
    by destruct H as [H|[H|[H|[]]]].
Qed.

(** The theorem on a run with a session id and a populated regulatory
    store: the classifier says [web], the search finds one chunk, and the
    web is not searched. *)
Lemma web_fallback_iff_nothing_retrieved_witness :
  ∃ path final out,
    QueryGraph.invoke_path example_collaborators
      (State.initial "When was the Finance Act 2025 passed?" (Some "abc123"))
    = Ok (path, final)
    ∧ State.retrieval_results final = Some out
    ∧ (QueryGraph.Web ∈ path ↔ Retriever.total_hits out = 0%nat)
    ∧ State.need_web final = Some (no_hits out)
    ∧ State.web_results final
      = (if no_hits out then Some (web_outcome example_collaborators
                                     "When was the Finance Act 2025 passed?")
         else None).
Proof.
  assert (H : ∃ path final,
             QueryGraph.invoke_path example_collaborators
               (State.initial "When was the Finance Act 2025 passed?" (Some "abc123"))
             = Ok (path, final))
    by (eexists _, _; vm_compute; reflexivity).
  destruct H as (path & final & Hrun).
  destruct (web_fallback_iff_nothing_retrieved _ _ _ _ _ Hrun) as (out & H).
  exists path, final, out. split; [exact Hrun|exact H].
Defined.

(** X7. The progress trail of a run.  After a run of the graph from the
    router's initial state the progress list is: the line of the Intent
    stage, the two lines of the Retrieve stage, the two lines of the Web
    stage when nothing was retrieved, and the two lines of the Final
    stage; five lines or seven, each stage's lines in the order of the
    path. *)
Theorem progress_trail_follows_the_path :
  ∀ (C : collaborators) (q : string) (u : option string)
    (path : list QueryGraph.node) (final : State.t),
    QueryGraph.invoke_path C (State.initial q u) = Ok (path, final) →
    ∃ out,
      State.retrieval_results final = Some out
      ∧ State.progress final = Some (progress_trail C q out)
      ∧ length (progress_trail C q out) = (if no_hits out then 7 else 5)%nat
      ∧ path = graph_path (no_hits out).
Proof.
  intros C q u path final Hrun.
  destruct (init_ok (chroma C) (encode C) _ u (stage_mode_needs_no_upload C q u))
    as [r Hr].
  destruct (invoke_path_spec C q u r Hr)
    as (final' & Hpath & _ & _ & _ & Hrr & _ & _ & _ & _ & Hp & _).
  rewrite Hpath in Hrun. injection Hrun as <- <-.
  exists (Retriever.search r q). split; [exact Hrr|]. split; [exact Hp|].
  split; [|reflexivity]. unfold progress_trail.
  by destruct (no_hits (Retriever.search r q)).
Qed.

Lemma progress_trail_follows_the_path_witness :
  ∃ path final out,
    QueryGraph.invoke_path example_collaborators_web_down
      (State.initial "What is an EMI?" None) = Ok (path, final)
    ∧ State.retrieval_results final = Some out
    ∧ State.progress final = Some (progress_trail example_collaborators_web_down
                                     "What is an EMI?" out)
    ∧ length (progress_trail example_collaborators_web_down "What is an EMI?" out)
      = (if no_hits out then 7 else 5)%nat
    ∧ path = graph_path (no_hits out).
Proof.
  assert (H : ∃ path final,
             QueryGraph.invoke_path example_collaborators_web_down
               (State.initial "What is an EMI?" None) = Ok (path, final))
    by (eexists _, _; vm_compute; reflexivity).
  destruct H as (path & final & Hrun).
  destruct (progress_trail_follows_the_path _ _ _ _ _ Hrun) as (out & H).
  exists path, final, out. split; [exact Hrun|exact H].
Defined.

Section FinalPrompt.

Lemma join_cons_truthy (sep x : string) (xs : list string) :
  str_truthy x = true → str_truthy (join sep (x :: xs)) = true.
Proof. destruct x as [|c x']; [done|]. by destruct xs. Qed.

Lemma fmt_blocks_truthy (blocks : list Retriever.hit) (label : string) :
  str_truthy (FinalAgent.fmt_blocks blocks label) = list_truthy blocks.
Proof.
  unfold FinalAgent.fmt_blocks. destruct blocks as [|b bs]; [done|].
  cbn [list_truthy negb map]. by apply join_cons_truthy.
Qed.

Lemma fmt_web_truthy (results : list State.web_result) :
  str_truthy (FinalAgent.fmt_web results) = list_truthy results.
Proof.
  unfold FinalAgent.fmt_web. destruct results as [|r rs]; [done|].
  cbn [list_truthy negb map]. by apply join_cons_truthy.
Qed.

(** Every section opens with a dash. *)
Lemma add_section_dashes (header body : string) (sections : list string) :
  head (chars header) = Some "-"%char →
  Forall (fun s => head (chars s) = Some "-"%char) sections →
  Forall (fun s => head (chars s) = Some "-"%char)
    (FinalAgent.add_section header body sections).
Proof.
  intros Hh Hs. unfold FinalAgent.add_section.
  destruct (str_truthy body); [|done].
  apply Forall_app. split; [done|]. constructor; [|done].
  destruct header as [|c h]; [done|]. exact Hh.
Qed.

Lemma add_section_truthy (header body : string) (sections : list string) :
  list_truthy (FinalAgent.add_section header body sections)
  = list_truthy sections || str_truthy body.
Proof.
  unfold FinalAgent.add_section. destruct (str_truthy body).
  - destruct sections; [done|]. reflexivity.
  - by rewrite orb_false_r.
Qed.

Lemma head_chars_join_dash (sep : string) (sections : list string) :
  sections ≠ [] →
  Forall (fun s => head (chars s) = Some "-"%char) sections →
  head (chars (join sep sections)) = Some "-"%char.
Proof.
  intros Hne H. destruct sections as [|x xs]; [done|].
  apply Forall_cons in H as [Hx _].
  destruct x as [|c x']; [done|]. by destruct xs.
Qed.

Lemma list_truthy_nil {A} (l : list A) : list_truthy l = false ↔ l = [].
Proof. by destruct l. Qed.

(** The message [FinalAgent.run] sends, and when its body says that there
    is no context. *)
Lemma final_run_prompt (C : collaborators) (state final : State.t) :
  FinalAgent.run C state = Ok final →
  ∃ q body,
    State.query state = Some q
    ∧ State.answer final
      = Some (llm_chat C
                [("system", final_answer_prompt C);
                 ("user", context_with q
                            (default (JStr "regulatory_only") (State.mode state))
                            (default false (State.verbose state)) body)])
    ∧ (body = "No context available." ↔ no_sources state).
Proof.
  unfold FinalAgent.run. destruct (State.query state) as [q|]; [|done].
  cbn [mbind result_bind bind State.getitem]. cbv zeta.
  set (sections :=
         FinalAgent.add_section "--- Web Search Results ---"
           (FinalAgent.fmt_web (default [] (State.web_results state)))
           (FinalAgent.add_section "--- Uploaded Images ---"
              (FinalAgent.fmt_blocks (default [] (State.uploaded_images state))
                 "UPLOADED_IMAGE")
              (FinalAgent.add_section "--- Regulatory Images ---"
                 (FinalAgent.fmt_blocks (default [] (State.regulatory_images state))
                    "REGULATORY_IMAGE")
                 (FinalAgent.add_section "--- Uploaded Document ---"
                    (FinalAgent.fmt_blocks (default [] (State.uploaded_text state))
                       "UPLOADED_DOC")
                    (FinalAgent.add_section "--- Regulatory Knowledge Base ---"
                       (FinalAgent.fmt_blocks
                          (default [] (State.regulatory_text state))
                          "REGULATORY_KB")
                       []))))).
  intros [= <-]. exists q. eexists. split; [reflexivity|].
  split; [reflexivity|].
  assert (Hdash : Forall (fun s => head (chars s) = Some "-"%char) sections).
  { subst sections. repeat (apply add_section_dashes; [reflexivity|]).
    constructor. }
  assert (Htruthy : list_truthy sections = false ↔ no_sources state).
  { subst sections. rewrite !add_section_truthy, !fmt_blocks_truthy, fmt_web_truthy.
    unfold no_sources. rewrite !orb_false_iff, !list_truthy_nil. simpl.
    tauto. }
  destruct (list_truthy sections) eqn:Et.
  - split.
    + intros Hbody. exfalso.
      assert (Hne : sections ≠ []) by (by destruct sections).
      pose proof (head_chars_join_dash (nl +:+ nl) sections Hne Hdash) as Hh.
      rewrite Hbody in Hh. done.
    + intros Hno. apply Htruthy in Hno. done.
  - split; [|done]. intros _. by apply Htruthy.
Qed.

End FinalPrompt.

(** X17. When the answer model is told that there is no context.  The
    answer [FinalAgent.run] stores is the model's reply to a message made
    of the question, the mode, the verbose flag and a body; the body is
    the sentence [No context available.] if and only if the four retrieval
    buckets and the web results of the state are all empty or absent. *)
Theorem final_prompt_reports_missing_context :
  ∀ (C : collaborators) (state final : State.t),
    FinalAgent.run C state = Ok final →
    ∃ q body,
      State.query state = Some q
      ∧ State.answer final
        = Some (llm_chat C
                  [("system", final_answer_prompt C);
                   ("user", context_with q
                              (default (JStr "regulatory_only") (State.mode state))
                              (default false (State.verbose state)) body)])
      ∧ (body = "No context available." ↔ no_sources state).
Proof. exact final_run_prompt. Qed.

Lemma final_prompt_reports_missing_context_witness :
  ∃ final q body,
    FinalAgent.run echo_collaborators (State.initial "What is an EMI?" None) = Ok final
    ∧ State.query (State.initial "What is an EMI?" None) = Some q
    ∧ State.answer final
      = Some (llm_chat echo_collaborators
                [("system", final_answer_prompt echo_collaborators);
                 ("user", context_with q (JStr "regulatory_only") false body)])
    ∧ (body = "No context available."
       ↔ no_sources (State.initial "What is an EMI?" None)).
Proof.
  assert (H : ∃ final, FinalAgent.run echo_collaborators
                         (State.initial "What is an EMI?" None) = Ok final)
    by (eexists; reflexivity).
  destruct H as [final Hrun].
  destruct (final_prompt_reports_missing_context _ _ _ Hrun) as (q & body & H).
  exists final, q, body. split; [exact Hrun|exact H].
Defined.

(** X18. What the answer model is told on a run of the graph.  On a run
    from the router's initial state the message to the answer model always
    says [Verbose: False], whatever flag the caller was given, names the
    mode retrieval ran in, and its body is [No context available.] exactly
    when retrieval found nothing and the web search brought nothing
    either. *)
Theorem graph_prompt_has_no_context_iff_nothing_found :
  ∀ (C : collaborators) (q : string) (u : option string)
    (path : list QueryGraph.node) (final : State.t),
    QueryGraph.invoke_path C (State.initial q u) = Ok (path, final) →
    ∃ out body,
      State.retrieval_results final = Some out
      ∧ State.answer final
        = Some (llm_chat C
                  [("system", final_answer_prompt C);
                   ("user", context_with q
                              (retrieve_stage_mode C (State.initial q u))
                              false body)])
      ∧ (body = "No context available."
         ↔ Retriever.total_hits out = 0%nat ∧ web_outcome C q = []).
Proof.
  intros C q u path final Hrun.
  destruct (init_ok (chroma C) (encode C) _ u (stage_mode_needs_no_upload C q u))
    as [r Hr].
  destruct (invoke_path_spec C q u r Hr)
    as (final' & Hpath & _ & _ & _ & Hrr & _ & _ & _ & _ & _ & pre & Hfin & Hq
        & Hm & Hv & Hrt & Hut & Hri & Hui & Hw).
  rewrite Hpath in Hrun. injection Hrun as <- <-.
  destruct (final_run_prompt C pre final' Hfin) as (q' & body & Hq' & Ha & Hbody).
  rewrite Hq in Hq'. injection Hq' as <-.
  rewrite Hm, Hv in Ha. exists (Retriever.search r q), body.
  split; [exact Hrr|]. split; [exact Ha|]. rewrite Hbody.
  unfold no_sources. rewrite Hrt, Hut, Hri, Hui, Hw. simpl.
  unfold no_hits, Retriever.total_hits.
  destruct (Retriever.search r q) as [ut rt ui ri]. simpl.
  destruct (length ut + length rt + length ui + length ri =? 0)%nat eqn:E.
  - apply Nat.eqb_eq in E. simpl. split.
    + intros (_ & _ & _ & _ & Hweb). by split.
    + intros [_ Hweb].
      destruct ut, rt, ui, ri; simpl in E; try lia. by repeat split.
  - apply Nat.eqb_neq in E. split.
    + intros (-> & -> & -> & -> & _). simpl in E. lia.
    + intros [H0 _]. lia.
Qed.

Lemma graph_prompt_has_no_context_iff_nothing_found_witness :
  ∃ path final out body,
    QueryGraph.invoke_path example_collaborators_web_down
      (State.initial "What is an EMI?" None) = Ok (path, final)
    ∧ State.retrieval_results final = Some out
    ∧ State.answer final
      = Some (llm_chat example_collaborators_web_down
                [("system", final_answer_prompt example_collaborators_web_down);
                 ("user", context_with "What is an EMI?"
                            (retrieve_stage_mode example_collaborators_web_down
                               (State.initial "What is an EMI?" None))
                            false body)])
    ∧ (body = "No context available."
       ↔ Retriever.total_hits out = 0%nat
         ∧ web_outcome example_collaborators_web_down "What is an EMI?" = []).
Proof.
  assert (H : ∃ path final,
             QueryGraph.invoke_path example_collaborators_web_down
               (State.initial "What is an EMI?" None) = Ok (path, final))
    by (eexists _, _; vm_compute; reflexivity).
  destruct H as (path & final & Hrun).
  destruct (graph_prompt_has_no_context_iff_nothing_found _ _ _ _ _ Hrun)
    as (out & body & H).
  exists path, final, out, body. split; [exact Hrun|exact H].
Defined.

(* ===================================================================== *)
(** * More on the router *)
(* ===================================================================== *)

Section RouterMore.

Import Router.






(** A call without a query, or without files and session id, keeps the
    log. *)
Lemma handle_input_keeps_log (self : t) (query : option string)
    (files : option (list (string * string))) (upload_id : option string) :
  opt_str_truthy query = false
  ∨ (files_given files = false ∧ opt_str_truthy upload_id = false) →
  keeps_log (handle_input self query files upload_id).
Proof.
  intros H. unfold handle_input. cbv zeta.
  fold (files_given files).
  destruct (files_given files) eqn:Ef.
  - destruct H as [Hq|[? ?]]; [|done].
    apply keeps_log_seq; [apply keeps_log_save|]. intros _.
    destruct query as [q|]; [simpl in Hq; rewrite Hq|];
      (apply keeps_log_seq; [apply keeps_log_run_ingestion|]);
      intros _; apply keeps_log_ret.
  - destruct query as [q|]; [|apply keeps_log_ret].
    destruct (str_truthy q) eqn:Eq; [|apply keeps_log_ret].
    destruct H as [Hq|[_ Hu]]; [simpl in Hq; congruence|].
    cbn [andb]. rewrite Hu. apply keeps_log_invoke_graph.
Qed.

Lemma seq_ok {A B} (m : M A) (k : A → M B) (s : world * list string) (r : B) :
  (seq m k s).1 = Ok r → ∃ a s', (k a s').1 = Ok r.
Proof. unfold seq. destruct (m s) as [[a|e] s']; [eauto|done]. Qed.

End RouterMore.

(** X8. [_cleanup] runs only for a query on a session.  A call of
    [handle_input] without a query, or with a query but neither files nor a
    session id, never calls [_cleanup]; without files it changes nothing at
    all in the folders and the store; and an ingestion-only call that
    returns answers with the id of the session the files were saved under,
    which is the id a follow-up query has to send. *)
Theorem no_cleanup_without_query_and_session :
  ∀ (self : Router.t) (query : option string)
    (files : option (list (string * string))) (upload_id : option string)
    (w : Router.world) (log : list string),
    opt_str_truthy query = false
    ∨ (files_given files = false ∧ opt_str_truthy upload_id = false) →
    let out := Router.handle_input self query files upload_id (w, log) in
    out.2.2 = log
    ∧ (files_given files = false → out.2.1 = w)
    ∧ (files_given files = true →
       ∀ resp, out.1 = Ok resp →
               resp = Router.Message
                        "Files ingested. Send your query with this upload_id."
                        (Some (session_of self files upload_id))).
Proof.
  intros self query files upload_id w log H. cbv zeta.
  split; [exact (handle_input_keeps_log self query files upload_id H (w, log))|].
  unfold Router.handle_input, session_of. cbv zeta.
  fold (files_given files). split.
  - intros Ef. rewrite Ef.
    destruct query as [q|]; [|done].
    destruct (str_truthy q) eqn:Eq; [|done].
    destruct H as [Hq|[_ Hu]]; [simpl in Hq; congruence|].
    cbn [andb]. rewrite Hu. unfold Router.invoke_graph, Router.lift. simpl.
    by destruct (Router.graph_invoke self _ w).
  - intros Ef. rewrite Ef. destruct H as [Hq|[? ?]]; [|congruence].
    intros resp Hout. cbn [andb] in Hout.
    apply seq_ok in Hout as (_ & s1 & Hout). cbv beta in Hout.
    assert (Hmsg : (Router.seq
                      (Router._run_ingestion self
                         (default "" (if negb (opt_str_truthy upload_id)
                                      then Some (Router.timestamp self)
                                      else upload_id)))
                      (fun _ => Router.ret
                         (Router.Message
                            "Files ingested. Send your query with this upload_id."
                            (if negb (opt_str_truthy upload_id)
                             then Some (Router.timestamp self) else upload_id)))
                      s1).1 = Ok resp).
    { destruct query as [q|]; [|exact Hout].
      simpl in Hq. by rewrite Hq in Hout. }
    apply seq_ok in Hmsg as (_ & s2 & Hmsg). injection Hmsg as <-.
    f_equal. destruct upload_id as [u|]; [|reflexivity].
    simpl. by destruct (str_truthy u).
Qed.

(** The theorem on an ingestion-only call that fails on an unsupported
    file: the saved file stays in its folder and nothing is cleaned up. *)
Lemma no_cleanup_without_query_and_session_witness :
  let out := Router.handle_input example_router None
               (Some [("notes.txt", "plain text")]) None (empty_world, []) in
  out.2.2 = []
  ∧ out.1 = Raise (ValueError "No supported files (PDF or image) found in upload dir.")
  ∧ Router.folders out.2.1 !! "uploads/20250101_120000" = Some ["notes.txt"].
Proof.
  cbv zeta. split; [|by vm_compute].
  apply (no_cleanup_without_query_and_session example_router None
           (Some [("notes.txt", "plain text")]) None empty_world []).
  left. reflexivity.
Defined.


(** X10. A query without files is always answered.  With the query graph
    as the router's graph, [handle_input] on a non-empty query and no files
    returns the final state of the graph, with an answer, whatever the
    classifier, the store and the web search do.  Without a session id
    nothing is changed; with one, the session is gone afterwards. *)
Theorem query_without_files_is_always_answered :
  ∀ (self : Router.t) (C : collaborators) (q : string)
    (files : option (list (string * string))) (u : option string)
    (w : Router.world) (log : list string),
    Router.graph_invoke self = Router.graph_of C →
    str_truthy q = true →
    files_given files = false →
    ∃ final w',
      Router.handle_input self (Some q) files u (w, log)
      = (Ok (Router.GraphResult final),
         (w', if opt_str_truthy u then log ++ [default "" u] else log))
      ∧ QueryGraph.invoke (Router.with_chroma C (Router.chroma_db w))
          (State.initial q (if opt_str_truthy u then u else None)) = Ok final
      ∧ is_Some (State.answer final)
      ∧ State.query final = Some q
      ∧ (if opt_str_truthy u then session_gone (default "" u) w' else w' = w).
Proof.
  intros self C q files u w log Hgraph Hq Hf.
  unfold Router.handle_input. cbv zeta. fold (files_given files).
  rewrite Hf, Hq. cbn [andb]. cbv iota.
  destruct (opt_str_truthy u) eqn:Hu.
  - destruct (graph_answers (Router.with_chroma C (Router.chroma_db w)) q u)
      as (path & final & _ & _ & _ & Hqf & _ & Ha & Hinv).
    destruct (try_finally_cleanup (Router.invoke_graph self q u) (default "" u)
                (w, log) (keeps_log_invoke_graph self q u)) as (w' & Hrun & Hgone).
    exists final, w'. cbv beta iota. rewrite Hrun.
    unfold Router.invoke_graph, Router.lift. simpl.
    rewrite Hgraph. unfold Router.graph_of. rewrite Hinv.
    split; [reflexivity|]. split; [reflexivity|]. split; [exact Ha|].
    split; [exact Hqf|exact Hgone].
  - destruct (graph_answers (Router.with_chroma C (Router.chroma_db w)) q None)
      as (path & final & _ & _ & _ & Hqf & _ & Ha & Hinv).
    exists final, w. cbv beta iota. unfold Router.invoke_graph, Router.lift. simpl.
    rewrite Hgraph. unfold Router.graph_of. rewrite Hinv.
    split; [reflexivity|]. split; [reflexivity|]. split; [exact Ha|].
    split; [exact Hqf|reflexivity].
Qed.

Lemma query_without_files_is_always_answered_witness :
  ∃ final w',
    Router.handle_input example_app_router (Some "What is the EMI licence fee?")
      None (Some "s1") (example_world, [])
    = (Ok (Router.GraphResult final), (w', [] ++ [default "" (Some "s1")]))
    ∧ QueryGraph.invoke
        (Router.with_chroma example_collaborators (Router.chroma_db example_world))
        (State.initial "What is the EMI licence fee?" (Some "s1")) = Ok final
    ∧ is_Some (State.answer final)
    ∧ State.query final = Some "What is the EMI licence fee?"
    ∧ session_gone (default "" (Some "s1")) w'.
Proof.
  exact (query_without_files_is_always_answered example_app_router
           example_collaborators "What is the EMI licence fee?" None (Some "s1")
           example_world [] eq_refl eq_refl eq_refl).
Defined.

(* ===================================================================== *)
(** * More on the chunker: which pieces become chunks, and their pages *)
(* ===================================================================== *)

Section FindFacts.

Lemma starts_with_take (p l : list ascii) :
  starts_with p l = true → take (length p) l = p.
Proof.
  intros H. apply starts_with_spec in H as [rest ->].
  by rewrite take_app_length.
Qed.

Lemma index_of_occurs_at (sub l : list ascii) (i : nat) :
  index_of sub l = Some i → take (length sub) (drop i l) = sub.
Proof.
  revert i. induction l as [|c l IH]; intros i; simpl.
  - destruct (starts_with sub []) eqn:E; [|done]. intros [= <-].
    by apply starts_with_take.
  - destruct (starts_with sub (c :: l)) eqn:E.
    + intros [= <-]. by apply starts_with_take.
    + destruct (index_of sub l) as [j|]; simpl; [|done].
      intros [= <-]. by apply IH.
Qed.

(** [find] returns a position at which [sub] stands. *)
Lemma find_occurs_at (s sub : string) (start : nat) :
  find s sub start ≠ (-1)%Z →
  occurs_at sub s (Z.to_nat (find s sub start)).
Proof.
  unfold find, occurs_at. destruct (len s <? start)%nat; [done|].
  destruct (index_of (chars sub) (drop start (chars s))) as [i|] eqn:E; [|done].
  intros _. rewrite Nat2Z.id. apply index_of_occurs_at in E.
  by rewrite drop_drop in E.
Qed.

(** [find] from the start succeeds exactly when [sub] is in [s], and it
    does whenever [find] from further on succeeds. *)
Lemma find_from_zero (s sub : string) :
  negb (find s sub 0 =? -1)%Z = contains s sub.
Proof.
  unfold find, contains. change (len s <? 0)%nat with false. cbv iota.
  rewrite drop_0.
  destruct (index_of (chars sub) (chars s)) as [i|].
  - rewrite bool_decide_eq_true_2 by eauto.
    apply negb_true_iff, Z.eqb_neq. lia.
  - rewrite bool_decide_eq_false_2; [done|]. by intros [? ?].
Qed.

Lemma find_later_contains (s sub : string) (start : nat) :
  find s sub start ≠ (-1)%Z → contains s sub = true.
Proof.
  unfold find. destruct (len s <? start)%nat; [done|].
  destruct (index_of (chars sub) (drop start (chars s))) as [i|] eqn:E; [|done].
  intros _. apply contains_spec.
  assert (Hocc : occurs (chars sub) (drop start (chars s))).
  { apply index_of_is_some. eauto. }
  destruct Hocc as (pre & post & Hdrop).
  exists (take start (chars s) ++ pre), post.
  rewrite <- (take_drop start (chars s)) at 1. rewrite Hdrop.
  by rewrite <- app_assoc.
Qed.

Lemma py_index_lookup {A} (l : list A) (i : Z) (x : A) :
  (0 ≤ i)%Z → py_index l i = Ok x → l !! Z.to_nat i = Some x.
Proof.
  intros Hi. unfold py_index. destruct (i <? 0)%Z eqn:E; [lia|]. rewrite E.
  destruct (l !! Z.to_nat i); [|done]. by intros [= ->].
Qed.

End FindFacts.

Section ChunkerMore.

Import DocumentChunker.

(** One step of the loop: a piece is kept exactly when [keeps_piece] holds,
    and the chunk made of it describes an occurrence of the piece. *)
Lemma chunk_step_spec (pdf_name' full_text : string) (map' : list json)
    (st st' : loop_state) (piece : string) :
  length map' = len full_text →
  chunk_step pdf_name' full_text map' st piece = Ok st' →
  if keeps_piece full_text piece then
    ∃ c, all_chunks st' = all_chunks st ++ [c]
         ∧ text c = piece
         ∧ chunk_index (metadata c) = chunk_counter st
         ∧ chunk_of_piece pdf_name' full_text map' c
  else all_chunks st' = all_chunks st.
Proof.
  intros Hmap. unfold chunk_step, keeps_piece.
  destruct (len (strip piece) <? 15)%nat eqn:Eshort.
  { apply Nat.ltb_lt in Eshort.
    destruct (15 <=? len (strip piece))%nat eqn:E; [apply Nat.leb_le in E; lia|].
    by intros [= <-]. }
  apply Nat.ltb_ge in Eshort.
  rewrite (proj2 (Nat.leb_le _ _) Eshort). cbn [andb].
  pose proof (strip_length piece) as Hstrip.
  set (start_char :=
         if (find full_text piece (current_search_start st) =? -1)%Z
         then find full_text piece 0
         else find full_text piece (current_search_start st)).
  destruct (start_char =? -1)%Z eqn:Enot.
  { apply Z.eqb_eq in Enot. intros [= <-].
    assert (Hc : contains full_text piece = false).
    { rewrite <- find_from_zero. subst start_char.
      destruct (find full_text piece (current_search_start st) =? -1)%Z eqn:E.
      - by rewrite Enot.
      - apply Z.eqb_neq in E. by rewrite Enot in E. }
    by rewrite Hc. }
  apply Z.eqb_neq in Enot.
  assert (Hfound : contains full_text piece = true
                   ∧ occurs_at piece full_text (Z.to_nat start_char)
                   ∧ (0 ≤ start_char)%Z
                   ∧ (start_char + Z.of_nat (len piece) ≤ Z.of_nat (len full_text))%Z).
  { subst start_char.
    destruct (find full_text piece (current_search_start st) =? -1)%Z eqn:E.
    - split; [by eapply find_later_contains|].
      split; [by apply find_occurs_at|]. by apply find_bound.
    - apply Z.eqb_neq in E. split; [by eapply find_later_contains|].
      split; [by apply find_occurs_at|]. by apply find_bound. }
  destruct Hfound as (Hc & Hocc & H0 & Hend). rewrite Hc.
  destruct (py_index map' start_char) as [p1|] eqn:Hp1; [|done].
  cbn [mbind result_bind bind].
  destruct (py_index map' (Z.min (start_char + Z.of_nat (len piece) - 1)
                             (Z.of_nat (length map') - 1))) as [p2|] eqn:Hp2; [|done].
  cbn [mbind result_bind bind]. intros [= <-]. eexists. split; [reflexivity|].
  cbn [text metadata chunk_index]. split; [done|]. split; [done|].
  unfold chunk_of_piece. cbn. repeat split.
  exists (Z.to_nat start_char). split; [exact Hocc|].
  split; [by apply py_index_lookup|].
  rewrite Z.min_l in Hp2 by lia.
  apply py_index_lookup in Hp2; [|lia].
  replace (Z.to_nat (start_char + Z.of_nat (len piece) - 1))
    with (Z.to_nat start_char + len piece - 1)%nat in Hp2 by lia.
  exact Hp2.
Qed.

(** The loop: the chunks added are made of the pieces [keeps_piece]
    selects, in order, numbered from the counter on. *)
Lemma chunk_loop_spec (pdf_name' full_text : string) (map' : list json)
    (pieces : list string) (st st' : loop_state) :
  length map' = len full_text →
  chunk_loop pdf_name' full_text map' pieces st = Ok st' →
  ∃ new,
    all_chunks st' = all_chunks st ++ new
    ∧ map text new = filter (fun p => keeps_piece full_text p = true) pieces
    ∧ Forall (chunk_of_piece pdf_name' full_text map') new.
Proof.
  intros Hmap. revert st. induction pieces as [|piece pieces IH]; intros st; simpl.
  - intros [= <-]. exists []. by rewrite app_nil_r.
  - destruct (chunk_step pdf_name' full_text map' st piece) as [st1|] eqn:Hstep;
      [|done].
    cbn [mbind result_bind bind]. intros Hloop.
    destruct (IH st1 Hloop) as (new & Hall & Htexts & Hnew).
    pose proof (chunk_step_spec _ _ _ _ _ _ Hmap Hstep) as Hs.
    rewrite filter_cons.
    destruct (keeps_piece full_text piece) eqn:Ek.
    + destruct Hs as (c & Hc & Ht & _ & Hok).
      exists (c :: new). rewrite Hall, Hc, <- app_assoc. split; [done|].
      rewrite decide_True by done. simpl. rewrite Ht, Htexts. by split; [|constructor].
    + exists new. rewrite Hall, Hs. split; [done|].
      rewrite decide_False by done. by split.
Qed.

(** Step 1 in closed form: the page map holds, for each position, the
    label of the page the character comes from. *)
Lemma fold_add_page_lookup (ps : list page) (acc : string * list json) (i : nat) :
  (fold_left add_page ps acc).2 !! i
  = if (i <? length acc.2)%nat then acc.2 !! i
    else page_at ps (i - length acc.2).
Proof.
  revert acc i. induction ps as [|p ps IH]; intros [full map'] i.
  - simpl. destruct (i <? length map')%nat eqn:E; [done|].
    apply Nat.ltb_ge in E. by apply lookup_ge_None.
  - cbn [fold_left page_at].
    assert (Hstep : add_page (full, map') p
                    = if negb (str_truthy (strip (default "" (page_text p))))
                      then (full, map')
                      else (full +:+ default "" (page_text p) +:+ nl +:+ nl,
                            map' ++ replicate
                                      (len (default "" (page_text p) +:+ nl +:+ nl))
                                      (default (JStr "?") (page_number p))))
      by reflexivity.
    rewrite Hstep. clear Hstep. cbv zeta.
    destruct (negb (str_truthy (strip (default "" (page_text p))))) eqn:Eb;
      rewrite IH; [done|].
    cbn [snd]. rewrite length_app, length_replicate, !len_app.
    change (len nl) with 1%nat.
    destruct (i <? length map')%nat eqn:E1.
    + apply Nat.ltb_lt in E1.
      rewrite (proj2 (Nat.ltb_lt _ _)) by lia. by rewrite lookup_app_l.
    + apply Nat.ltb_ge in E1.
      destruct (i - length map' <? len (default "" (page_text p)) + 2)%nat eqn:E2.
      * apply Nat.ltb_lt in E2. rewrite (proj2 (Nat.ltb_lt _ _)) by lia.
        rewrite lookup_app_r by done. apply lookup_replicate_2. lia.
      * apply Nat.ltb_ge in E2. rewrite (proj2 (Nat.ltb_ge _ _)) by lia.
        f_equal. lia.
Qed.

Lemma build_full_text_lookup (doc : cleaned_json) (i : nat) :
  (build_full_text doc).2 !! i = page_at (default [] (pages doc)) i.
Proof.
  unfold build_full_text. rewrite fold_add_page_lookup. simpl.
  by rewrite Nat.sub_0_r.
Qed.

(** What [chunk_document] returns, when it returns. *)
Lemma chunk_document_spec (self : t) (cleaned_json_path : string)
    (doc : cleaned_json) (output_path : option string) (fs fs' : files)
    (chunked : chunked_json) :
  chunk_document self cleaned_json_path doc output_path fs = (Ok chunked, fs') →
  let full_text := (build_full_text doc).1 in
  c_pdf_name chunked = default "unknown" (pdf_name doc)
  ∧ map text (chunks chunked)
    = filter (fun p => keeps_piece full_text p = true) (split_text self full_text)
  ∧ Forall (chunk_of_piece (default "unknown" (pdf_name doc)) full_text
              (build_full_text doc).2) (chunks chunked)
  ∧ chunk_indices (chunks chunked) = seq 0 (length (chunks chunked)).
Proof.
  unfold chunk_document.
  pose proof (build_full_text_map_length doc) as Hmap.
  destruct (build_full_text doc) as [full_text map']. simpl in Hmap. cbv zeta.
  destruct (negb (str_truthy (strip full_text))); [done|].
  destruct (chunk_loop _ _ _ _ _) as [st|] eqn:Hloop; [|done].
  intros [= <- _]. cbn [c_pdf_name chunks fst snd].
  destruct (chunk_loop_spec _ _ _ _ _ _ Hmap Hloop) as (new & Hall & Ht & Hnew).
  simpl in Hall. subst new.
  destruct (chunk_loop_ok (default "unknown" (pdf_name doc)) full_text map'
              (split_text self full_text)
              {| all_chunks := []; chunk_counter := 0; current_search_start := 0 |}
              Hmap) as (st2 & Hloop2 & _ & Hidx); [by split|].
  rewrite Hloop in Hloop2. injection Hloop2 as <-. done.
Qed.

Lemma pair_of_fst {A B} (p : A * B) (a : A) : p.1 = a → p = (a, p.2).
Proof. destruct p. simpl. by intros ->. Qed.

(** The run of the example returns. *)
Lemma example_chunk_run :
  ∃ chunked,
    chunk_document example_chunker "cleaned/emi_rules_cleaned.json"
      example_cleaned_json None ∅
    = (Ok chunked,
       (chunk_document example_chunker "cleaned/emi_rules_cleaned.json"
          example_cleaned_json None ∅).2).
Proof. eexists. apply pair_of_fst. vm_compute. reflexivity. Defined.

End ChunkerMore.

(** X11. The chunks are the pieces of the splitter that pass the two
    tests of the loop, in the splitter's order and with nothing else:
    a piece becomes a chunk exactly when its stripped text has at least 15
    characters and the piece occurs in the full text.  Each chunk records
    the length and the word count of its text. *)
Theorem chunks_are_the_pieces_found_in_the_text :
  ∀ (self : DocumentChunker.t) (cleaned_json_path : string)
    (doc : DocumentChunker.cleaned_json) (output_path : option string)
    (fs fs' : DocumentChunker.files) (chunked : DocumentChunker.chunked_json),
    DocumentChunker.chunk_document self cleaned_json_path doc output_path fs
    = (Ok chunked, fs') →
    let full_text := (DocumentChunker.build_full_text doc).1 in
    map DocumentChunker.text (DocumentChunker.chunks chunked)
    = filter (fun p => keeps_piece full_text p = true)
        (DocumentChunker.split_text self full_text)
    ∧ Forall (fun c => (15 ≤ len (strip (DocumentChunker.text c)))%nat
                       ∧ contains full_text (DocumentChunker.text c) = true
                       ∧ DocumentChunker.char_count c = len (DocumentChunker.text c)
                       ∧ DocumentChunker.word_count c
                         = Py.word_count (DocumentChunker.text c))
        (DocumentChunker.chunks chunked).
Proof.
  intros self path doc out fs fs' chunked Hrun. cbv zeta.
  destruct (chunk_document_spec _ _ _ _ _ _ _ Hrun) as (_ & Ht & Hall & _).
  split; [exact Ht|].
  apply Forall_forall. intros c Hc.
  assert (Hk : keeps_piece (DocumentChunker.build_full_text doc).1
                 (DocumentChunker.text c) = true).
  { assert (Hin : DocumentChunker.text c
                  ∈ map DocumentChunker.text (DocumentChunker.chunks chunked))
      by (apply list_elem_of_fmap; eauto).
    rewrite Ht in Hin. by apply list_elem_of_filter in Hin as [? _]. }
  apply andb_true_iff in Hk as [H15 Hcont]. apply Nat.leb_le in H15.
  rewrite Forall_forall in Hall. destruct (Hall c Hc) as (_ & Hn & Hw & _).
  done.
Qed.

Lemma chunks_are_the_pieces_found_in_the_text_witness :
  ∃ chunked fs',
    DocumentChunker.chunk_document example_chunker "cleaned/emi_rules_cleaned.json"
      example_cleaned_json None ∅ = (Ok chunked, fs')
    ∧ map DocumentChunker.text (DocumentChunker.chunks chunked)
      = ["An EMI shall maintain a minimum capital.";
         "The licence fee is payable every year."].
Proof.
  destruct example_chunk_run as [chunked Hrun]. exists chunked. eexists.
  split; [exact Hrun|].
  destruct (chunks_are_the_pieces_found_in_the_text _ _ _ _ _ _ _ Hrun) as [Ht _].
  rewrite Ht. vm_compute. reflexivity.
Defined.

(** X12. The ids of the chunks of a document are pairwise distinct: each
    is the document name, an underscore and the chunk's index, and the
    indices are distinct. *)
Theorem chunk_ids_are_unique :
  ∀ (self : DocumentChunker.t) (cleaned_json_path : string)
    (doc : DocumentChunker.cleaned_json) (output_path : option string)
    (fs fs' : DocumentChunker.files) (chunked : DocumentChunker.chunked_json),
    DocumentChunker.chunk_document self cleaned_json_path doc output_path fs
    = (Ok chunked, fs') →
    NoDup (map DocumentChunker.id (DocumentChunker.chunks chunked))
    ∧ Forall (fun c => DocumentChunker.id c
                       = DocumentChunker.c_pdf_name chunked +:+ "_"
                         +:+ pretty (DocumentChunker.chunk_index
                                       (DocumentChunker.metadata c))
                       ∧ DocumentChunker.m_pdf_name (DocumentChunker.metadata c)
                         = DocumentChunker.c_pdf_name chunked)
        (DocumentChunker.chunks chunked).
Proof.
  intros self path doc out fs fs' chunked Hrun.
  destruct (chunk_document_spec _ _ _ _ _ _ _ Hrun) as (Hname & _ & Hall & Hidx).
  assert (Hids : Forall (fun c => DocumentChunker.id c
                       = DocumentChunker.c_pdf_name chunked +:+ "_"
                         +:+ pretty (DocumentChunker.chunk_index
                                       (DocumentChunker.metadata c))
                       ∧ DocumentChunker.m_pdf_name (DocumentChunker.metadata c)
                         = DocumentChunker.c_pdf_name chunked)
                   (DocumentChunker.chunks chunked)).
  { eapply Forall_impl; [exact Hall|]. intros c (Hid & _ & _ & Hn & _).
    by rewrite Hname. }
  split; [|exact Hids].
  assert (Hmap : map DocumentChunker.id (DocumentChunker.chunks chunked)
                 = map (fun n : nat => DocumentChunker.c_pdf_name chunked +:+ "_"
                                       +:+ pretty n)
                     (chunk_indices (DocumentChunker.chunks chunked))).
  { unfold chunk_indices. rewrite map_map. apply map_ext_Forall.
    eapply Forall_impl; [exact Hids|]. by intros c [? _]. }
  rewrite Hmap, Hidx. apply NoDup_fmap_2; [|apply NoDup_seq].
  intros n m Hnm.
  apply (inj (String.app _)) in Hnm.
  apply (inj (String.app _)) in Hnm. by apply (inj pretty) in Hnm.
Qed.

(** X13. The pages of a chunk are the pages of its first and of its last
    character.  For every chunk there is a position of the full text at
    which the chunk's text stands, such that [start_page] is the label of
    the page that position falls in and [end_page] the label of the page
    the chunk's last character falls in, where each page with content
    takes up its text and the two line feeds that follow it, and a page
    without a number is labelled with a question mark. *)
Theorem chunk_pages_are_those_of_its_occurrence :
  ∀ (self : DocumentChunker.t) (cleaned_json_path : string)
    (doc : DocumentChunker.cleaned_json) (output_path : option string)
    (fs fs' : DocumentChunker.files) (chunked : DocumentChunker.chunked_json),
    DocumentChunker.chunk_document self cleaned_json_path doc output_path fs
    = (Ok chunked, fs') →
    let full_text := (DocumentChunker.build_full_text doc).1 in
    let pages := default [] (DocumentChunker.pages doc) in
    Forall (fun c =>
              ∃ i, occurs_at (DocumentChunker.text c) full_text i
                   ∧ page_at pages i
                     = Some (DocumentChunker.start_page (DocumentChunker.metadata c))
                   ∧ page_at pages (i + len (DocumentChunker.text c) - 1)
                     = Some (DocumentChunker.end_page (DocumentChunker.metadata c)))
      (DocumentChunker.chunks chunked).
Proof.
  intros self path doc out fs fs' chunked Hrun. cbv zeta.
  destruct (chunk_document_spec _ _ _ _ _ _ _ Hrun) as (_ & _ & Hall & _).
  eapply Forall_impl; [exact Hall|].
  intros c (_ & _ & _ & _ & _ & i & Hocc & Hs & He).
  exists i. rewrite <- !build_full_text_lookup. done.
Qed.

Lemma chunk_pages_are_those_of_its_occurrence_witness :
  ∃ chunked fs',
    DocumentChunker.chunk_document example_chunker "cleaned/emi_rules_cleaned.json"
      example_cleaned_json None ∅ = (Ok chunked, fs')
    ∧ Forall (fun c =>
                ∃ i, occurs_at (DocumentChunker.text c)
                       (DocumentChunker.build_full_text example_cleaned_json).1 i
                     ∧ page_at (default [] (DocumentChunker.pages example_cleaned_json)) i
                       = Some (DocumentChunker.start_page (DocumentChunker.metadata c))
                     ∧ page_at (default [] (DocumentChunker.pages example_cleaned_json))
                         (i + len (DocumentChunker.text c) - 1)
                       = Some (DocumentChunker.end_page (DocumentChunker.metadata c)))
        (DocumentChunker.chunks chunked).
Proof.
  destruct example_chunk_run as [chunked Hrun]. exists chunked. eexists.
  split; [exact Hrun|].
  exact (chunk_pages_are_those_of_its_occurrence _ _ _ _ _ _ _ Hrun).
Defined.

Lemma chunk_ids_are_unique_witness :
  ∃ chunked fs',
    DocumentChunker.chunk_document example_chunker "cleaned/emi_rules_cleaned.json"
      example_cleaned_json None ∅ = (Ok chunked, fs')
    ∧ NoDup (map DocumentChunker.id (DocumentChunker.chunks chunked)).
Proof.
  destruct example_chunk_run as [chunked Hrun]. exists chunked. eexists.
  split; [exact Hrun|].
  exact (proj1 (chunk_ids_are_unique _ _ _ _ _ _ _ Hrun)).
Defined.

(* ===================================================================== *)
(** * More on the text cleaner *)
(* ===================================================================== *)

Section StripFacts.

Lemma isdigit_not_space (c : ascii) : isdigit c = true → isspace c = false.
Proof. destruct c as [[] [] [] [] [] [] [] []]; vm_compute; congruence. Qed.

(** Stripping removes white space only. *)
Lemma elem_of_strip_chars (c : ascii) (l : list ascii) :
  c ∈ l → isspace c = false → c ∈ strip_chars l.
Proof.
  intros Hc Hs. unfold strip_chars.
  destruct (drop_space_prefix_spaces l) as (ws & Hl & Hws).
  destruct (rstrip_suffix_spaces (drop_space l)) as (ws' & Hl' & Hws').
  rewrite Hl, Hl' in Hc.
  apply elem_of_app in Hc as [Hc|Hc].
  { rewrite Forall_forall in Hws. rewrite (Hws c Hc) in Hs. done. }
  apply elem_of_app in Hc as [Hc|Hc]; [done|].
  rewrite Forall_forall in Hws'. rewrite (Hws' c Hc) in Hs. done.
Qed.

Lemma strip_chars_subseteq (c : ascii) (l : list ascii) :
  c ∈ strip_chars l → c ∈ l.
Proof.
  intros Hc. unfold strip_chars in Hc.
  destruct (drop_space_prefix_spaces l) as (ws & Hl & _).
  destruct (rstrip_suffix_spaces (drop_space l)) as (ws' & Hl' & _).
  rewrite Hl, Hl'. apply elem_of_app. right. apply elem_of_app. by left.
Qed.

Lemma chars_strip (s : string) : chars (strip s) = strip_chars (chars s).
Proof. unfold strip. by rewrite chars_str. Qed.

End StripFacts.

Section KeepFacts.

Import TextCleaner.

(** A digit anywhere in a line makes [_should_keep_line] true, by its
    first test. *)
Lemma digit_is_kept (line : string) :
  has_digit line → _should_keep_line line = true.
Proof.
  intros (c & Hc & Hd). unfold _should_keep_line. cbv zeta.
  assert (Hs : Re.search number_re (chars (strip line)) = true).
  { apply search_spec.
    assert (Hin : c ∈ chars (strip line)).
    { rewrite chars_strip. apply elem_of_strip_chars; [done|].
      by apply isdigit_not_space. }
    apply list_elem_of_split in Hin as (pre & post & ->).
    exists pre, [c], post. split; [done|]. by apply number_re_digit. }
  by rewrite Hs.
Qed.

End KeepFacts.

(** X14. A digit protects a line.  Any line with a digit in it, a lone
    page number included, passes [_should_keep_line] at its first test, so
    it is never put among the globally frequent lines, however often it
    occurs in the document. *)
Theorem a_digit_protects_a_line :
  ∀ (self : TextCleaner.t) (doc : TextCleaner.document) (line : string),
    has_digit line →
    TextCleaner._should_keep_line line = true
    ∧ match TextCleaner.analyze_document self doc with
      | Ok (_, a) => line ∉ TextCleaner.globally_frequent a
      | Raise _ => True
      end.
Proof.
  intros self doc line Hd.
  pose proof (digit_is_kept line Hd) as Hkeep. split; [exact Hkeep|].
  pose proof (analyze_document_spec self doc) as Hspec.
  destruct (TextCleaner.analyze_document self doc) as [[self' a]|e]; [|done].
  destruct Hspec as (Hlines & _). destruct (Hlines line) as (_ & _ & Hg).
  intros Hin. apply Hg in Hin as (_ & _ & Hfalse). congruence.
Qed.

Lemma a_digit_protects_a_line_witness :
  has_digit "- 12 -"
  ∧ TextCleaner._should_keep_line "- 12 -" = true
  ∧ match TextCleaner.analyze_document TextCleaner.default_cleaner example_four_pages with
    | Ok (_, a) => "- 12 -" ∉ TextCleaner.globally_frequent a
    | Raise _ => True
    end.
Proof.
  assert (H : has_digit "- 12 -").
  { exists "1"%char. split; [|reflexivity].
    apply list_elem_of_In. simpl. auto. }
  split; [exact H|].
  exact (a_digit_protects_a_line TextCleaner.default_cleaner example_four_pages
           "- 12 -" H).
Defined.

Section SplitJoin.

(** The pieces [split] cuts hold no separator. *)
Lemma split_chars_no_sep (sep : ascii) (l : list ascii) :
  Forall (fun piece => sep ∉ piece) (split_chars sep l).
Proof.
  induction l as [|c l IH]; simpl.
  - constructor; [|constructor]. apply not_elem_of_nil.
  - destruct (Ascii.eqb c sep) eqn:E.
    + constructor; [apply not_elem_of_nil|done].
    + destruct (split_chars sep l) as [|w ws]; inversion IH; subst.
      * constructor; [|constructor]. intros H.
        apply list_elem_of_singleton in H. subst.
        by rewrite Ascii.eqb_refl in E.
      * constructor; [|done]. intros H. apply elem_of_cons in H as [->|H].
        -- by rewrite Ascii.eqb_refl in E.
        -- done.
Qed.

Lemma split_chars_whole (sep : ascii) (l : list ascii) :
  sep ∉ l → split_chars sep l = [l].
Proof.
  induction l as [|c l IH]; simpl; [done|]. intros H.
  apply not_elem_of_cons in H as [Hc Hl].
  destruct (Ascii.eqb c sep) eqn:E; [apply Ascii.eqb_eq in E; congruence|].
  by rewrite (IH Hl).
Qed.

Lemma split_chars_app_sep (sep : ascii) (l1 l2 : list ascii) :
  sep ∉ l1 → split_chars sep (l1 ++ sep :: l2) = l1 :: split_chars sep l2.
Proof.
  induction l1 as [|c l1 IH]; simpl; intros H.
  - by rewrite Ascii.eqb_refl.
  - apply not_elem_of_cons in H as [Hc Hl].
    destruct (Ascii.eqb c sep) eqn:E; [apply Ascii.eqb_eq in E; congruence|].
    by rewrite (IH Hl).
Qed.

Lemma chars_join_cons (sep x : string) (xs : list string) :
  chars (join sep (x :: xs))
  = match xs with
    | [] => chars x
    | _ :: _ => chars x ++ chars sep ++ chars (join sep xs)
    end.
Proof. destruct xs; simpl; [done|]. by rewrite !chars_app. Qed.

(** Splitting what [join] made gives the lines back. *)
Lemma split_lines_join (ls : list string) :
  ls ≠ [] →
  Forall (fun x => newline ∉ chars x) ls →
  split_lines (join nl ls) = ls.
Proof.
  unfold split_lines. induction ls as [|x xs IH]; [done|]. intros _ H.
  apply Forall_cons in H as [Hx Hxs]. rewrite chars_join_cons.
  destruct xs as [|y ys].
  - rewrite split_chars_whole by done. simpl. by rewrite str_chars.
  - change (chars nl) with [newline]. simpl app.
    rewrite split_chars_app_sep by done. cbn [map].
    rewrite str_chars. f_equal. by apply IH.
Qed.

Lemma split_lines_no_newline (t : string) :
  Forall (fun x => newline ∉ chars x) (split_lines t).
Proof.
  unfold split_lines. apply Forall_fmap.
  eapply Forall_impl; [apply (split_chars_no_sep newline)|].
  intros piece H. simpl. by rewrite chars_str.
Qed.

Lemma strip_no_newline (x : string) :
  newline ∉ chars x → newline ∉ chars (strip x).
Proof.
  intros H Hin. apply H. rewrite chars_strip in Hin.
  by apply strip_chars_subseteq in Hin.
Qed.

End SplitJoin.

Section StrippedEnds.

Lemma rstrip_fixed_last (l : list ascii) :
  rstrip_chars l = l → l ≠ [] → ∃ d, last l = Some d ∧ isspace d = false.
Proof.
  induction l as [|c l IH]; [done|]. simpl. intros H _.
  destruct (rstrip_chars l) as [|r rs] eqn:E.
  - destruct (isspace c) eqn:Ec; [done|]. injection H as <-. eauto.
  - injection H as H. destruct l as [|c' l']; [done|].
    destruct IH as (d & Hd & Hs); [by rewrite <- H|done|]. eauto.
Qed.

Lemma last_not_space_rstrip (l : list ascii) (d : ascii) :
  last l = Some d → isspace d = false → rstrip_chars l = l.
Proof.
  intros Hl Hd. destruct (rstrip_suffix_spaces l) as (ws & Hw & Hsp).
  destruct ws as [|w ws' _] using rev_ind.
  - by rewrite app_nil_r in Hw.
  - rewrite Hw, app_assoc, last_snoc in Hl. injection Hl as ->.
    apply Forall_app in Hsp as [_ Hsp]. apply Forall_cons in Hsp as [Hsp _].
    congruence.
Qed.

(** A non-empty list of characters is its own strip exactly when it begins
    and ends with something other than white space. *)
Lemma strip_chars_fixed (l : list ascii) :
  l ≠ [] →
  (strip_chars l = l
   ↔ (∃ c, head l = Some c ∧ isspace c = false)
     ∧ (∃ d, last l = Some d ∧ isspace d = false)).
Proof.
  intros Hne. split.
  - intros H. destruct l as [|c l']; [done|].
    assert (Hc : isspace c = false).
    { destruct (isspace c) eqn:Ec; [|done]. exfalso.
      unfold strip_chars in H. simpl in H. rewrite Ec in H.
      pose proof (rstrip_length (drop_space l')) as H1.
      pose proof (drop_space_length l') as H2.
      rewrite H in H1. simpl in H1. lia. }
    split; [eauto|]. apply rstrip_fixed_last; [|done].
    unfold strip_chars in H. simpl in H. by rewrite Hc in H.
  - intros [(c & Hc & Hs) (d & Hd & Hs')].
    destruct l as [|c' l']; [done|]. injection Hc as ->.
    unfold strip_chars. simpl. rewrite Hs.
    by apply (last_not_space_rstrip _ d).
Qed.

Lemma head_chars_join (x : string) (xs : list string) :
  str_truthy x = true → head (chars (join nl (x :: xs))) = head (chars x).
Proof.
  intros Hx. rewrite chars_join_cons. destruct xs; [done|].
  destruct x as [|c x']; [done|]. reflexivity.
Qed.

Lemma last_chars_join (ls : list string) (y : string) :
  last ls = Some y → str_truthy y = true →
  last (chars (join nl ls)) = last (chars y).
Proof.
  induction ls as [|x xs IH]; [done|]. intros Hl Hy.
  rewrite chars_join_cons. destruct xs as [|x' xs'].
  - by injection Hl as ->.
  - assert (Hd : is_Some (last (chars y))).
    { apply last_is_Some. by destruct y. }
    destruct Hd as [d Hd].
    rewrite last_app, last_app, (IH Hl Hy), Hd. done.
Qed.

End StrippedEnds.

Section NormalizeFacts.

Import TextCleaner.

Lemma blank_runs_mono (k k' : nat) (l : list string) :
  (k ≤ k')%nat → blank_runs_within k' l = true → blank_runs_within k l = true.
Proof.
  revert k k'. induction l as [|x l IH]; intros k k' Hk; [done|].
  cbn [blank_runs_within]. destruct (str_truthy x); [done|]. intros H.
  apply andb_true_iff in H as [H1 H2]. apply Nat.leb_le in H1.
  apply andb_true_iff. split; [apply Nat.leb_le; lia|].
  apply (IH (S k) (S k')); [lia|done].
Qed.

Lemma blank_runs_app_l (k : nat) (l1 l2 : list string) :
  blank_runs_within k (l1 ++ l2) = true → blank_runs_within k l1 = true.
Proof.
  revert k. induction l1 as [|x l1 IH]; intros k; [done|].
  cbn [app blank_runs_within]. destruct (str_truthy x); [apply IH|]. intros H.
  apply andb_true_iff in H as [H1 H2]. apply andb_true_iff. split; [done|].
  by apply IH.
Qed.

Lemma keep_blank_runs_step (acc : list string) (k : nat) (x : string) :
  keep_blank_runs (acc, k) x
  = if negb (str_truthy x)
    then if (S k <=? 2)%nat then (acc ++ [x], S k) else (acc, S k)
    else (acc ++ [x], 0%nat).
Proof. reflexivity. Qed.

(** The loop of [_normalize_whitespace]: what it appends is taken from the
    lines, in order, and holds no run of more than two blank lines. *)
Lemma keep_blank_runs_fold (l : list string) (acc : list string) (k : nat) :
  ∃ new,
    (fold_left keep_blank_runs l (acc, k)).1 = acc ++ new
    ∧ blank_runs_within k new = true
    ∧ Forall (fun x => x ∈ l) new.
Proof.
  revert acc k. induction l as [|x l IH]; intros acc k.
  - exists []. simpl. by rewrite app_nil_r.
  - cbn [fold_left]. rewrite keep_blank_runs_step.
    assert (Hin : ∀ new, Forall (fun y => y ∈ l) new →
                         Forall (fun y => y ∈ x :: l) new).
    { intros new Hnew. eapply Forall_impl; [exact Hnew|].
      intros y Hy. by right. }
    destruct (str_truthy x) eqn:Ex; cbn [negb].
    + destruct (IH (acc ++ [x]) 0%nat) as (new & H1 & H2 & H3).
      exists (x :: new). rewrite H1, <- app_assoc. split; [done|].
      cbn [blank_runs_within]. rewrite Ex. split; [done|].
      constructor; [by left|by apply Hin].
    + destruct (S k <=? 2)%nat eqn:Ek.
      * destruct (IH (acc ++ [x]) (S k)) as (new & H1 & H2 & H3).
        exists (x :: new). rewrite H1, <- app_assoc. split; [done|].
        cbn [blank_runs_within]. rewrite Ex, Ek, H2. split; [done|].
        constructor; [by left|by apply Hin].
      * destruct (IH acc (S k)) as (new & H1 & H2 & H3).
        exists new. split; [done|]. split; [|by apply Hin].
        apply (blank_runs_mono k (S k)); [lia|done].
Qed.

(** On lines without a long run of blank lines the loop changes nothing. *)
Lemma keep_blank_runs_id (l : list string) (acc : list string) (k : nat) :
  blank_runs_within k l = true →
  (fold_left keep_blank_runs l (acc, k)).1 = acc ++ l.
Proof.
  revert acc k. induction l as [|x l IH]; intros acc k.
  - simpl. by rewrite app_nil_r.
  - cbn [fold_left blank_runs_within]. rewrite keep_blank_runs_step.
    destruct (str_truthy x) eqn:Ex; cbn [negb].
    + intros H. rewrite IH by done. by rewrite <- app_assoc.
    + intros H. apply andb_true_iff in H as [H1 H2].
      rewrite H1. rewrite IH by done. by rewrite <- app_assoc.
Qed.

Lemma drop_blank_spec (l : list string) :
  ∃ pre, l = pre ++ drop_blank l
         ∧ Forall blank pre
         ∧ match drop_blank l with
           | [] => True
           | x :: _ => str_truthy x = true
           end.
Proof.
  induction l as [|x l IH]; simpl.
  - by exists [].
  - destruct (str_truthy x) eqn:Ex.
    + exists []. by rewrite Ex.
    + destruct IH as (pre & H1 & H2 & H3). exists (x :: pre).
      split; [simpl; by f_equal|]. split; [by constructor|done].
Qed.

Lemma drop_blank_id (l : list string) :
  match l with [] => True | x :: _ => str_truthy x = true end →
  drop_blank l = l.
Proof. destruct l as [|x l]; simpl; [done|]. by intros ->. Qed.

Lemma blank_runs_after_blanks (k : nat) (pre l : list string) :
  Forall blank pre →
  match l with [] => True | x :: _ => str_truthy x = true end →
  blank_runs_within k (pre ++ l) = true → blank_runs_within 0 l = true.
Proof.
  revert k. induction pre as [|p pre IH]; intros k Hpre Hl.
  - simpl. destruct l as [|x l']; [done|]. cbn [blank_runs_within]. by rewrite Hl.
  - apply Forall_cons in Hpre as [Hp Hpre]. unfold blank in Hp.
    cbn [app blank_runs_within]. rewrite Hp.
    intros H. apply andb_true_iff in H as [_ H]. by apply (IH (S k)).
Qed.

(** The lines [_normalize_whitespace] joins. *)
Lemma normalized_lines (t' : string) :
  ∃ ls,
    _normalize_whitespace t' = join nl ls
    ∧ Forall (fun x => strip x = x ∧ newline ∉ chars x) ls
    ∧ blank_runs_within 0 ls = true
    ∧ match ls with [] => True | x :: _ => str_truthy x = true end
    ∧ match last ls with None => True | Some y => str_truthy y = true end.
Proof.
  unfold _normalize_whitespace. cbv zeta.
  set (lines := map strip (split_lines t')).
  destruct (keep_blank_runs_fold lines [] 0) as (kept & Hk & Hruns & Hin).
  simpl in Hk. rewrite Hk.
  destruct (drop_blank_spec kept) as (pre & Hpre & Hblank & Hhead).
  set (front := drop_blank kept) in *.
  destruct (drop_blank_spec (rev front)) as (suf & Hsuf & Hblank' & Hlast).
  set (back := drop_blank (rev front)) in *.
  exists (rev back). split; [done|].
  assert (Hfront : front = rev back ++ rev suf).
  { rewrite <- rev_app_distr, <- Hsuf. by rewrite rev_involutive. }
  assert (Hlines : Forall (fun x => strip x = x ∧ newline ∉ chars x) lines).
  { subst lines. apply Forall_fmap.
    eapply Forall_impl; [apply split_lines_no_newline|].
    intros x Hx. simpl. split; [apply strip_idem|by apply strip_no_newline]. }
  assert (Hkept : Forall (fun x => strip x = x ∧ newline ∉ chars x) kept).
  { rewrite Forall_forall in Hin, Hlines. apply Forall_forall.
    intros x Hx. apply Hlines, Hin, Hx. }
  split; [|split; [|split]].
  - rewrite Hpre, Hfront in Hkept.
    apply Forall_app in Hkept as [_ Hkept]. by apply Forall_app in Hkept as [Hkept _].
  - assert (Hf : blank_runs_within 0 front = true).
    { rewrite Hpre in Hruns. by apply (blank_runs_after_blanks 0 pre). }
    rewrite Hfront in Hf. by apply blank_runs_app_l in Hf.
  - destruct (rev back) as [|x rest] eqn:Er; [done|].
    rewrite Hfront in Hhead. exact Hhead.
  - destruct back as [|y back']; [done|]. simpl. by rewrite last_snoc.
Qed.

End NormalizeFacts.

Section NormalizedText.

Import TextCleaner.

Lemma blank_runs_no_three (k : nat) (l : list string) :
  blank_runs_within k l = true → ¬ three_blank_lines l.
Proof.
  intros H (i & H1 & H2 & H3). revert k l H H1 H2 H3.
  induction i as [|i IH]; intros k l H H1 H2 H3.
  - destruct l as [|x [|y [|z l']]]; try done.
    injection H1 as ->. injection H2 as ->. injection H3 as ->.
    cbn [blank_runs_within str_truthy] in H.
    apply andb_true_iff in H as [_ H]. apply andb_true_iff in H as [_ H].
    apply andb_true_iff in H as [H _]. apply Nat.leb_le in H. lia.
  - destruct l as [|x l]; [done|]. cbn [blank_runs_within] in H.
    destruct (str_truthy x).
    + by apply (IH 0%nat l).
    + apply andb_true_iff in H as [_ H]. by apply (IH (S k) l).
Qed.

Lemma map_strip_id (ls : list string) :
  Forall (fun x => strip x = x ∧ newline ∉ chars x) ls → map strip ls = ls.
Proof.
  induction ls as [|x ls IH]; intros H; [done|].
  apply Forall_cons in H as [[Hx _] H]. simpl. by rewrite Hx, IH.
Qed.

Lemma stripped_line_ends (x : string) :
  strip x = x → str_truthy x = true →
  (∃ c, head (chars x) = Some c ∧ isspace c = false)
  ∧ (∃ d, last (chars x) = Some d ∧ isspace d = false).
Proof.
  intros Hs Hx. apply strip_chars_fixed; [by destruct x|].
  by rewrite <- chars_strip, Hs.
Qed.

(** The text [_normalize_whitespace] returns is stable: normalizing it
    again changes nothing, it has no white space at either end, its lines
    are stripped, and no three of them in a row are blank. *)
Lemma normalized_is_stable (t' : string) :
  let r := _normalize_whitespace t' in
  _normalize_whitespace r = r
  ∧ strip r = r
  ∧ Forall (fun line => strip line = line) (split_lines r)
  ∧ ¬ three_blank_lines (split_lines r).
Proof.
  cbv zeta.
  destruct (normalized_lines t') as (ls & Hr & Hall & Hruns & Hhead & Hlast).
  rewrite Hr. clear Hr.
  destruct ls as [|x ls'].
  { simpl. split; [by vm_compute|]. split; [by vm_compute|].
    split; [by repeat constructor|].
    intros (i & _ & H & _). by destruct i. }
  assert (Hxt : str_truthy x = true) by exact Hhead.
  assert (Hx : strip x = x).
  { pose proof Hall as H. by apply Forall_cons in H as [[? _] _]. }
  clear Hhead. set (ls := x :: ls') in *.
  assert (Hne : ls ≠ []) by done.
  assert (Hsplit : split_lines (join nl ls) = ls).
  { apply split_lines_join; [done|].
    eapply Forall_impl; [exact Hall|]. by intros y [_ ?]. }
  destruct (last ls) as [y|] eqn:Ey; [|by apply last_None in Ey].
  rewrite Hsplit. split; [|split; [|split]].
  - unfold _normalize_whitespace. cbv zeta.
    rewrite Hsplit, (map_strip_id ls Hall).
    rewrite (keep_blank_runs_id ls [] 0 Hruns). simpl app.
    rewrite (drop_blank_id ls) by exact Hxt.
    apply last_Some in Ey as [front Hfront]. rewrite Hfront.
    rewrite rev_unit. rewrite (drop_blank_id (y :: rev front)) by exact Hlast.
    simpl. by rewrite rev_involutive.
  - unfold strip. rewrite <- (str_chars (join nl ls)) at 2. f_equal.
    assert (Hy : strip y = y).
    { pose proof Ey as Ey'. apply last_Some in Ey' as [front Hfront].
      pose proof Hall as H. rewrite Hfront in H.
      apply Forall_app in H as [_ H].
      by apply Forall_cons in H as [[? _] _]. }
    destruct (stripped_line_ends x Hx Hxt) as [Hc _].
    destruct (stripped_line_ends y Hy Hlast) as [_ Hd].
    assert (Hh : head (chars (join nl ls)) = head (chars x))
      by (by apply head_chars_join).
    assert (Hl : last (chars (join nl ls)) = last (chars y))
      by (by apply last_chars_join).
    apply strip_chars_fixed.
    + intros Hnil. rewrite Hnil in Hh. destruct Hc as (c & Hc & _).
      rewrite Hc in Hh. done.
    + rewrite Hh, Hl. by split.
  - eapply Forall_impl; [exact Hall|]. by intros z [? _].
  - by apply (blank_runs_no_three 0).
Qed.

End NormalizedText.

(** X15. The cleaned text of a page is stable.  What
    [_normalize_whitespace] returns, and so what [clean_page_text] returns,
    is left unchanged by [_normalize_whitespace]; it has no white space at
    either end; each of its lines is stripped; and it never has three blank
    lines in a row. *)
Theorem cleaned_text_is_normalized :
  ∀ (self : TextCleaner.t) (text : option string) (t : string),
    let stable r :=
      TextCleaner._normalize_whitespace r = r
      ∧ strip r = r
      ∧ Forall (fun line => strip line = line) (split_lines r)
      ∧ ¬ three_blank_lines (split_lines r) in
    stable (TextCleaner._normalize_whitespace t)
    ∧ stable (TextCleaner.clean_page_text self text).
Proof.
  intros self text t. cbv zeta. split; [apply normalized_is_stable|].
  assert (Hempty : TextCleaner._normalize_whitespace "" = "") by (by vm_compute).
  unfold TextCleaner.clean_page_text.
  destruct text as [text'|]; [|rewrite <- Hempty; apply normalized_is_stable].
  destruct (negb (str_truthy text') || negb (str_truthy (strip text')));
    [rewrite <- Hempty|]; apply normalized_is_stable.
Qed.

Section PageNumbers.

Import Re TextCleaner.

Lemma lang_star_cls (p : ascii → bool) (l : list ascii) :
  lang (Star (Cls p)) l ↔ Forall (fun c => p c = true) l.
Proof.
  split.
  - intros H. remember (Star (Cls p)) as r eqn:Er.
    induction H as [| | | | | |r' l1 l2 H1 _ H2 IH2]; try discriminate.
    + constructor.
    + injection Er as ->. apply lang_cls_inv in H1 as (c & -> & Hc).
      constructor; [done|]. by apply IH2.
  - induction 1 as [|c l Hc _ IH]; [constructor|].
    change (c :: l) with ([c] ++ l). constructor; [by constructor|done].
Qed.

Lemma lang_plus_cls (p : ascii → bool) (l : list ascii) :
  lang (Plus (Cls p)) l ↔ l ≠ [] ∧ Forall (fun c => p c = true) l.
Proof.
  unfold Plus. split.
  - intros H. apply lang_cat_inv in H as (l1 & l2 & -> & H1 & H2).
    apply lang_cls_inv in H1 as (c & -> & Hc). apply lang_star_cls in H2.
    split; [done|]. by constructor.
  - intros [Hne H]. destruct l as [|c l]; [done|].
    apply Forall_cons in H as [Hc H].
    change (c :: l) with ([c] ++ l). constructor; [by constructor|].
    by apply lang_star_cls.
Qed.

Lemma lang_lit_i_inv (m l : list ascii) :
  lang (LitI m) l → map lower_char l = map lower_char m.
Proof.
  revert l. induction m as [|c m IH]; intros l H; simpl in H.
  - by apply lang_eps_inv in H as ->.
  - apply lang_cat_inv in H as (l1 & l2 & -> & H1 & H2).
    apply lang_cls_inv in H1 as (x & -> & Hx). apply Ascii.eqb_eq in Hx.
    simpl. by rewrite Hx, (IH l2 H2).
Qed.

Lemma lang_chr_inv (c : ascii) (l : list ascii) : lang (Chr c) l ↔ l = [c].
Proof.
  unfold Chr. split.
  - intros H. apply lang_cls_inv in H as (x & -> & Hx).
    by apply Ascii.eqb_eq in Hx as ->.
  - intros ->. constructor. apply Ascii.eqb_refl.
Qed.

Lemma str_isdigit_spec (s : string) :
  str_isdigit s = true
  ↔ chars s ≠ [] ∧ Forall (fun c => isdigit_char c = true) (chars s).
Proof.
  unfold str_isdigit. rewrite andb_true_iff, forallb_forall, Forall_forall.
  split.
  - intros [H1 H2]. split; [by destruct s|].
    intros c Hc. apply H2. by apply list_elem_of_In.
  - intros [H1 H2]. split; [by destruct s|].
    intros c Hc. apply H2. by apply list_elem_of_In.
Qed.

Lemma page_word_prefix (l : list ascii) :
  match_prefix page_word_re l = true
  ↔ ∃ w ws d rest,
      l = w ++ ws ++ d :: rest
      ∧ map lower_char w = chars "page"
      ∧ ws ≠ [] ∧ Forall (fun c => isspace c = true) ws
      ∧ isdigit d = true.
Proof.
  rewrite match_prefix_spec. unfold page_word_re. cbn [Seq]. split.
  - intros (l1 & l2 & -> & H).
    apply lang_cat_inv in H as (w & l3 & -> & Hw & H).
    apply lang_cat_inv in H as (ws & ds & -> & Hws & Hds).
    apply lang_lit_i_inv in Hw. apply lang_plus_cls in Hws as [Hne Hws].
    apply lang_plus_cls in Hds as [Hne' Hds].
    destruct ds as [|d ds']; [done|]. apply Forall_cons in Hds as [Hd _].
    exists w, ws, d, (ds' ++ l2). rewrite <- !app_assoc. by repeat split.
  - intros (w & ws & d & rest & -> & Hw & Hne & Hws & Hd).
    exists (w ++ ws ++ [d]), rest. split; [by rewrite <- !app_assoc|].
    constructor; [by apply lang_lit_i|].
    constructor; [by apply lang_plus_cls|].
    apply lang_plus_cls. split; [done|]. by repeat constructor.
Qed.

Lemma number_bar_prefix (l : list ascii) :
  match_prefix number_bar_re l = true
  ↔ ∃ ds ws rest,
      l = ds ++ ws ++ "|"%char :: rest
      ∧ ds ≠ [] ∧ Forall (fun c => isdigit c = true) ds
      ∧ Forall (fun c => isspace c = true) ws.
Proof.
  rewrite match_prefix_spec. unfold number_bar_re. cbn [Seq]. split.
  - intros (l1 & l2 & -> & H).
    apply lang_cat_inv in H as (ds & l3 & -> & Hds & H).
    apply lang_cat_inv in H as (ws & bar & -> & Hws & Hbar).
    apply lang_plus_cls in Hds as [Hne Hds]. apply lang_star_cls in Hws.
    apply lang_chr_inv in Hbar as ->.
    exists ds, ws, l2. rewrite <- !app_assoc. by repeat split.
  - intros (ds & ws & rest & -> & Hne & Hds & Hws).
    exists (ds ++ ws ++ ["|"%char]), rest. split; [by rewrite <- !app_assoc|].
    constructor; [by apply lang_plus_cls|].
    constructor; [by apply lang_star_cls|]. by apply lang_chr_inv.
Qed.

End PageNumbers.

(** X16. What counts as a page number.  [_is_page_number] is true of a
    line exactly when the stripped line has one of three shapes: it is made
    of digits only; it begins with the word [Page], in any letter case,
    white space and a digit; or it begins with digits, optional white space
    and a bar.  In the last two shapes whatever follows on the line is not
    looked at. *)
Theorem page_number_lines_have_three_shapes :
  ∀ (line : string),
    TextCleaner._is_page_number line = true
    ↔ page_number_shape (chars (strip line)).
Proof.
  intros line. unfold TextCleaner._is_page_number, page_number_shape. cbv zeta.
  rewrite <- str_isdigit_spec, <- page_word_prefix, <- number_bar_prefix.
  destruct (TextCleaner.str_isdigit (strip line));
    destruct (Re.match_prefix TextCleaner.page_word_re (chars (strip line)));
    destruct (Re.match_prefix TextCleaner.number_bar_re (chars (strip line)));
    intuition congruence.
Qed.

(* ===================================================================== *)
(** * The embedder: its collections, and what a run may change *)
(* ===================================================================== *)

Section EmbedderFacts.

Import Embedder.

Lemma try_delete_lookup_client (name other : string) (db : Retriever.client) :
  try_delete name db !! other
  = if decide (name = other) then None else db !! other.
Proof.
  unfold try_delete, Router.delete_collection.
  destruct (db !! name) eqn:E.
  - rewrite lookup_delete. by destruct (decide (name = other)).
  - destruct (decide (name = other)) as [<-|]; done.
Qed.

Lemma get_or_create_lookup (name other : string) (db : Retriever.client) :
  get_or_create_collection name db !! other
  = if decide (name = other)
    then Some (default (empty_collection name) (db !! name))
    else db !! other.
Proof.
  unfold get_or_create_collection. destruct (db !! name) eqn:E.
  - destruct (decide (name = other)) as [<-|]; [by rewrite E|done].
  - destruct (decide (name = other)) as [<-|].
    + by rewrite lookup_insert_eq.
    + by rewrite lookup_insert_ne.
Qed.

(** The two names of a mode are apart. *)
Lemma collection_names_distinct (now : string) (mode : json) (u : option string)
    (text_name image_name : string) :
  collection_names now mode u = Ok (text_name, image_name) →
  text_name ≠ image_name
  ∧ (mode = JStr "regulatory" ∨ mode = JStr "uploaded").
Proof.
  unfold collection_names.
  destruct (json_eq_str mode "regulatory") eqn:E1.
  { apply json_eq_str_spec in E1. intros [= <- <-]. split; [done|by left]. }
  destruct (json_eq_str mode "uploaded") eqn:E2; [|done].
  apply json_eq_str_spec in E2. cbv zeta. intros [= <- <-].
  split; [|by right]. cbn. intros H. by simplify_eq.
Qed.

Lemma touches_only_refl (names : list string) (db : Retriever.client) :
  touches_only names db db.
Proof. by split. Qed.

Lemma touches_only_trans (names : list string) (db1 db2 db3 : Retriever.client) :
  touches_only names db1 db2 → touches_only names db2 db3 →
  touches_only names db1 db3.
Proof.
  intros [H1 D1] [H2 D2]. split; [|by rewrite D2].
  intros other Ho. by rewrite H2, H1.
Qed.

Lemma upsert_lists_touches (E : env) (name : string) (names : list string)
    (lists : list string * list string * list Retriever.metadata)
    (db : Retriever.client) :
  name ∈ names → touches_only names db (upsert_lists E name lists db).2.
Proof.
  intros Hname. unfold upsert_lists. destruct lists as [[ids' texts] metadatas'].
  destruct (negb (list_truthy texts)); [apply touches_only_refl|].
  destruct (db !! name) as [col|] eqn:Ecol; [|apply touches_only_refl].
  destruct (upsert E col _) as [col'|e]; [|apply touches_only_refl].
  split; simpl.
  - intros other Ho. apply lookup_insert_ne. by intros ->.
  - apply dom_insert_lookup_L. by rewrite Ecol.
Qed.

Lemma for_each_touches {F} (names : list string)
    (body : F → Retriever.client → result unit * Retriever.client)
    (files : list F) (db : Retriever.client) :
  (∀ file db0, touches_only names db0 (body file db0).2) →
  touches_only names db (for_each body files db).2.
Proof.
  intros Hbody. revert db. induction files as [|file files IH]; intros db; simpl.
  - apply touches_only_refl.
  - specialize (Hbody file db). destruct (body file db) as [[[]|e] db']; simpl in *.
    + eapply touches_only_trans; [exact Hbody|apply IH].
    + exact Hbody.
Qed.

Lemma embed_text_file_touches (E : env) (self : t) (names : list string)
    (file : text_file) (db : Retriever.client) :
  text_collection_name self ∈ names →
  touches_only names db (embed_text_file E self file db).2.
Proof.
  intros H. unfold embed_text_file. cbv zeta.
  destruct (collect_chunks add_text_chunk _ _); [|apply touches_only_refl].
  by apply upsert_lists_touches.
Qed.

Lemma embed_image_file_touches (E : env) (self : t) (names : list string)
    (file : image_file) (db : Retriever.client) :
  image_collection_name self ∈ names →
  touches_only names db (embed_image_file E self file db).2.
Proof.
  intros H. unfold embed_image_file. cbv zeta.
  destruct (collect_chunks add_image_chunk _ _); [|apply touches_only_refl].
  by apply upsert_lists_touches.
Qed.

(** A run changes the two collections of the embedder at most. *)
Lemma run_touches (E : env) (self : t) (text_dir : option (list text_file))
    (image_dir : option (list image_file)) (db : Retriever.client) :
  touches_only [text_collection_name self; image_collection_name self] db
    (run E self text_dir image_dir db).2.
Proof.
  unfold run, embed_text_chunks, embed_image_chunks.
  pose proof (for_each_touches
                [text_collection_name self; image_collection_name self]
                (embed_text_file E self) (default [] text_dir) db) as Ht.
  destruct (for_each (embed_text_file E self) (default [] text_dir) db)
    as [[[]|e] db1]; simpl in *.
  - eapply touches_only_trans.
    + apply Ht. intros file db0. apply embed_text_file_touches.
      apply list_elem_of_In. simpl. auto.
    + apply for_each_touches. intros file db0. apply embed_image_file_touches.
      apply list_elem_of_In. simpl. auto.
  - apply Ht. intros file db0. apply embed_text_file_touches.
    apply list_elem_of_In. simpl. auto.
Qed.

(** The loop over the chunks of a file raises at a chunk that lacks a
    key. *)
Lemma collect_text_incomplete (chunks : list text_chunk)
    (acc : list string * list string * list Retriever.metadata) :
  Exists text_chunk_incomplete chunks →
  ∃ key, key ∈ ["id"; "text"; "metadata"]
         ∧ collect_chunks add_text_chunk chunks acc = Raise (KeyError key).
Proof.
  intros H. revert acc. induction H as [chunk rest Hc|chunk rest _ IH]; intros acc.
  - destruct acc as [[ids' texts] metadatas']. cbn [collect_chunks].
    unfold add_text_chunk.
    destruct (tc_id chunk) as [i|] eqn:Ei; cbn;
      [|exists "id"; split; [apply list_elem_of_In; simpl; auto|done]].
    destruct (tc_text chunk) as [t'|] eqn:Et; cbn;
      [|exists "text"; split; [apply list_elem_of_In; simpl; auto|done]].
    destruct (tc_metadata chunk) as [m|] eqn:Em; cbn;
      [|exists "metadata"; split; [apply list_elem_of_In; simpl; auto|done]].
    destruct Hc as [?|[?|?]]; congruence.
  - cbn [collect_chunks]. destruct (add_text_chunk acc chunk) as [acc'|e] eqn:Estep.
    + cbn. apply IH.
    + cbn. destruct acc as [[ids' texts] metadatas']. unfold add_text_chunk in Estep.
      destruct (tc_id chunk); cbn in Estep;
        [|injection Estep as <-; exists "id"; split;
          [apply list_elem_of_In; simpl; auto|done]].
      destruct (tc_text chunk); cbn in Estep;
        [|injection Estep as <-; exists "text"; split;
          [apply list_elem_of_In; simpl; auto|done]].
      destruct (tc_metadata chunk); cbn in Estep;
        [done|injection Estep as <-; exists "metadata"; split;
          [apply list_elem_of_In; simpl; auto|done]].
Qed.

End EmbedderFacts.

(** X19. What [Embedder.__init__] does to the store.  For the modes
    [regulatory] and [uploaded] it returns, with two collections under
    different names that both exist afterwards: emptied when
    [reset_collections] is set, otherwise as they were, or created empty
    when they were missing; every other collection is untouched.  For any
    other mode it raises the [ValueError] and the store is as before. *)
Theorem embedder_init_prepares_its_two_collections :
  ∀ (now : string) (mode : json) (u : option string) (reset : bool)
    (db : Retriever.client),
    match Embedder.init now mode u reset db with
    | (Ok self, db') =>
        let text_name := Embedder.text_collection_name self in
        let image_name := Embedder.image_collection_name self in
        (mode = JStr "regulatory" ∨ mode = JStr "uploaded")
        ∧ text_name ≠ image_name
        ∧ (∀ name, name = text_name ∨ name = image_name →
                   db' !! name
                   = Some (if reset then Embedder.empty_collection name
                           else default (Embedder.empty_collection name)
                                  (db !! name)))
        ∧ (∀ name, name ≠ text_name → name ≠ image_name →
                   db' !! name = db !! name)
    | (Raise e, db') =>
        e = ValueError "Mode must be 'regulatory' or 'uploaded'"
        ∧ db' = db
        ∧ mode ≠ JStr "regulatory" ∧ mode ≠ JStr "uploaded"
    end.
Proof.
  intros now mode u reset db. unfold Embedder.init.
  destruct (Embedder.collection_names now mode u) as [[text_name image_name]|e]
    eqn:Enames.
  - destruct (collection_names_distinct _ _ _ _ _ Enames) as [Hne Hmode].
    cbv zeta. cbn [Embedder.text_collection_name Embedder.image_collection_name].
    split; [exact Hmode|]. split; [exact Hne|]. split.
    + intros name Hname. rewrite !get_or_create_lookup.
      destruct reset.
      * rewrite !try_delete_lookup_client.
        destruct Hname as [-> | ->]; repeat case_decide; try done; congruence.
      * destruct Hname as [-> | ->]; repeat case_decide; try done; congruence.
    + intros name H1 H2. rewrite !get_or_create_lookup.
      destruct reset.
      * rewrite !try_delete_lookup_client. repeat case_decide; try done; congruence.
      * repeat case_decide; try done; congruence.
  - unfold Embedder.collection_names in Enames.
    destruct (json_eq_str mode "regulatory") eqn:E1; [done|].
    destruct (json_eq_str mode "uploaded") eqn:E2; [done|].
    injection Enames as <-. split; [done|]. split; [done|]. split.
    + intros ->. done.
    + intros ->. done.
Qed.

(** X20. A run of the embedder changes nothing but its own two
    collections.  Whatever the chunk files hold and whatever [upsert] does,
    also when the run stops at an exception, every collection under
    another name is afterwards what it was before, and no collection has
    been added or removed.  A text chunk that lacks its id, its text or
    its metadata makes its file raise a [KeyError] before anything of the
    file is written. *)
Theorem embedder_run_changes_only_its_collections :
  ∀ (E : Embedder.env) (self : Embedder.t)
    (text_dir : option (list Embedder.text_file))
    (image_dir : option (list Embedder.image_file)) (db : Retriever.client),
    touches_only [Embedder.text_collection_name self;
                  Embedder.image_collection_name self]
      db (Embedder.run E self text_dir image_dir db).2
    ∧ (∀ file, Exists text_chunk_incomplete (default [] (Embedder.tf_chunks file)) →
               ∃ key, key ∈ ["id"; "text"; "metadata"]
                      ∧ Embedder.embed_text_file E self file db
                        = (Raise (KeyError key), db)).
Proof.
  intros E self text_dir image_dir db. split; [apply run_touches|].
  intros file Hfile. unfold Embedder.embed_text_file. cbv zeta.
  destruct (collect_text_incomplete _ ([], [], []) Hfile) as (key & Hkey & Hc).
  rewrite Hc. eauto.
Qed.

(** X21. What the embedder writes for a session is what the retriever
    reads for it.  After [Embedder.__init__] in mode [uploaded] for a
    session id and a run of the embedder, whatever its outcome, the store
    holds a collection under each of the two names of the session, and a
    retriever built in mode [uploaded_only] for the same id loads exactly
    these two, the text collection as its one text collection and the
    image collection as its one image collection. *)
Theorem retriever_reads_what_the_embedder_wrote :
  ∀ (E : Embedder.env) (now u : string) (reset : bool)
    (db db1 : Retriever.client) (self : Embedder.t)
    (text_dir : option (list Embedder.text_file))
    (image_dir : option (list Embedder.image_file))
    (emb : string → Retriever.embedding),
    str_truthy u = true →
    Embedder.init now (JStr "uploaded") (Some u) reset db = (Ok self, db1) →
    let db2 := (Embedder.run E self text_dir image_dir db1).2 in
    Embedder.text_collection_name self = Router.text_collection_name u
    ∧ Embedder.image_collection_name self = Router.image_collection_name u
    ∧ ∃ ct ci r,
        db2 !! Router.text_collection_name u = Some ct
        ∧ db2 !! Router.image_collection_name u = Some ci
        ∧ Retriever.init db2 emb (JStr "uploaded_only") (Some u) = Ok r
        ∧ Retriever.text_collections r = [("uploaded", ct)]
        ∧ Retriever.image_collections r = [("uploaded", ci)].
Proof.
  intros E now u reset db db1 self text_dir image_dir emb Hu Hinit. cbv zeta.
  unfold Embedder.init, Embedder.collection_names in Hinit.
  cbn [json_eq_str String.eqb Ascii.eqb Bool.eqb] in Hinit.
  cbn [opt_str_truthy] in Hinit. rewrite Hu in Hinit. cbn [negb default] in Hinit.
  cbv zeta in Hinit. injection Hinit as <- <-.
  cbn [Embedder.text_collection_name Embedder.image_collection_name].
  split; [reflexivity|]. split; [reflexivity|].
  match goal with
  | |- context [Embedder.run E ?s text_dir image_dir ?d] =>
      set (self := s); set (db1 := d)
  end.
  destruct (run_touches E self text_dir image_dir db1) as [_ Hdom].
  set (db2 := (Embedder.run E self text_dir image_dir db1).2) in *.
  assert (H1 : ∀ name, name = Router.text_collection_name u
                       ∨ name = Router.image_collection_name u →
                       is_Some (db2 !! name)).
  { intros name Hname. apply elem_of_dom. rewrite Hdom. apply elem_of_dom.
    subst db1. rewrite !get_or_create_lookup.
    destruct Hname as [-> | ->]; repeat case_decide; try done; by eexists. }
  destruct (H1 _ (or_introl eq_refl)) as [ct Hct].
  destruct (H1 _ (or_intror eq_refl)) as [ci Hci].
  exists ct, ci.
  destruct (init_ok db2 emb (JStr "uploaded_only") (Some u)) as [r Hr].
  { simpl. by rewrite Hu. }
  exists r. split; [exact Hct|]. split; [exact Hci|]. split; [exact Hr|].
  apply init_collections in Hr as (_ & _ & _ & Htext & Himage).
  change (json_in (JStr "uploaded_only") ["regulatory_only"; "compare"])
    with false in Htext, Himage.
  change (json_in (JStr "uploaded_only") ["uploaded_only"; "compare"])
    with true in Htext, Himage.
  cbv iota in Htext, Himage. cbn [from_option id app] in Htext, Himage.
  unfold Router.text_collection_name, Router.image_collection_name in Hct, Hci.
  rewrite Hct in Htext. rewrite Hci in Himage. by split.
Qed.

Lemma retriever_reads_what_the_embedder_wrote_witness :
  let db1 := (Embedder.init "20250101_120000" (JStr "uploaded") (Some "s1") true
                example_store).2 in
  let self := {| Embedder.text_collection_name := "finreg_uploaded_text_s1";
                 Embedder.image_collection_name := "finreg_uploaded_image_s1" |} in
  let db2 := (Embedder.run example_env self (Some [example_text_file]) None db1).2 in
  ∃ ct ci r,
    db2 !! Router.text_collection_name "s1" = Some ct
    ∧ db2 !! Router.image_collection_name "s1" = Some ci
    ∧ Retriever.init db2 (fun _ => []) (JStr "uploaded_only") (Some "s1") = Ok r
    ∧ Retriever.text_collections r = [("uploaded", ct)]
    ∧ Retriever.image_collections r = [("uploaded", ci)]
    ∧ Retriever.col_count ct = 1%nat.
Proof.
  intros db1 self db2.
  assert (Hinit : Embedder.init "20250101_120000" (JStr "uploaded") (Some "s1") true
                    example_store = (Ok self, db1))
    by (apply pair_of_fst; reflexivity).
  destruct (retriever_reads_what_the_embedder_wrote example_env "20250101_120000"
              "s1" true example_store db1 self (Some [example_text_file]) None
              (fun _ => []) eq_refl Hinit)
    as (_ & _ & ct & ci & r & Hct & Hci & Hr & Ht & Hi).
  exists ct, ci, r. repeat (split; [assumption|]).
  apply (f_equal (fmap Retriever.col_count)) in Hct.
  vm_compute in Hct. by injection Hct.
Defined.

(* ===================================================================== *)
(** * The intent agent: cleaning the reply of the classifier *)
(* ===================================================================== *)

Section CleanResponse.

Import IntentAgent.

Lemma remove_fences_skip (n : nat) (l : list ascii) :
  remove_fences n l = remove_fences 0 (drop n l).
Proof.
  revert n. induction l as [|c l IH]; intros n.
  - by destruct n.
  - destruct n as [|n]; [done|]. simpl. apply IH.
Qed.

(** Text without a backquote goes through [remove_fences] as it is. *)
Lemma remove_fences_app (l rest : list ascii) :
  "`"%char ∉ l → remove_fences 0 (l ++ rest) = l ++ remove_fences 0 rest.
Proof.
  induction l as [|c l IH]; [done|]. intros H.
  apply not_elem_of_cons in H as [Hc Hl].
  assert (E : Ascii.eqb "`"%char c = false) by (by apply Ascii.eqb_neq).
  cbn [app remove_fences starts_with chars String.list_ascii_of_string].
  rewrite E. cbn [andb]. by rewrite IH.
Qed.

Lemma remove_fences_id (l : list ascii) :
  "`"%char ∉ l → remove_fences 0 l = l.
Proof.
  intros H. rewrite <- (app_nil_r l) at 1.
  rewrite remove_fences_app by done. simpl. by rewrite app_nil_r.
Qed.

Lemma remove_think_skip (n : nat) (l : list ascii) :
  remove_think n l = remove_think 0 (drop n l).
Proof.
  revert n. induction l as [|c l IH]; intros n.
  - by destruct n.
  - destruct n as [|n]; [done|]. simpl. apply IH.
Qed.

(** Text without an opening angle bracket goes through [remove_think] as
    it is. *)
Lemma remove_think_id (l : list ascii) :
  "<"%char ∉ l → remove_think 0 l = l.
Proof.
  induction l as [|c l IH]; [done|]. intros H.
  apply not_elem_of_cons in H as [Hc Hl].
  assert (E : Ascii.eqb "<"%char c = false) by (by apply Ascii.eqb_neq).
  cbn [app remove_think starts_with chars String.list_ascii_of_string].
  rewrite E. cbn [andb]. by rewrite IH.
Qed.

(** The first occurrence of [sub] after a prefix that does not hold the
    first character of [sub]. *)
Lemma index_of_after (s0 : ascii) (sub pre post : list ascii) :
  s0 ∉ pre →
  index_of (s0 :: sub) (pre ++ s0 :: sub ++ post) = Some (length pre).
Proof.
  induction pre as [|c pre IH]; intros H.
  - assert (Hs : starts_with (s0 :: sub) (s0 :: sub ++ post) = true)
      by (apply starts_with_spec; by exists post).
    cbn [app index_of]. by rewrite Hs.
  - apply not_elem_of_cons in H as [Hc Hpre].
    assert (E : Ascii.eqb s0 c = false) by (by apply Ascii.eqb_neq).
    cbn [app index_of starts_with]. rewrite E. cbn [andb].
    rewrite (IH Hpre). done.
Qed.

Lemma rstrip_after_nonspace (x : list ascii) (d : ascii) (b : list ascii) :
  isspace d = false →
  rstrip_chars ((x ++ [d]) ++ b) = (x ++ [d]) ++ rstrip_chars b.
Proof.
  intros Hd. induction x as [|c x IH].
  - simpl. destruct (rstrip_chars b); [by rewrite Hd|done].
  - cbn [app rstrip_chars]. rewrite IH.
    destruct ((x ++ [d]) ++ rstrip_chars b) eqn:E; [|done].
    by destruct x.
Qed.

Lemma strip_rstrip (l : list ascii) : strip_chars (rstrip_chars l) = strip_chars l.
Proof. unfold strip_chars. by rewrite drop_space_rstrip, rstrip_idem. Qed.

End CleanResponse.

(** X22. A fenced reply is read like a bare one.  For a reply body without
    backquote and without opening angle bracket, as a JSON object is unless
    a string in it holds one: the body alone, the body inside a
    [```json ... ```] fence, and the body after a [<think> ... </think>]
    block whose thoughts hold neither character, all clean to the stripped
    body, so the three replies are classified alike. *)
Theorem fenced_reply_is_read_like_a_bare_one :
  ∀ (C : collaborators) (body thoughts : string),
    "`"%char ∉ chars body → "<"%char ∉ chars body →
    "`"%char ∉ chars thoughts → "<"%char ∉ chars thoughts →
    let fenced := "```json" +:+ body +:+ "```" in
    let thinking := "<think>" +:+ thoughts +:+ "</think>" +:+ body in
    IntentAgent.clean_response body = strip body
    ∧ IntentAgent.clean_response fenced = strip body
    ∧ IntentAgent.clean_response thinking = strip body
    ∧ IntentAgent.parse_mode C (IntentAgent.clean_response fenced)
      = IntentAgent.parse_mode C (IntentAgent.clean_response body)
    ∧ IntentAgent.parse_mode C (IntentAgent.clean_response thinking)
      = IntentAgent.parse_mode C (IntentAgent.clean_response body).
Proof.
  intros C body thoughts Hb1 Hb2 Ht1 Ht2. cbv zeta.
  assert (Hstripped : "<"%char ∉ chars (strip body)).
  { intros H. rewrite chars_strip in H. by apply strip_chars_subseteq in H. }
  assert (Hbare : IntentAgent.clean_response body = strip body).
  { unfold IntentAgent.clean_response. cbv zeta.
    rewrite remove_fences_id, str_chars by done.
    rewrite remove_think_id, str_chars by done. apply strip_idem. }
  assert (Hfenced : IntentAgent.clean_response ("```json" +:+ body +:+ "```")
                    = strip body).
  { unfold IntentAgent.clean_response. cbv zeta.
    rewrite !chars_app.
    assert (Hf : IntentAgent.remove_fences 0
                   (chars "```json" ++ chars body ++ chars "```") = chars body).
    { change (chars "```json") with ("`"%char :: chars "``json").
      cbn [app]. cbn [IntentAgent.remove_fences].
      assert (Hs : starts_with (chars "```json")
                     ("`"%char :: chars "``json" ++ chars body ++ chars "```") = true)
        by (apply starts_with_spec; eexists; reflexivity).
      rewrite Hs. cbv iota. rewrite (remove_fences_skip 6).
      change (drop 6 (chars "``json" ++ chars body ++ chars "```"))
        with (chars body ++ chars "```").
      rewrite remove_fences_app by done.
      change (IntentAgent.remove_fences 0 (chars "```")) with (@nil ascii).
      by rewrite app_nil_r. }
    rewrite Hf, str_chars.
    rewrite remove_think_id, str_chars by done. apply strip_idem. }
  assert (Hthinking : IntentAgent.clean_response
                        ("<think>" +:+ thoughts +:+ "</think>" +:+ body)
                      = strip body).
  { unfold IntentAgent.clean_response. cbv zeta.
    rewrite remove_fences_id, str_chars.
    2:{ rewrite !chars_app, !elem_of_app. intros [H|[H|[H|H]]]; try done.
        - apply list_elem_of_In in H. simpl in H. intuition discriminate.
        - apply list_elem_of_In in H. simpl in H. intuition discriminate. }
    set (open_tag := chars "<think>"). set (close_tag := chars "</think>").
    assert (Hs : chars (strip ("<think>" +:+ thoughts +:+ "</think>" +:+ body))
                 = open_tag ++ chars thoughts ++ close_tag
                   ++ rstrip_chars (chars body)).
    { rewrite chars_strip, !chars_app. fold open_tag close_tag.
      unfold strip_chars.
      assert (Hd : drop_space (open_tag ++ chars thoughts ++ close_tag ++ chars body)
                   = open_tag ++ chars thoughts ++ close_tag ++ chars body)
        by reflexivity.
      rewrite Hd.
      change close_tag with (chars "</think" ++ [">"%char]).
      rewrite !app_assoc.
      rewrite (rstrip_after_nonspace _ ">"%char) by reflexivity. done. }
    rewrite Hs.
    assert (Hr : IntentAgent.remove_think 0
                   (open_tag ++ chars thoughts ++ close_tag
                    ++ rstrip_chars (chars body))
                 = rstrip_chars (chars body)).
    { subst open_tag. change (chars "<think>") with ("<"%char :: chars "think>").
      cbn [app]. cbn [IntentAgent.remove_think].
      assert (Hst : starts_with (chars "<think>")
                      ("<"%char :: chars "think>" ++ chars thoughts ++ close_tag
                       ++ rstrip_chars (chars body)) = true)
        by (apply starts_with_spec; eexists; reflexivity).
      rewrite Hst. cbv iota.
      assert (Hdrop : drop 7 ("<"%char :: chars "think>" ++ chars thoughts
                              ++ close_tag ++ rstrip_chars (chars body))
                      = chars thoughts ++ close_tag ++ rstrip_chars (chars body))
        by reflexivity.
      rewrite Hdrop. subst close_tag.
      change (chars "</think>") with ("<"%char :: chars "/think>").
      cbn [app].
      rewrite (index_of_after "<"%char (chars "/think>") (chars thoughts)) by done.
      cbv iota. rewrite (remove_think_skip (6 + length (chars thoughts) + 8)).
      assert (Hd2 : drop (6 + length (chars thoughts) + 8)
                      (chars "think>" ++ chars thoughts
                       ++ "<"%char :: chars "/think>"
                       ++ rstrip_chars (chars body))
                    = rstrip_chars (chars body)).
      { change ("<"%char :: chars "/think>" ++ rstrip_chars (chars body))
          with (("<"%char :: chars "/think>") ++ rstrip_chars (chars body)).
        rewrite !app_assoc.
        replace (6 + length (chars thoughts) + 8)%nat
          with (length ((chars "think>" ++ chars thoughts)
                        ++ "<"%char :: chars "/think>"))
          by (rewrite !length_app; simpl; lia).
        apply drop_app_length. }
      rewrite Hd2. apply remove_think_id.
      intros H. apply Hb2.
      destruct (rstrip_suffix_spaces (chars body)) as (ws & Hbody & _).
      rewrite Hbody. apply elem_of_app. by left. }
    rewrite Hr. unfold strip. rewrite chars_str. f_equal. apply strip_rstrip. }
  split; [exact Hbare|]. split; [exact Hfenced|]. split; [exact Hthinking|].
  by rewrite Hbare, Hfenced, Hthinking.
Qed.

Lemma fenced_reply_is_read_like_a_bare_one_witness :
  IntentAgent.clean_response web_reply = strip web_reply
  ∧ IntentAgent.clean_response ("```json" +:+ web_reply +:+ "```") = strip web_reply
  ∧ IntentAgent.clean_response
      ("<think>" +:+ "The user asks about a recent act." +:+ "</think>" +:+ web_reply)
    = strip web_reply
  ∧ IntentAgent.parse_mode example_collaborators
      (IntentAgent.clean_response ("```json" +:+ web_reply +:+ "```"))
    = IntentAgent.parse_mode example_collaborators
        (IntentAgent.clean_response web_reply)
  ∧ IntentAgent.parse_mode example_collaborators
      (IntentAgent.clean_response
         ("<think>" +:+ "The user asks about a recent act." +:+ "</think>"
          +:+ web_reply))
    = IntentAgent.parse_mode example_collaborators
        (IntentAgent.clean_response web_reply).
Proof.
  apply (fenced_reply_is_read_like_a_bare_one example_collaborators web_reply
           "The user asks about a recent act.");
    (intros H; apply list_elem_of_In in H; vm_compute in H; intuition discriminate).
Defined.
